(** * The signal-broadcast server of dm_vn, embedded and verified

    Sources embedded here:
    - [server/websocket_server.py]: [WebSocketServer] with its registry
      [connected_clients], the connection [handler] and [broadcast_signal];
    - [server/main_engine.py]: [ServerEngine] with [start], [stop],
      [broadcast_signal] and [broadcast_signal_sync];
    - [server/run_server.py]: the commands of [console_listener];
    - the [json.dumps] / [json.loads] pair the server and the client
      exchange frames with;
    - [client/execution_engine.py]: [ExecutionEngine] with [connect],
      [listen], [_process_message], [_default_signal_handler], [run] and
      [close];
    - [client/run.py]: the signal handler of the trading client.

    Layout: the data model and the operations first (modules [Json],
    [websocket_server], [main_engine], [run_server], [execution_engine],
    [client_run], then the concrete scenarios and the vocabulary of the
    statements), the facts afterwards.

    How the asynchronous code is read.  A coroutine is cut at its [await]s:
    the statements between two suspension points run without interruption on
    the loop thread, so each such stretch is one function on the state.  What
    the loop does in between (other handlers running, transports closing or
    filling up, scheduled tasks being run) is an explicit list of [event]s. *)

From Stdlib Require Import ZArith String Ascii List Decimal DecimalString.
From Stdlib Require Import DecimalZ DecimalPos DecimalFacts Lia.
From stdpp Require Import gmap strings.

(* ===================================================================== *)
(** * Python's [json] for the signals of this program                      *)
(* ===================================================================== *)

Module Json.

#[local] Open Scope string_scope.

Definition dquote : ascii := "034"%char.
Definition backslash : ascii := "092"%char.

(** The values a signal carries: every signal built in the sources maps field
    names to strings, integers and floats ([test_signal] in [run_server.py]
    and [main_test]); [None] and the booleans complete the scalars.  A
    [PyFloat i f] is the float that [float.__repr__] prints as [i.f]
    (15.80 is [PyFloat 15 8]): Python guarantees [float(repr(x)) == x], so
    a float is identified by that numeral.  Floats printed with an exponent
    and nested lists or dicts are outside this model.  Strings are sequences
    of code points below 256. *)
Inductive pyval :=
| PyNone
| PyBool (b : bool)
| PyInt (z : Z)
| PyFloat (i : Decimal.int) (f : Decimal.uint)
| PyStr (s : string).

(** A [dict] with [str] keys, in insertion order. *)
Definition pydict := list (string * pyval).

(** ** Encoder: [json.dumps] with its default arguments *)

(** ['{0:04x}'.format(n)] for a code point below 256: two zeros and these. *)
Definition hexdigit (n : N) : ascii :=
  match n with
  | 0 => "0" | 1 => "1" | 2 => "2" | 3 => "3" | 4 => "4" | 5 => "5" | 6 => "6" | 7 => "7"
  | 8 => "8" | 9 => "9" | 10 => "a" | 11 => "b" | 12 => "c" | 13 => "d" | 14 => "e" | _ => "f"
  end%N%char.

Definition u_escape (c : ascii) : string :=
  let n := N_of_ascii c in
  String backslash (String "u" (String "0" (String "0"
    (String (hexdigit (n / 16)) (String (hexdigit (n mod 16)) ""))))).

(** The characters [ESCAPE_ASCII] leaves alone: space to tilde. *)
Definition printable (c : ascii) : bool :=
  (32 <=? N_of_ascii c)%N && (N_of_ascii c <=? 126)%N.

(** [ESCAPE_DCT], then the [\uXXXX] form for what is not printable. *)
Definition escape_char (c : ascii) : string :=
  if Ascii.eqb c backslash then String backslash (String backslash "")
  else if Ascii.eqb c dquote then String backslash (String dquote "")
  else if Ascii.eqb c "008" then String backslash "b"
  else if Ascii.eqb c "012" then String backslash "f"
  else if Ascii.eqb c "010" then String backslash "n"
  else if Ascii.eqb c "013" then String backslash "r"
  else if Ascii.eqb c "009" then String backslash "t"
  else if printable c then String c ""
  else u_escape c.

Fixpoint escape (s : string) : string :=
  match s with
  | EmptyString => EmptyString
  | String c r => escape_char c ++ escape r
  end.

(** [py_encode_basestring_ascii]. *)
Definition encode_basestring_ascii (s : string) : string :=
  String dquote (escape s ++ String dquote "").

(** [float.__repr__] in positional notation. *)
Definition float_repr (i : Decimal.int) (f : Decimal.uint) : string :=
  NilEmpty.string_of_int i ++ "." ++ NilEmpty.string_of_uint f.

Definition dumps_value (v : pyval) : string :=
  match v with
  | PyNone => "null"
  | PyBool true => "true"
  | PyBool false => "false"
  | PyInt z => NilZero.string_of_int (Z.to_int z)
  | PyFloat i f => float_repr i f
  | PyStr s => encode_basestring_ascii s
  end.

(** One [key: value] pair, with the default key separator. *)
Definition dumps_item (kv : string * pyval) : string :=
  encode_basestring_ascii (fst kv) ++ ": " ++ dumps_value (snd kv).

(** The pairs in insertion order, joined by the default item separator. *)
Fixpoint dumps_items (d : pydict) : string :=
  match d with
  | [] => ""
  | [kv] => dumps_item kv
  | kv :: rest => dumps_item kv ++ ", " ++ dumps_items rest
  end.

Definition dumps (d : pydict) : string := "{" ++ dumps_items d ++ "}".

(** ** Decoder: [json.loads] *)

Definition hexval (c : ascii) : option N :=
  let n := N_of_ascii c in
  if (48 <=? n)%N && (n <=? 57)%N then Some (n - 48)%N
  else if (97 <=? n)%N && (n <=? 102)%N then Some (n - 87)%N
  else if (65 <=? n)%N && (n <=? 70)%N then Some (n - 55)%N
  else None.

(** The code point of a [\uXXXX] escape, when it is one of this model. *)
Definition decode_uXXXX (h1 h2 h3 h4 : ascii) : option ascii :=
  match hexval h1, hexval h2, hexval h3, hexval h4 with
  | Some a, Some b, Some c, Some d =>
      let n := (((a * 16 + b) * 16 + c) * 16 + d)%N in
      if (n <? 256)%N then Some (ascii_of_N n) else None
  | _, _, _, _ => None
  end.

(** The decoder's [BACKSLASH] table. *)
Definition backslash_char (e : ascii) : option ascii :=
  if Ascii.eqb e dquote then Some dquote
  else if Ascii.eqb e backslash then Some backslash
  else if Ascii.eqb e "/" then Some "/"%char
  else if Ascii.eqb e "b" then Some "008"%char
  else if Ascii.eqb e "f" then Some "012"%char
  else if Ascii.eqb e "n" then Some "010"%char
  else if Ascii.eqb e "r" then Some "013"%char
  else if Ascii.eqb e "t" then Some "009"%char
  else None.

Definition cons_char (c : ascii) (r : option (string * string)) : option (string * string) :=
  match r with
  | Some (s, rest) => Some (String c s, rest)
  | None => None
  end.

(** [py_scanstring] (strict), started after the opening quote: the decoded
    string and what follows the closing quote. *)
Fixpoint scanstring (s : string) : option (string * string) :=
  match s with
  | EmptyString => None
  | String c r =>
      if Ascii.eqb c dquote then Some ("", r)
      else if Ascii.eqb c backslash then
        match r with
        | String e r' =>
            if Ascii.eqb e "u" then
              match r' with
              | String h1 (String h2 (String h3 (String h4 r''))) =>
                  match decode_uXXXX h1 h2 h3 h4 with
                  | Some c' => cons_char c' (scanstring r'')
                  | None => None
                  end
              | _ => None
              end
            else
              match backslash_char e with
              | Some c' => cons_char c' (scanstring r')
              | None => None
              end
        | EmptyString => None
        end
      else if (N_of_ascii c <? 32)%N then None
      else cons_char c (scanstring r)
  end.

Definition digit_of_char (c : ascii) : option (uint -> uint) :=
  match c with
  | "0" => Some D0 | "1" => Some D1 | "2" => Some D2 | "3" => Some D3 | "4" => Some D4
  | "5" => Some D5 | "6" => Some D6 | "7" => Some D7 | "8" => Some D8 | "9" => Some D9
  | _ => None
  end%char.

(** The longest prefix of decimal digits. *)
Fixpoint scan_digits (s : string) : uint * string :=
  match s with
  | EmptyString => (Nil, EmptyString)
  | String c r =>
      match digit_of_char c with
      | Some D => let (u, r') := scan_digits r in (D u, r')
      | None => (Nil, s)
      end
  end.

(** The integer part of [NUMBER_RE]: a lone zero, or digits that do not start
    with one. *)
Definition scan_int (s : string) : option (uint * string) :=
  match s with
  | String "0" r => Some (D0 Nil, r)
  | _ => match scan_digits s with
         | (Nil, _) => None
         | (u, r) => Some (u, r)
         end
  end.

(** The optional fraction of [NUMBER_RE]: a dot and at least one digit. *)
Definition scan_frac (s : string) : option (uint * string) :=
  match s with
  | String "." r => match scan_digits r with
                    | (Nil, _) => None
                    | (f, r') => Some (f, r')
                    end
  | _ => None
  end.

Definition has_exponent (s : string) : bool :=
  match s with
  | String "e" _ | String "E" _ => true
  | _ => false
  end.

(** A number: an [int] without fraction, a [float] with one.  A number with
    an exponent is refused, such floats are not values of this model. *)
Definition scan_number (s : string) : option (pyval * string) :=
  let (neg, s1) := match s with String "-" r => (true, r) | _ => (false, s) end in
  match scan_int s1 with
  | None => None
  | Some (u, s2) =>
      let i := if neg then Neg u else Pos u in
      match scan_frac s2 with
      | Some (f, s3) => if has_exponent s3 then None else Some (PyFloat i f, s3)
      | None => if has_exponent s2 then None else Some (PyInt (Z.of_int i), s2)
      end
  end.

Fixpoint match_literal (lit s : string) : option string :=
  match lit, s with
  | EmptyString, _ => Some s
  | String a lit', String b s' => if Ascii.eqb a b then match_literal lit' s' else None
  | _, EmptyString => None
  end.

(** [scan_once] on scalars. *)
Definition scan_once (s : string) : option (pyval * string) :=
  match s with
  | EmptyString => None
  | String c r =>
      if Ascii.eqb c dquote then
        match scanstring r with
        | Some (v, rest) => Some (PyStr v, rest)
        | None => None
        end
      else if Ascii.eqb c "n" then option_map (pair PyNone) (match_literal "null" s)
      else if Ascii.eqb c "t" then option_map (pair (PyBool true)) (match_literal "true" s)
      else if Ascii.eqb c "f" then option_map (pair (PyBool false)) (match_literal "false" s)
      else scan_number s
  end.

Definition is_ws (c : ascii) : bool :=
  Ascii.eqb c " " || Ascii.eqb c "009" || Ascii.eqb c "010" || Ascii.eqb c "013".

Fixpoint skip_ws (s : string) : string :=
  match s with
  | String c r => if is_ws c then skip_ws r else s
  | EmptyString => EmptyString
  end.

(** The loop of [JSONObject], entered after the opening quote of a key.  Each
    turn consumes at least one character, so the length of the input is
    fuel enough. *)
Fixpoint JSONObject_pairs (fuel : nat) (s : string) : option (list (string * pyval) * string) :=
  match fuel with
  | O => None
  | S fuel' =>
      match scanstring s with
      | None => None
      | Some (key, s1) =>
          match skip_ws s1 with
          | String ":" s2 =>
              match scan_once (skip_ws s2) with
              | None => None
              | Some (value, s3) =>
                  match skip_ws s3 with
                  | String "}" s4 => Some ([(key, value)], s4)
                  | String "," s4 =>
                      match skip_ws s4 with
                      | String c s5 =>
                          if Ascii.eqb c dquote then
                            match JSONObject_pairs fuel' s5 with
                            | Some (pairs, s6) => Some ((key, value) :: pairs, s6)
                            | None => None
                            end
                          else None
                      | EmptyString => None
                      end
                  | _ => None
                  end
              end
          | _ => None
          end
      end
  end.

(** [d[k] = v]: a known key keeps its place and takes the new value. *)
Fixpoint dict_setitem (k : string) (v : pyval) (d : pydict) : pydict :=
  match d with
  | [] => [(k, v)]
  | (k', v') :: r => if String.eqb k k' then (k, v) :: r else (k', v') :: dict_setitem k v r
  end.

(** [dict(pairs)]. *)
Definition dict_of_pairs (pairs : list (string * pyval)) : pydict :=
  fold_left (fun d kv => dict_setitem (fst kv) (snd kv) d) pairs [].

(** [JSONObject], entered after the opening brace. *)
Definition JSONObject (s : string) : option (pydict * string) :=
  match skip_ws s with
  | String "}" r => Some ([], r)
  | String c r =>
      if Ascii.eqb c dquote then
        match JSONObject_pairs (String.length r) r with
        | Some (pairs, rest) => Some (dict_of_pairs pairs, rest)
        | None => None
        end
      else None
  | EmptyString => None
  end.

(** [json.loads] on a frame that holds an object; [None] is [JSONDecodeError]
    (or a document outside this model). *)
Definition loads (s : string) : option pydict :=
  match skip_ws s with
  | String "{" r =>
      match JSONObject r with
      | Some (d, rest) => match skip_ws rest with EmptyString => Some d | _ => None end
      | None => None
      end
  | _ => None
  end.

(** ** Well-formed signals *)

(** The numeral of a float has an integer part without superfluous zeros and
    a fraction of at least one digit, as [repr] prints them. *)
Definition float_ok (i : Decimal.int) (f : uint) : bool :=
  let u := match i with Pos u => u | Neg u => u end in
  uint_beq (unorm u) u && match f with Nil => false | _ => true end.

Definition value_ok (v : pyval) : bool :=
  match v with PyFloat i f => float_ok i f | _ => true end.

(** A signal is a [dict]: its keys are distinct. *)
Definition signal_ok (d : pydict) : bool :=
  bool_decide (NoDup (map fst d)) && forallb value_ok (map snd d).

(** ** Shapes of strings, used to state how the scanners stop *)

Definition starts_nondigit (s : string) : Prop :=
  match s with
  | EmptyString => True
  | String c _ => digit_of_char c = None
  end.

(** What follows a value inside an object: a comma or the closing brace. *)
Definition starts_delim (s : string) : Prop :=
  match s with
  | String c _ => c = ","%char \/ c = "}"%char
  | EmptyString => False
  end.

Definition starts_numeric (s : string) : Prop :=
  match s with
  | String c _ => c = "-"%char \/ digit_of_char c <> None
  | EmptyString => False
  end.

Definition starts_nonws (s : string) : Prop :=
  match s with
  | String c _ => is_ws c = false
  | EmptyString => True
  end.

(** The text of an encoded object after the opening quote of its first key
    [k], followed by [rest]: the form [JSONObject_pairs] consumes. *)
Fixpoint items_body (k : string) (v : pyval) (d : pydict) (rest : string) : string :=
  escape k ++ String dquote (String ":" (String " " (dumps_value v ++
    match d with
    | [] => String "}" rest
    | (k', v') :: d' => String "," (String " " (String dquote (items_body k' v' d' rest)))
    end))).

End Json.

(* ===================================================================== *)
(** * Shared vocabulary                                                    *)
(* ===================================================================== *)

(** A connection is a [WebSocketServerProtocol] object; the registry is a
    Python [set] of them, hashed by identity, and [handler] logs
    [id(websocket)] as the client id.  A connection is that identity. *)
Definition conn := positive.

Inductive exn :=
| ConnectionClosed (client : conn)   (* websockets.exceptions.ConnectionClosed *)
| KeyError (client : conn)           (* set.remove of a missing element *)
| TimeoutError                       (* future.result(timeout) ran out *)
| RuntimeError                       (* the event loop is closed *)
| OSError.                           (* websockets.serve could not bind *)

(** How a call ends.  A Python function that returns [None] is [Return tt]. *)
Inductive result (A : Type) :=
| Return (a : A)
| Raise (e : exn).
Arguments Return {A} a.
Arguments Raise {A} e.

Inductive level := INFO | WARNING | ERROR.

(* ===================================================================== *)
(** * [server/websocket_server.py]                                         *)
(* ===================================================================== *)

Module websocket_server.

(** What the logger [WebSocket Server] is given, one constructor per call. *)
Inductive logmsg :=
| Initialized                                     (* line 30 *)
| NewClient (client_id : conn) (count : nat)      (* line 40 *)
| Received (client_id : conn) (message : string)  (* line 46 *)
| Disconnected (client_id : conn)                 (* line 50 *)
| Removed (client_id : conn) (count : nat)        (* line 54 *)
| NoClients                                       (* line 63 *)
| Preparing (message : string)                    (* line 68 *)
| Broadcasted (count : nat)                       (* line 80 *)
| Starting                                        (* line 87 *)
| Started                                         (* line 90 *)
| Stopped.                                        (* line 99 *)

(** The transport of a connection, as [client.send] meets it: [Open] takes a
    frame at once; [Congested] has its write buffer full, and a send waits
    there; [Closed] makes a send raise [ConnectionClosed]. *)
Inductive link := Open | Congested | Closed.

(** The coroutines of [broadcast_signal] that the loop holds.
    - [Broadcast fut signal_data]: scheduled, not yet started;
    - [Gather fut message tasks]: suspended at line 79 in
      [await asyncio.gather( *tasks )], [tasks] being the sends not finished;
    - [Detached message tasks]: sends still waiting after their gather has
      raised (gather does not cancel the others).
    [fut] names the future of whoever waits for the broadcast. *)
Inductive coro :=
| Broadcast (fut : nat) (signal_data : Json.pydict)
| Gather (fut : nat) (message : string) (tasks : list conn)
| Detached (message : string) (tasks : list conn).

(** The [WebSocketServer] object ([connected_clients], [server]) together
    with what its coroutines act on: the transports, the frames written to
    them (oldest first), the coroutines suspended on the loop, the results
    delivered to futures, and the logger's output. *)
Record WebSocketServer := mkServer {
  connected_clients : gset conn;
  server : bool;
  links : gmap conn link;
  frames : list (conn * string);
  coros : list coro;
  results : gmap nat (result unit);
  next_fut : nat;
  log : list (level * logmsg)
}.

Definition set_clients (x : gset conn) (w : WebSocketServer) : WebSocketServer :=
  mkServer x (server w) (links w) (frames w) (coros w) (results w) (next_fut w) (log w).
Definition set_server (x : bool) (w : WebSocketServer) : WebSocketServer :=
  mkServer (connected_clients w) x (links w) (frames w) (coros w) (results w) (next_fut w) (log w).
Definition set_links (x : gmap conn link) (w : WebSocketServer) : WebSocketServer :=
  mkServer (connected_clients w) (server w) x (frames w) (coros w) (results w) (next_fut w) (log w).
Definition set_frames (x : list (conn * string)) (w : WebSocketServer) : WebSocketServer :=
  mkServer (connected_clients w) (server w) (links w) x (coros w) (results w) (next_fut w) (log w).
Definition set_coros (x : list coro) (w : WebSocketServer) : WebSocketServer :=
  mkServer (connected_clients w) (server w) (links w) (frames w) x (results w) (next_fut w) (log w).
Definition set_results (x : gmap nat (result unit)) (w : WebSocketServer) : WebSocketServer :=
  mkServer (connected_clients w) (server w) (links w) (frames w) (coros w) x (next_fut w) (log w).
Definition set_next_fut (x : nat) (w : WebSocketServer) : WebSocketServer :=
  mkServer (connected_clients w) (server w) (links w) (frames w) (coros w) (results w) x (log w).
Definition set_log (x : list (level * logmsg)) (w : WebSocketServer) : WebSocketServer :=
  mkServer (connected_clients w) (server w) (links w) (frames w) (coros w) (results w) (next_fut w) x.

(** [WebSocketServer.__init__]: nobody connected, not listening. *)
Definition init : WebSocketServer :=
  mkServer ∅ false ∅ [] [] ∅ 0 [(INFO, Initialized)].

(** ** Statements: a state and exception monad *)

(** A stretch of statements: it ends normally or raises, and what it did to
    the state before raising stays done. *)
Definition M (A : Type) : Type := WebSocketServer -> result A * WebSocketServer.

#[global] Instance M_ret : MRet M := fun A a w => (Return a, w).
#[global] Instance M_bind : MBind M := fun A B k m w =>
  match m w with
  | (Return a, w') => k a w'
  | (Raise e, w') => (Raise e, w')
  end.

Definition raise {A} (e : exn) : M A := fun w => (Raise e, w).
Definition get_clients : M (gset conn) := fun w => (Return (connected_clients w), w).
Definition logger (l : level) (m : logmsg) : M unit :=
  fun w => (Return tt, set_log (log w ++ [(l, m)]) w).

(** ** The registry *)

(** Line 38, [self.connected_clients.add(websocket)]. *)
Definition register (websocket : conn) : M unit :=
  fun w => (Return tt, set_clients ({[websocket]} ∪ connected_clients w) w).

(** Line 53, [self.connected_clients.remove(websocket)]: [set.remove] raises
    [KeyError] on a missing element. *)
Definition unregister (websocket : conn) : M unit :=
  fun w => if bool_decide (websocket ∈ connected_clients w)
           then (Return tt, set_clients (connected_clients w ∖ {[websocket]}) w)
           else (Raise (KeyError websocket), w).

(** ** [handler], cut at [async for message in websocket] *)

(** Lines 38 to 40: up to the first wait for a message. *)
Definition handler_enter (websocket : conn) : M unit :=
  register websocket ;;
  clients ← get_clients ;
  logger INFO (NewClient websocket (size clients)).

(** Line 46: one turn of the loop body. *)
Definition handler_message (websocket : conn) (message : string) : M unit :=
  logger INFO (Received websocket message).

(** Lines 49 to 54: the iteration ends, with [ConnectionClosed] or without,
    and the [finally] block runs. *)
Definition handler_exit (websocket : conn) (connection_closed : bool) : M unit :=
  (if connection_closed then logger INFO (Disconnected websocket) else mret tt) ;;
  unregister websocket ;;
  clients ← get_clients ;
  logger INFO (Removed websocket (size clients)).

(** ** [broadcast_signal], cut at [await asyncio.gather] *)

Inductive sent := Done | Suspended | Failed (e : exn).

(** One run of the task [client.send(message)]. *)
Definition send (client : conn) (message : string) (w : WebSocketServer)
  : sent * WebSocketServer :=
  match links w !! client with
  | Some Open => (Done, set_frames (frames w ++ [(client, message)]) w)
  | Some Congested => (Suspended, w)
  | Some Closed | None => (Failed (ConnectionClosed client), w)
  end.

(** The loop runs the send tasks in the order they were created: the ones
    still suspended, and the exceptions raised, in order. *)
Fixpoint run_sends (message : string) (tasks : list conn) (w : WebSocketServer)
  : list conn * list exn * WebSocketServer :=
  match tasks with
  | [] => ([], [], w)
  | client :: tasks' =>
      let '(r, w1) := send client message w in
      let '(pending, errors, w2) := run_sends message tasks' w1 in
      match r with
      | Done => (pending, errors, w2)
      | Suspended => (client :: pending, errors, w2)
      | Failed e => (pending, e :: errors, w2)
      end
  end.

Definition detach (message : string) (pending : list conn) : list coro :=
  match pending with
  | [] => []
  | _ => [Detached message pending]
  end.

Definition set_result (fut : nat) (r : result unit) (w : WebSocketServer) : WebSocketServer :=
  set_results (<[fut := r]> (results w)) w.

(** Lines 62 to 79, up to the [await]: the early return on an empty registry,
    else the message and one task per member of [self.connected_clients].
    No [await] stands inside the [for], so the set is read in one go. *)
Definition broadcast_signal_start (fut : nat) (signal_data : Json.pydict)
    (w : WebSocketServer) : list coro * WebSocketServer :=
  if bool_decide (connected_clients w = ∅) then
    ([], set_result fut (Return tt) (set_log (log w ++ [(WARNING, NoClients)]) w))
  else
    let message := Json.dumps signal_data in
    let w1 := set_log (log w ++ [(INFO, Preparing message)]) w in
    ([Gather fut message (elements (connected_clients w1))], w1).

(** What [asyncio.gather] (without [return_exceptions]) does to the coroutine
    once its tasks have run: the first exception is raised in it, the other
    tasks go on; with no exception it waits for the tasks still pending;
    when all are done the coroutine reaches line 80 and returns. *)
Definition broadcast_signal_resume (fut : nat) (message : string)
    (pending : list conn) (errors : list exn) (w : WebSocketServer)
  : list coro * WebSocketServer :=
  match errors, pending with
  | e :: _, _ => (detach message pending, set_result fut (Raise e) w)
  | [], [] =>
      let w1 := set_log (log w ++ [(INFO, Broadcasted (size (connected_clients w)))]) w in
      ([], set_result fut (Return tt) w1)
  | [], _ :: _ => ([Gather fut message pending], w)
  end.

(** ** The event loop *)

(** One coroutine gets its turn: what is left of it, and the new state. *)
Definition run_coro (c : coro) (w : WebSocketServer) : list coro * WebSocketServer :=
  match c with
  | Broadcast fut signal_data => broadcast_signal_start fut signal_data w
  | Gather fut message tasks =>
      let '(pending, errors, w1) := run_sends message tasks w in
      broadcast_signal_resume fut message pending errors w1
  | Detached message tasks =>
      let '(pending, _, w1) := run_sends message tasks w in
      (detach message pending, w1)
  end.

Fixpoint run_coros (cs : list coro) (w : WebSocketServer) : list coro * WebSocketServer :=
  match cs with
  | [] => ([], w)
  | c :: cs' =>
      let '(kept, w1) := run_coro c w in
      let '(kept', w2) := run_coros cs' w1 in
      (kept ++ kept', w2)
  end.

(** One iteration of the loop over its scheduled coroutines. *)
Definition tick (w : WebSocketServer) : WebSocketServer :=
  let '(kept, w1) := run_coros (coros w) w in
  set_coros kept w1.

(** Scheduling [broadcast_signal(signal_data)] on the loop: the future that
    will hold its result, and the new state. *)
Definition submit (signal_data : Json.pydict) (w : WebSocketServer) : nat * WebSocketServer :=
  let fut := next_fut w in
  (fut, set_next_fut (S fut) (set_coros (coros w ++ [Broadcast fut signal_data]) w)).

(** What happens on the loop thread.
    - [Accept c]: a new connection finished its handshake, [handler] starts;
    - [Recv c message]: a message of [c] arrives;
    - [Lost c]: the transport of [c] closes;
    - [HandlerExit c error]: the handler of the closed [c] leaves its loop,
      with [ConnectionClosed] raised in it ([error]) or the iteration over;
    - [Congest c], [Drain c]: the write buffer of [c] fills up, empties;
    - [Tick]: the loop runs its scheduled coroutines. *)
Inductive event :=
| Accept (c : conn)
| Recv (c : conn) (message : string)
| Lost (c : conn)
| HandlerExit (c : conn) (error : bool)
| Congest (c : conn)
| Drain (c : conn)
| Tick.

(** A handler's exception stays in its own task. *)
Definition quiet (m : M unit) (w : WebSocketServer) : WebSocketServer := snd (m w).

(** A connection object is accepted once, and has a handler from then until
    that handler exits: [links] holds exactly these connections. *)
Definition loop_event (e : event) (w : WebSocketServer) : WebSocketServer :=
  match e with
  | Accept c =>
      match links w !! c with
      | None => quiet (handler_enter c) (set_links (<[c := Open]> (links w)) w)
      | Some _ => w
      end
  | Recv c message =>
      match links w !! c with
      | Some (Open | Congested) => quiet (handler_message c message) w
      | _ => w
      end
  | Lost c =>
      match links w !! c with
      | Some _ => set_links (<[c := Closed]> (links w)) w
      | None => w
      end
  | HandlerExit c error =>
      match links w !! c with
      | Some Closed => set_links (delete c (links w)) (quiet (handler_exit c error) w)
      | _ => w
      end
  | Congest c =>
      match links w !! c with
      | Some Open => set_links (<[c := Congested]> (links w)) w
      | _ => w
      end
  | Drain c =>
      match links w !! c with
      | Some Congested => set_links (<[c := Open]> (links w)) w
      | _ => w
      end
  | Tick => tick w
  end.

Definition run_events (es : list event) (w : WebSocketServer) : WebSocketServer :=
  fold_left (fun w e => loop_event e w) es w.

(** [await ws_server.broadcast_signal(signal_data)] with the loop to itself:
    one iteration creates the tasks, the next runs them.  [None] is a
    coroutine that is still suspended. *)
Definition broadcast_signal (signal_data : Json.pydict) (w : WebSocketServer)
  : option (result unit) * WebSocketServer :=
  let (fut, w1) := submit signal_data w in
  let w2 := run_events [Tick; Tick] w1 in
  (results w2 !! fut, w2).

(** A thread waits on a future while the loop goes through [window], the
    events that fit into the timeout: [None] is the timeout running out. *)
Fixpoint wait_result (fut : nat) (window : list event) (w : WebSocketServer)
  : option (result unit) * WebSocketServer :=
  match results w !! fut with
  | Some r => (Some r, w)
  | None =>
      match window with
      | [] => (None, w)
      | e :: window' => wait_result fut window' (loop_event e w)
      end
  end.

(** Lines 82 to 90; [ok] is whether [websockets.serve] could bind. *)
Definition start_server (ok : bool) : M unit :=
  logger INFO Starting ;;
  if ok then (fun w => (Return tt, set_server true w)) ;; logger INFO Started
  else raise OSError.

(** Lines 92 to 99, as far as the [WebSocketServer] object goes:
    [self.server] keeps the server object it was given, the log shows the
    stop.  What [close()] does to the connections is not embedded. *)
Definition stop_server : M unit :=
  fun w => if server w then logger INFO Stopped w else (Return tt, w).

End websocket_server.

(* ===================================================================== *)
(** * [server/main_engine.py]                                              *)
(* ===================================================================== *)

Module main_engine.
Import websocket_server.

(** What the logger [Server Engine] is given. *)
Inductive logmsg :=
| Initializing                 (* line 23 *)
| EngineInitialized            (* line 35 *)
| AlreadyRunning               (* line 39 *)
| EngineStarting               (* line 42 *)
| EngineStarted                (* line 48 *)
| AsyncError (e : exn)         (* line 67 *)
| LoopClosedMsg                (* line 76 *)
| ThreadStarted                (* line 81 *)
| NotRunning                   (* line 85 *)
| EngineStopping               (* line 88 *)
| EngineStopped                (* line 95 *)
| NoServer                     (* line 105 *)
| LoopNotReady                 (* line 113 *)
| BroadcastTimeout             (* line 122 *)
| BroadcastError (e : exn).    (* line 124 *)

(** The loop object [self.async_loop] refers to, by its state. *)
Inductive loop_status := LoopRunning | LoopClosed.

(** [self.async_thread]: created with [daemon=True]; [alive] until its target
    function returns. *)
Record thread := mkThread { daemon : bool; alive : bool }.

Record ServerEngine := mkEngine {
  active : bool;
  ws_server : option WebSocketServer;
  async_loop : option loop_status;
  async_thread : option thread;
  elog : list (level * logmsg)
}.

Definition set_active (x : bool) (self : ServerEngine) : ServerEngine :=
  mkEngine x (ws_server self) (async_loop self) (async_thread self) (elog self).
Definition set_ws_server (x : option WebSocketServer) (self : ServerEngine) : ServerEngine :=
  mkEngine (active self) x (async_loop self) (async_thread self) (elog self).
Definition set_async_loop (x : option loop_status) (self : ServerEngine) : ServerEngine :=
  mkEngine (active self) (ws_server self) x (async_thread self) (elog self).
Definition set_async_thread (x : option thread) (self : ServerEngine) : ServerEngine :=
  mkEngine (active self) (ws_server self) (async_loop self) x (elog self).
Definition elogger (l : level) (m : logmsg) (self : ServerEngine) : ServerEngine :=
  mkEngine (active self) (ws_server self) (async_loop self) (async_thread self)
           (elog self ++ [(l, m)]).

(** [ServerEngine.__init__], lines 22 to 35. *)
Definition init : ServerEngine :=
  elogger INFO EngineInitialized
    (mkEngine false (Some websocket_server.init) None None [(INFO, Initializing)]).

(** Lines 78 to 81: the thread is created as a daemon and started.  What its
    target does is [run_async_in_thread], a step of its own. *)
Definition _start_async_components (self : ServerEngine) : ServerEngine :=
  elogger INFO ThreadStarted (set_async_thread (Some (mkThread true true)) self).

(** Lines 37 to 48. *)
Definition start (self : ServerEngine) : ServerEngine :=
  if active self then elogger WARNING AlreadyRunning self
  else
    let self1 := elogger INFO EngineStarting self in
    let self2 := _start_async_components self1 in
    elogger INFO EngineStarted (set_active true self2).

(** Lines 70 to 72: every task of the loop is cancelled. *)
Definition cancel_all (w : WebSocketServer) : WebSocketServer := set_coros [] w.

(** Lines 53 to 76, the target of the thread, up to [loop.run_forever()]:
    it creates the loop, stores it in [self.async_loop] and starts the
    server.  When that raises, the [except] logs, the [finally] cancels the
    tasks and closes the loop, and the thread ends; else the loop runs
    (nothing in the sources stops it). *)
Definition run_async_in_thread (ok : bool) (self : ServerEngine) : ServerEngine :=
  match async_thread self, ws_server self with
  | Some t, Some ws =>
      let self1 := set_async_loop (Some LoopRunning) self in
      match start_server ok ws with
      | (Return _, ws1) => set_ws_server (Some ws1) self1
      | (Raise e, ws1) =>
          let self2 := elogger ERROR (AsyncError e) (set_ws_server (Some (cancel_all ws1)) self1) in
          elogger INFO LoopClosedMsg
            (set_async_thread (Some (mkThread (daemon t) false))
               (set_async_loop (Some LoopClosed) self2))
      end
  | _, _ => self
  end.

(** An event of the loop thread, while the loop runs. *)
Definition loop_event (e : event) (self : ServerEngine) : ServerEngine :=
  match async_loop self, ws_server self with
  | Some LoopRunning, Some ws => set_ws_server (Some (websocket_server.loop_event e ws)) self
  | _, _ => self
  end.

Definition run_events (es : list event) (self : ServerEngine) : ServerEngine :=
  fold_left (fun self e => loop_event e self) es self.

(** Lines 83 to 95.  The comment at lines 91 to 93 says why nothing else is
    done: the server runs in a daemon thread that dies with the main thread,
    a graceful shutdown is left for later. *)
Definition stop (self : ServerEngine) : ServerEngine :=
  if negb (active self) then elogger WARNING NotRunning self
  else
    let self1 := elogger INFO EngineStopping self in
    elogger INFO EngineStopped (set_active false self1).

(** Lines 97 to 105, scheduled on the loop: the future to wait on, unless the
    coroutine only logs and returns. *)
Definition broadcast_signal (signal_data : Json.pydict) (self : ServerEngine)
  : option nat * ServerEngine :=
  match ws_server self with
  | Some ws =>
      let (fut, ws1) := submit signal_data ws in
      (Some fut, set_ws_server (Some ws1) self)
  | None => (None, elogger ERROR NoServer self)
  end.

(** [future.result(timeout=5.0)]: the calling thread waits while the loop
    goes through [window]. *)
Definition future_result (fut : nat) (window : list event) (self : ServerEngine)
  : option (result unit) * ServerEngine :=
  match ws_server self with
  | Some ws =>
      let (r, ws1) := wait_result fut window ws in
      (r, set_ws_server (Some ws1) self)
  | None => (None, self)
  end.

(** Lines 106 to 124.  [run_coroutine_threadsafe] stands before the [try]:
    on a closed loop its [RuntimeError] reaches the caller.  Both [except]
    clauses log and fall through to the end of the function.  The timeout of
    [future.result] is [asyncio.TimeoutError] from Python 3.11 on, which is
    what is embedded; before that the second clause catches it and the
    entry logged is that of line 124. *)
Definition broadcast_signal_sync (signal_data : Json.pydict) (window : list event)
    (self : ServerEngine) : result unit * ServerEngine :=
  match async_loop self with
  | None => (Return tt, elogger ERROR LoopNotReady self)
  | Some LoopClosed => (Raise RuntimeError, self)
  | Some LoopRunning =>
      match broadcast_signal signal_data self with
      | (None, self1) => (Return tt, self1)
      | (Some fut, self1) =>
          match future_result fut window self1 with
          | (Some (Return _), self2) => (Return tt, self2)
          | (None, self2) => (Return tt, elogger ERROR BroadcastTimeout self2)
          | (Some (Raise e), self2) => (Return tt, elogger ERROR (BroadcastError e) self2)
          end
      end
  end.

End main_engine.

(* ===================================================================== *)
(** * [server/run_server.py]: the console                                  *)
(* ===================================================================== *)

Module run_server.
Import websocket_server.

(** What [print] writes, one constructor per call. *)
Inductive printed :=
| ShuttingDown                         (* line 31 *)
| HelpText                             (* line 35 *)
| Announce (signal : Json.pydict)      (* line 47 *)
| BroadcastOk                          (* line 59 *)
| BroadcastTimedOut                    (* line 61 *)
| BroadcastFailed (e : exn)            (* line 63 *)
| LoopNotReady                         (* line 65 *)
| UnknownCommand (command : string).   (* line 67 *)

(** Lines 38 to 46. *)
Definition test_signal : Json.pydict :=
  [("action", Json.PyStr "BUY"); ("symbol", Json.PyStr "000001.SZ");
   ("price", Json.PyFloat (Pos (D1 (D5 Nil))) (D8 Nil)); ("volume", Json.PyInt 100);
   ("timestamp", Json.PyStr "2025-09-08 14:30:00");
   ("strategy_id", Json.PyStr "test_strategy_001");
   ("signal_id", Json.PyStr "test_signal_001")]%string.

(** The console thread's view: the stop flag, what was printed, the engine. *)
Record Console := mkConsole {
  stop_event : bool;
  stdout : list printed;
  engine : main_engine.ServerEngine
}.

Definition print (x : printed) (st : Console) : Console :=
  mkConsole (stop_event st) (stdout st ++ [x]) (engine st).
Definition set_stop_event (st : Console) : Console :=
  mkConsole true (stdout st) (engine st).
Definition set_engine (e : main_engine.ServerEngine) (st : Console) : Console :=
  mkConsole (stop_event st) (stdout st) e.

(** Lines 49 to 65, the [test_signal] command after its announcement.
    [run_coroutine_threadsafe] stands outside the inner [try], and the outer
    one (line 68) catches other exceptions only. *)
Definition broadcast_test_signal (window : list event) (st : Console) : result unit * Console :=
  match main_engine.async_loop (engine st) with
  | None => (Return tt, print LoopNotReady st)
  | Some main_engine.LoopClosed => (Raise RuntimeError, st)
  | Some main_engine.LoopRunning =>
      match main_engine.broadcast_signal test_signal (engine st) with
      | (None, e1) => (Return tt, print BroadcastOk (set_engine e1 st))
      | (Some fut, e1) =>
          match main_engine.future_result fut window e1 with
          | (Some (Return _), e2) => (Return tt, print BroadcastOk (set_engine e2 st))
          | (None, e2) => (Return tt, print BroadcastTimedOut (set_engine e2 st))
          | (Some (Raise e), e2) => (Return tt, print (BroadcastFailed e) (set_engine e2 st))
          end
      end
  end.

(** One turn of the [while] of [console_listener], lines 26 to 71.
    [command] is the line read, stripped and in lower case; [None] is
    [input()] raising [EOFError] or [KeyboardInterrupt]. *)
Definition console_listener_step (command : option string) (window : list event)
    (st : Console) : result unit * Console :=
  if stop_event st then (Return tt, st)
  else
    match command with
    | None => (Return tt, set_stop_event st)
    | Some command =>
        if (String.eqb command "exit" || String.eqb command "quit")%bool then
          (Return tt, set_stop_event (print ShuttingDown st))
        else if String.eqb command "help" then (Return tt, print HelpText st)
        else if String.eqb command "test_signal" then
          broadcast_test_signal window (print (Announce test_signal) st)
        else (Return tt, print (UnknownCommand command) st)
    end.

(** How the console thread stands: blocked in [input()], out of its
    [while], or ended by an exception no clause of it catches. *)
Inductive thread_state := Reading | Finished | Died (e : exn).

(** Lines 26 to 71, the whole [while]: [inputs] are the lines typed, each
    with the events that fit into the wait of its command.  The flag is
    tested before each read; an exception ends the function. *)
Fixpoint console_listener (inputs : list (option string * list event)) (st : Console)
  : thread_state * Console :=
  if stop_event st then (Finished, st)
  else
    match inputs with
    | [] => (Reading, st)
    | (command, window) :: inputs' =>
        match console_listener_step command window st with
        | (Return _, st') => console_listener inputs' st'
        | (Raise e, st') => (Died e, st')
        end
    end.

End run_server.

(* ===================================================================== *)
(** * [client/execution_engine.py]                                         *)
(* ===================================================================== *)

Module execution_engine.

#[local] Open Scope string_scope.

(** The exceptions met on the client. *)
Inductive error :=
| JSONDecodeError          (* json.loads on a frame that is not JSON *)
| AttributeError           (* a method called on a value without it *)
| ConnectionClosedError    (* websockets.exceptions.ConnectionClosed *)
| ConnectionRefusedError.  (* websockets.connect could not connect *)

Inductive outcome := Returned | Raised (e : error).

(** ** What the client writes *)

Inductive field := Strategy | SignalId | Action | Symbol | Price | Volume.

(** A value put into an f-string: a value of the signal, or a [str] given
    by its code points (the result of [str.upper], which may leave the code
    points below 256). *)
Inductive shown :=
| Value (v : Json.pyval)
| Text (codepoints : list N).

(** What [print] writes, one constructor per call. *)
Inductive line :=
| ReceivedBanner                  (* execution_engine.py, line 116 *)
| ExecuteBanner                   (* run.py, line 64 *)
| Field (f : field) (x : shown)   (* one labelled value *)
| Rule.                           (* the closing line of equals signs *)

(** What [run.py] gives the root logger. *)
Inductive rootmsg :=
| Processing (signal_data : Json.pydict)                 (* run.py, line 53 *)
| PendingExecution (action : list N) (symbol volume price : Json.pyval).
                                                         (* run.py, line 77 *)

(** What a signal handler does before it returns or raises. *)
Inductive emitted :=
| Print (l : line)
| RootLog (l : level) (m : rootmsg).

(** [self.signal_handler]: a callable on the decoded signal. *)
Definition handler : Type := Json.pydict -> list emitted * outcome.

(** What the logger [Execution Engine] is given. *)
Inductive logmsg :=
| Initialized (server_url : string)                     (* line 30 *)
| HandlerSet                                            (* line 38 *)
| Connecting                                            (* line 45 *)
| Connected                                             (* line 48 *)
| ConnectFailed (e : error)                             (* line 59 *)
| NotConnected                                          (* line 68 *)
| Listening                                             (* line 72 *)
| ServerClosed                                          (* line 77 *)
| SignalReceived (signal_data : Json.pydict)            (* line 91 *)
| NoHandler                                             (* line 97 *)
| NotJson (message : string)                            (* line 102 *)
| ProcessError (e : error)                              (* line 104 *)
| SignalPending (action symbol volume price : Json.pyval) (* line 124 *)
| RunFailed (e : error)                                 (* line 134 *)
| ConnectionShut.                                       (* line 144 *)

(** The [ExecutionEngine] object with what it acts on: [websocket] is
    whether [self.websocket] holds a connection, [sent] the frames sent to
    the server, [log] the logger's records, [output] what [print] and the
    root logger were given. *)
Record ExecutionEngine := mkClient {
  server_url : string;
  websocket : bool;
  running : bool;
  signal_handler : option handler;
  sent : list string;
  log : list (level * logmsg);
  output : list emitted
}.

Definition set_websocket (x : bool) (self : ExecutionEngine) : ExecutionEngine :=
  mkClient (server_url self) x (running self) (signal_handler self) (sent self) (log self)
           (output self).
Definition set_running (x : bool) (self : ExecutionEngine) : ExecutionEngine :=
  mkClient (server_url self) (websocket self) x (signal_handler self) (sent self) (log self)
           (output self).
Definition logger (l : level) (m : logmsg) (self : ExecutionEngine) : ExecutionEngine :=
  mkClient (server_url self) (websocket self) (running self) (signal_handler self) (sent self)
           (log self ++ [(l, m)]) (output self).
Definition emit (es : list emitted) (self : ExecutionEngine) : ExecutionEngine :=
  mkClient (server_url self) (websocket self) (running self) (signal_handler self) (sent self)
           (log self) (output self ++ es).
Definition print (x : line) (self : ExecutionEngine) : ExecutionEngine := emit [Print x] self.
Definition send (message : string) (self : ExecutionEngine) : ExecutionEngine :=
  mkClient (server_url self) (websocket self) (running self) (signal_handler self)
           (sent self ++ [message]) (log self) (output self).

(** [ExecutionEngine.__init__], lines 21 to 30. *)
Definition init (server_url : string) : ExecutionEngine :=
  mkClient server_url false false None [] [(INFO, Initialized server_url)] [].

(** Lines 32 to 38. *)
Definition set_signal_handler (h : handler) (self : ExecutionEngine) : ExecutionEngine :=
  logger INFO HandlerSet
    (mkClient (server_url self) (websocket self) (running self) (Some h) (sent self) (log self)
              (output self)).

(** ** [json.loads] as [_process_message] meets it *)

(** The characters a JSON document can start with, after white space. *)
Definition starts_value (c : ascii) : bool :=
  Ascii.eqb c Json.dquote ||
  existsb (Ascii.eqb c) (list_ascii_of_string "{[-0123456789tfnNI").

(** A text that [json.loads] refuses whatever follows: nothing but white
    space, or a first character no value starts with. *)
Definition no_json_value (message : string) : bool :=
  match Json.skip_ws message with
  | EmptyString => true
  | String c _ => negb (starts_value c)
  end.

(** [json.loads(message)]: the object decoded, [JSONDecodeError], or a
    document that [Json.loads] does not cover (an array, a nested object,
    a number with an exponent, or a text it cannot tell from these). *)
Inductive decoded :=
| Object (signal_data : Json.pydict)
| Malformed
| Unmodelled.

Definition json_loads (message : string) : decoded :=
  match Json.loads message with
  | Some signal_data => Object signal_data
  | None => if no_json_value message then Malformed else Unmodelled
  end.

(** ** The handlers *)

(** [signal_data.get(key, default)].  The keys of a [dict] are distinct, so
    the first pair with the key is the only one. *)
Definition dict_get (key : string) (default : Json.pyval) (signal_data : Json.pydict)
  : Json.pyval :=
  match find (fun kv => String.eqb (fst kv) key) signal_data with
  | Some kv => snd kv
  | None => default
  end.

(** Lines 106 to 124. *)
Definition _default_signal_handler (signal_data : Json.pydict) (self : ExecutionEngine)
  : ExecutionEngine :=
  let action := dict_get "action" (Json.PyStr "UNKNOWN") signal_data in
  let symbol := dict_get "symbol" (Json.PyStr "UNKNOWN") signal_data in
  let price := dict_get "price" (Json.PyInt 0) signal_data in
  let volume := dict_get "volume" (Json.PyInt 0) signal_data in
  logger INFO (SignalPending action symbol volume price)
    (print Rule
      (print (Field Volume (Value volume))
        (print (Field Price (Value price))
          (print (Field Symbol (Value symbol))
            (print (Field Action (Value action))
              (print ReceivedBanner self)))))).

(** Lines 101 to 104: what the [except] clauses make of how the [try] body
    ended. *)
Definition settle (message : string) (r : outcome) (self : ExecutionEngine) : ExecutionEngine :=
  match r with
  | Returned => self
  | Raised JSONDecodeError => logger ERROR (NotJson message) self
  | Raised e => logger ERROR (ProcessError e) self
  end.

(** Lines 83 to 104.  [None]: the frame is a document outside the model. *)
Definition _process_message (message : string) (self : ExecutionEngine)
  : option ExecutionEngine :=
  match json_loads message with
  | Unmodelled => None
  | Malformed => Some (settle message (Raised JSONDecodeError) self)
  | Object signal_data =>
      let self1 := logger INFO (SignalReceived signal_data) self in
      match signal_handler self1 with
      | Some h =>
          let (written, r) := h signal_data in
          Some (settle message r (emit written self1))
      | None =>
          Some (_default_signal_handler signal_data (logger WARNING NoHandler self1))
      end
  end.

(** ** [listen], [connect], [run], [close] *)

(** How the iteration over the connection ends: the server closed it
    properly, and the [async for] is over, or [ConnectionClosed] is
    raised in it. *)
Inductive closing := ClosedOK | ClosedError.

(** The body of the [async for], line 74, over the frames received. *)
Fixpoint process_all (messages : list string) (self : ExecutionEngine)
  : option ExecutionEngine :=
  match messages with
  | [] => Some self
  | message :: messages' =>
      match _process_message message self with
      | Some self' => process_all messages' self'
      | None => None
      end
  end.

(** Lines 63 to 81. *)
Definition listen (messages : list string) (how : closing) (self : ExecutionEngine)
  : option ExecutionEngine :=
  if negb (websocket self) then Some (logger ERROR NotConnected self)
  else
    match process_all messages (logger INFO Listening self) with
    | Some self1 =>
        Some (set_running false
                match how with
                | ClosedError => logger WARNING ServerClosed self1
                | ClosedOK => self1
                end)
    | None => None
    end.

(** How [connect] goes: the connection is refused, it is made and lost
    before the identification is sent, or it is made. *)
Inductive connecting := Refused | Dropped | Established.

(** Lines 51 to 55. *)
Definition client_info : Json.pydict :=
  [("client_id", Json.PyStr "test_client_001");
   ("client_type", Json.PyStr "veighna_trader");
   ("version", Json.PyStr "1.0.0")].

(** Lines 40 to 61. *)
Definition connect (how : connecting) (self : ExecutionEngine) : outcome * ExecutionEngine :=
  let self1 := logger INFO Connecting self in
  match how with
  | Refused =>
      (Raised ConnectionRefusedError,
       set_running false (logger ERROR (ConnectFailed ConnectionRefusedError) self1))
  | Dropped =>
      let self2 := logger INFO Connected (set_running true (set_websocket true self1)) in
      (Raised ConnectionClosedError,
       set_running false (logger ERROR (ConnectFailed ConnectionClosedError) self2))
  | Established =>
      let self2 := logger INFO Connected (set_running true (set_websocket true self1)) in
      (Returned, send (Json.dumps client_info) self2)
  end.

(** Lines 138 to 145. *)
Definition close (self : ExecutionEngine) : ExecutionEngine :=
  set_running false (if websocket self then logger INFO ConnectionShut self else self).

(** Lines 126 to 136. *)
Definition run (how : connecting) (messages : list string) (ending : closing)
    (self : ExecutionEngine) : option ExecutionEngine :=
  match connect how self with
  | (Returned, self1) =>
      match listen messages ending self1 with
      | Some self2 => Some (close self2)
      | None => None
      end
  | (Raised e, self1) => Some (close (logger ERROR (RunFailed e) self1))
  end.

End execution_engine.

(* ===================================================================== *)
(** * [client/run.py]: the handler of the trading client                   *)
(* ===================================================================== *)

Module client_run.
Import execution_engine.

#[local] Open Scope string_scope.

(** [str.upper] on one code point below 256, as code points: the ASCII and
    Latin-1 small letters move down by 32, except the micro sign (to Greek
    capital mu), the sharp s (to two capital S) and y with diaeresis (to its
    capital at 376); the division sign and everything else stay. *)
Definition upper_char (c : ascii) : list N :=
  let n := N_of_ascii c in
  if (97 <=? n)%N && (n <=? 122)%N then [(n - 32)%N]
  else if (n =? 181)%N then [924%N]
  else if (n =? 223)%N then [83%N; 83%N]
  else if (n =? 255)%N then [376%N]
  else if (224 <=? n)%N && (n <=? 254)%N && negb (n =? 247)%N then [(n - 32)%N]
  else [n].

Definition str_upper (s : string) : list N :=
  flat_map upper_char (list_ascii_of_string s).

(** Lines 46 to 77.  [.upper()] is called on whatever [get] returns: a
    value that is not a [str] has no such method. *)
Definition handle_signal : handler := fun signal_data =>
  match dict_get "action" (Json.PyStr "") signal_data with
  | Json.PyStr s =>
      let action := str_upper s in
      let symbol := dict_get "symbol" (Json.PyStr "") signal_data in
      let price := dict_get "price" (Json.PyInt 0) signal_data in
      let volume := dict_get "volume" (Json.PyInt 0) signal_data in
      let strategy_id := dict_get "strategy_id" (Json.PyStr "unknown") signal_data in
      let signal_id := dict_get "signal_id" (Json.PyStr "unknown") signal_data in
      ([RootLog INFO (Processing signal_data);
        Print ExecuteBanner;
        Print (Field Strategy (Value strategy_id));
        Print (Field SignalId (Value signal_id));
        Print (Field Action (Text action));
        Print (Field Symbol (Value symbol));
        Print (Field Price (Value price));
        Print (Field Volume (Value volume));
        Print Rule;
        RootLog INFO (PendingExecution action symbol volume price)],
       Returned)
  | _ => ([RootLog INFO (Processing signal_data)], Raised AttributeError)
  end.

(** Lines 38 to 93: the closure does not use [main_engine]. *)
Definition create_signal_handler {A : Type} (main_engine : A) : handler := handle_signal.

(** Lines 121 to 125 of [main]: the engine with the handler set. *)
Definition trader : ExecutionEngine :=
  set_signal_handler (create_signal_handler tt) (init "ws://localhost:8765").

End client_run.

(* ===================================================================== *)
(** * Scenarios and vocabulary of the statements                           *)
(* ===================================================================== *)

Import websocket_server.

(** The signal of the console's [test_signal] command. *)
Definition test_signal : Json.pydict := run_server.test_signal.

(** The server after [start_server], nobody connected. *)
Definition listening : WebSocketServer := snd (start_server true websocket_server.init).

(** Three clients have connected. *)
Definition three_clients : WebSocketServer :=
  websocket_server.run_events [Accept 1; Accept 2; Accept 3]%positive listening.

(** The transport of client 2 has closed; its handler has not run yet. *)
Definition one_lost : WebSocketServer :=
  websocket_server.loop_event (Lost 2%positive) three_clients.

(** The engine started, its thread serving, one client connected. *)
Definition serving : main_engine.ServerEngine :=
  main_engine.loop_event (Accept 1%positive)
    (main_engine.run_async_in_thread true (main_engine.start main_engine.init)).

(** The same with the write buffer of that client full. *)
Definition congested : main_engine.ServerEngine :=
  main_engine.loop_event (Congest 1%positive) serving.

Definition is_open (w : WebSocketServer) (c : conn) : bool :=
  match links w !! c with Some Open => true | _ => false end.
Definition is_congested (w : WebSocketServer) (c : conn) : bool :=
  match links w !! c with Some Congested => true | _ => false end.
Definition is_closed (w : WebSocketServer) (c : conn) : bool :=
  match links w !! c with Some Closed | None => true | _ => false end.

(** The frames of one message for the connections [cs], in order. *)
Definition frames_to (message : string) (cs : list conn) : list (conn * string) :=
  (fun c => (c, message)) <$> cs.

(** The state after the send tasks [tasks] have had their turn. *)
Definition after_sends (message : string) (tasks : list conn) (w : WebSocketServer)
  : WebSocketServer :=
  set_frames (frames w ++ frames_to message (filter (fun c => is_open w c) tasks)) w.

(** The events that run a handler's registration or removal. *)
Definition registry_event (e : event) : bool :=
  match e with
  | Accept _ | HandlerExit _ _ => true
  | _ => false
  end.

Definition is_tick (e : event) : bool :=
  match e with Tick => true | _ => false end.

Definition same_registry (w w' : WebSocketServer) : Prop :=
  connected_clients w' = connected_clients w /\ links w' = links w.

Definition same_tasks (w w' : WebSocketServer) : Prop :=
  coros w' = coros w /\ frames w' = frames w.

Definition same_results (w w' : WebSocketServer) : Prop :=
  coros w' = coros w /\ results w' = results w.

Definition coro_fut (c : coro) : option nat :=
  match c with
  | Broadcast fut _ | Gather fut _ _ => Some fut
  | Detached _ _ => None
  end.

(** The coroutine behind [fut] is still on the loop. *)
Definition scheduled (fut : nat) (cs : list coro) : Prop :=
  exists c, c ∈ cs /\ coro_fut c = Some fut.

Definition alive (fut : nat) (w : WebSocketServer) : Prop :=
  scheduled fut (coros w) \/ is_Some (results w !! fut).

(** A coroutine past its first turn. *)
Definition started (c : coro) : Prop :=
  match c with Broadcast _ _ => False | _ => True end.

Definition no_congestion (w : WebSocketServer) : Prop :=
  forall c, is_congested w c = false.

(** A way for the loop to go on: a turn, every write buffer drains, a turn. *)
Definition drain_all (w : WebSocketServer) : list event :=
  Tick :: (Drain <$> elements (dom (links w))) ++ [Tick].

(** The registry holds exactly the connections that have a handler. *)
Definition registry_tracks_handlers (w : WebSocketServer) : Prop :=
  dom (links w) = connected_clients w.

(** A coroutine that only sends [message], and only to members of [snapshot]. *)
Definition addressed_to (snapshot : gset conn) (message : string) (c : coro) : Prop :=
  match c with
  | Gather _ m tasks | Detached m tasks => m = message /\ forall x, x ∈ tasks -> x ∈ snapshot
  | Broadcast _ _ => False
  end.

(** A frame that was there before ([old]), or [message] for a member of
    [snapshot]. *)
Definition old_or_snapshot (snapshot : gset conn) (message : string)
    (old : list (conn * string)) (f : conn * string) : Prop :=
  f ∈ old \/ (fst f ∈ snapshot /\ snd f = message).

Definition frozen (snapshot : gset conn) (message : string)
    (old : list (conn * string)) (w : WebSocketServer) : Prop :=
  Forall (addressed_to snapshot message) (coros w) /\
  forall f, f ∈ frames w -> old_or_snapshot snapshot message old f.

(** ** Vocabulary for the frames and the client *)

(** Every character of [s] is printable ASCII. *)
Fixpoint all_printable (s : string) : bool :=
  match s with
  | EmptyString => true
  | String c r => Json.printable c && all_printable r
  end.

(** A frame on its way to a client: the encoding of a signal, or a text that
    is no JSON value. *)
Inductive item :=
| Signal (signal_data : Json.pydict)
| Junk (text : string).

Definition item_ok (i : item) : bool :=
  match i with
  | Signal signal_data => Json.signal_ok signal_data
  | Junk text => execution_engine.no_json_value text
  end.

Definition wire (i : item) : string :=
  match i with
  | Signal signal_data => Json.dumps signal_data
  | Junk text => text
  end.

Fixpoint signals (items : list item) : list Json.pydict :=
  match items with
  | [] => []
  | Signal signal_data :: items' => signal_data :: signals items'
  | Junk _ :: items' => signals items'
  end.

Fixpoint junk (items : list item) : list string :=
  match items with
  | [] => []
  | Signal _ :: items' => junk items'
  | Junk text :: items' => text :: junk items'
  end.

(** The signals the client logged as received (line 91), oldest first. *)
Fixpoint received (l : list (level * execution_engine.logmsg)) : list Json.pydict :=
  match l with
  | [] => []
  | (_, execution_engine.SignalReceived signal_data) :: l' => signal_data :: received l'
  | _ :: l' => received l'
  end.

(** The frames the client logged as not being JSON (line 102). *)
Fixpoint rejected (l : list (level * execution_engine.logmsg)) : list string :=
  match l with
  | [] => []
  | (_, execution_engine.NotJson message) :: l' => message :: rejected l'
  | _ :: l' => rejected l'
  end.

(** The lines among what a handler wrote. *)
Fixpoint printed_lines (es : list execution_engine.emitted) : list execution_engine.line :=
  match es with
  | [] => []
  | execution_engine.Print l :: es' => l :: printed_lines es'
  | _ :: es' => printed_lines es'
  end.

(** Three clients, the write buffer of client 2 full. *)
Definition one_slow : WebSocketServer :=
  websocket_server.loop_event (Congest 2%positive) three_clients.

(** Three clients, the transport of client 2 closed and the write buffer of
    client 3 full. *)
Definition lost_and_slow : WebSocketServer :=
  websocket_server.loop_event (Congest 3%positive) one_lost.

(** The engine started, [websockets.serve] having failed in its thread. *)
Definition failed_startup : main_engine.ServerEngine :=
  main_engine.run_async_in_thread false (main_engine.start main_engine.init).

(** The lines that end the console: [exit], [quit], and the end of input. *)
Definition ends_console (command : option string) : bool :=
  match command with
  | None => true
  | Some command => String.eqb command "exit" || String.eqb command "quit"
  end.

Definition is_test_signal (command : option string) : bool :=
  match command with
  | None => false
  | Some command => String.eqb command "test_signal"
  end.

(** The future the next [submit] returns has no result yet. *)
Definition next_fut_fresh (w : WebSocketServer) : Prop := results w !! next_fut w = None.

(** A client whose connection was accepted and lost, its handler gone. *)
Definition visit (c : conn) (between : list event) (error : bool) : list event :=
  Accept c :: between ++ [Lost c; HandlerExit c error].

(* ===================================================================== *)
(** * Facts on [json]: decoding undoes encoding                            *)
(* ===================================================================== *)

Module JsonFacts.
Import Json.
#[local] Open Scope string_scope.

Lemma string_app_cons c (a b : string) : String c a ++ b = String c (a ++ b).
Proof. reflexivity. Qed.

Lemma string_app_nil (b : string) : EmptyString ++ b = b.
Proof. reflexivity. Qed.

Lemma string_app_assoc (a b c : string) : (a ++ b) ++ c = a ++ (b ++ c).
Proof.
  induction a as [|x a IH]; [reflexivity|].
  now rewrite !string_app_cons, IH.
Qed.

Lemma scanstring_escape_char c t :
  scanstring (escape_char c ++ t) = cons_char c (scanstring t).
Proof.
  destruct c as [[] [] [] [] [] [] [] []]; reflexivity.
Qed.

Lemma scanstring_escape s rest :
  scanstring (escape s ++ String dquote rest) = Some (s, rest).
Proof.
  induction s as [|c s IH]; [reflexivity|].
  cbn [escape]. rewrite string_app_assoc, scanstring_escape_char, IH. reflexivity.
Qed.

Lemma scan_digits_nondigit s : starts_nondigit s -> scan_digits s = (Nil, s).
Proof. destruct s as [|c r]; cbn; [reflexivity | now intros ->]. Qed.

Lemma scan_digits_print u rest :
  starts_nondigit rest ->
  scan_digits (NilEmpty.string_of_uint u ++ rest) = (u, rest).
Proof.
  intros Hr. induction u; cbn [NilEmpty.string_of_uint];
    rewrite ?string_app_cons, ?string_app_nil; cbn [scan_digits digit_of_char];
    rewrite ?IHu; try reflexivity.
  now apply scan_digits_nondigit.
Qed.

Lemma unorm_fix_head u' : unorm (D0 u') = D0 u' -> u' = Nil.
Proof.
  intros Hn. unfold unorm in Hn. cbn [nzhead] in Hn.
  destruct (nzhead u') eqn:E; try (exfalso; discriminate Hn).
  - now injection Hn.
  - exfalso. rewrite <- E in Hn. now apply nzhead_nonzero in Hn.
Qed.

Lemma scan_int_print u rest :
  unorm u = u -> starts_nondigit rest ->
  scan_int (NilEmpty.string_of_uint u ++ rest) = Some (u, rest).
Proof.
  intros Hn Hr.
  destruct u eqn:E;
    [ exfalso; now apply (unorm_nonnil Nil)
    | rewrite (unorm_fix_head _ Hn); reflexivity
    | rewrite <- E; unfold scan_int; rewrite (scan_digits_print u rest Hr);
      rewrite E; reflexivity .. ].
Qed.

Lemma starts_delim_nondigit s : starts_delim s -> starts_nondigit s.
Proof. destruct s as [|c r]; [easy|]. now intros [-> | ->]. Qed.

Lemma starts_delim_scan_frac s : starts_delim s -> scan_frac s = None.
Proof. destruct s as [|c r]; [easy|]. now intros [-> | ->]. Qed.

Lemma starts_delim_has_exponent s : starts_delim s -> has_exponent s = false.
Proof. destruct s as [|c r]; [easy|]. now intros [-> | ->]. Qed.

Lemma starts_delim_skip_ws s : starts_delim s -> skip_ws s = s.
Proof. destruct s as [|c r]; [easy|]. now intros [-> | ->]. Qed.

Lemma to_uint_unorm p : unorm (Pos.to_uint p) = Pos.to_uint p.
Proof.
  rewrite <- (DecimalPos.Unsigned.to_of (Pos.to_uint p)).
  now rewrite DecimalPos.Unsigned.of_to.
Qed.

Lemma scan_number_int z rest :
  starts_delim rest ->
  scan_number (NilZero.string_of_int (Z.to_int z) ++ rest) = Some (PyInt z, rest).
Proof.
  intros Hd. pose proof (starts_delim_nondigit _ Hd) as Hnd.
  destruct z as [|p|p].
  - cbn. destruct rest as [|c r]; [easy|].
    destruct Hd as [-> | ->]; reflexivity.
  - unfold scan_number.
    assert (Hs : NilZero.string_of_int (Z.to_int (Z.pos p)) = NilEmpty.string_of_uint (Pos.to_uint p)).
    { cbn. pose proof (DecimalPos.Unsigned.to_uint_nonnil p). now destruct (Pos.to_uint p). }
    rewrite Hs.
    assert (Hm : forall t, match NilEmpty.string_of_uint (Pos.to_uint p) ++ t with
                 | String "-" r => (true, r) | _ => (false, NilEmpty.string_of_uint (Pos.to_uint p) ++ t) end
                 = (false, NilEmpty.string_of_uint (Pos.to_uint p) ++ t)).
    { intros t. pose proof (DecimalPos.Unsigned.to_uint_nonnil p).
      now destruct (Pos.to_uint p). }
    rewrite Hm, (scan_int_print _ _ (to_uint_unorm p) Hnd).
    rewrite starts_delim_scan_frac, starts_delim_has_exponent by assumption.
    do 3 f_equal. change (Z.of_int (Z.to_int (Z.pos p)) = Z.pos p). apply DecimalZ.of_to.
  - unfold scan_number.
    assert (Hs : NilZero.string_of_int (Z.to_int (Z.neg p)) = String "-" (NilEmpty.string_of_uint (Pos.to_uint p))).
    { cbn. pose proof (DecimalPos.Unsigned.to_uint_nonnil p). now destruct (Pos.to_uint p). }
    rewrite Hs, string_app_cons.
    rewrite (scan_int_print _ _ (to_uint_unorm p) Hnd).
    rewrite starts_delim_scan_frac, starts_delim_has_exponent by assumption.
    do 3 f_equal. change (Z.of_int (Z.to_int (Z.neg p)) = Z.neg p). apply DecimalZ.of_to.
Qed.

Lemma scan_once_numeric s : starts_numeric s -> scan_once s = scan_number s.
Proof.
  destruct s as [|c r]; [easy|].
  destruct c as [[] [] [] [] [] [] [] []]; cbn [starts_numeric];
    first [ reflexivity | intros [H|H]; [discriminate H | now elim H] ].
Qed.

Lemma string_of_uint_numeric u t :
  u <> Nil -> starts_numeric (NilEmpty.string_of_uint u ++ t).
Proof. destruct u; [easy | intros _; right; discriminate ..]. Qed.

Lemma string_of_uint_not_minus u t :
  u <> Nil ->
  match NilEmpty.string_of_uint u ++ t with
  | String "-" r => (true, r)
  | _ => (false, NilEmpty.string_of_uint u ++ t)
  end = (false, NilEmpty.string_of_uint u ++ t).
Proof. now destruct u. Qed.

Lemma unorm_fix_nonnil u : unorm u = u -> u <> Nil.
Proof. intros H ->. now apply (unorm_nonnil Nil). Qed.

Lemma float_ok_spec i f :
  float_ok i f = true ->
  let u := match i with Pos u | Neg u => u end in unorm u = u /\ f <> Nil.
Proof.
  unfold float_ok. intros H. apply andb_prop in H as [H1 H2].
  split; [now apply internal_uint_dec_bl | now destruct f].
Qed.

Lemma scan_number_float i f rest :
  float_ok i f = true -> starts_delim rest ->
  scan_number (float_repr i f ++ rest) = Some (PyFloat i f, rest).
Proof.
  intros Hok Hd. apply float_ok_spec in Hok as [Hu Hf].
  pose proof (starts_delim_nondigit _ Hd) as Hnd.
  unfold float_repr, scan_number. rewrite !string_app_assoc.
  change ("." ++ ?x) with (String "."%char x).
  assert (Hsf : scan_frac (String "." (NilEmpty.string_of_uint f ++ rest)) = Some (f, rest)).
  { unfold scan_frac. rewrite (scan_digits_print _ _ Hnd). now destruct f. }
  destruct i as [u|u]; cbn [NilEmpty.string_of_int].
  - rewrite string_of_uint_not_minus by now apply unorm_fix_nonnil.
    rewrite (scan_int_print _ _ Hu) by reflexivity.
    rewrite Hsf, starts_delim_has_exponent by assumption. reflexivity.
  - rewrite string_app_cons.
    rewrite (scan_int_print _ _ Hu) by reflexivity.
    rewrite Hsf, starts_delim_has_exponent by assumption. reflexivity.
Qed.

Lemma string_of_Z_numeric z t :
  starts_numeric (NilZero.string_of_int (Z.to_int z) ++ t).
Proof.
  destruct z as [|p|p]; cbn.
  - right; discriminate.
  - pose proof (DecimalPos.Unsigned.to_uint_nonnil p).
    destruct (Pos.to_uint p); [easy | right; discriminate ..].
  - now left.
Qed.

Lemma float_repr_numeric i f t :
  float_ok i f = true -> starts_numeric (float_repr i f ++ t).
Proof.
  intros Hok. apply float_ok_spec in Hok as [Hu _].
  unfold float_repr. rewrite string_app_assoc.
  destruct i as [u|u]; cbn [NilEmpty.string_of_int].
  - apply string_of_uint_numeric. now apply unorm_fix_nonnil.
  - now left.
Qed.

Lemma scan_once_dumps_value v rest :
  value_ok v = true -> starts_delim rest ->
  scan_once (dumps_value v ++ rest) = Some (v, rest).
Proof.
  intros Hok Hd. destruct v as [|[]|z|i f|s]; cbn [dumps_value value_ok] in *.
  - reflexivity.
  - reflexivity.
  - reflexivity.
  - rewrite scan_once_numeric by apply string_of_Z_numeric.
    now apply scan_number_int.
  - rewrite scan_once_numeric by now apply float_repr_numeric.
    now apply scan_number_float.
  - unfold encode_basestring_ascii. rewrite string_app_cons, string_app_assoc.
    unfold scan_once. rewrite Ascii.eqb_refl.
    rewrite string_app_cons, scanstring_escape. reflexivity.
Qed.

Lemma dumps_items_body k v d rest :
  dumps_items ((k, v) :: d) ++ String "}" rest = String dquote (items_body k v d rest).
Proof.
  revert k v. induction d as [|[k' v'] d IH]; intros k v.
  - cbn [dumps_items items_body]. unfold dumps_item, encode_basestring_ascii. cbn [fst snd].
    now rewrite !string_app_cons, !string_app_assoc.
  - cbn [items_body]. rewrite <- IH. 
    change (dumps_items ((k, v) :: (k', v') :: d))
      with (dumps_item (k, v) ++ ", " ++ dumps_items ((k', v') :: d)).
    unfold dumps_item at 1. unfold encode_basestring_ascii at 1. cbn [fst snd].
    now rewrite !string_app_cons, !string_app_assoc.
Qed.

Lemma skip_ws_nonws s : starts_nonws s -> skip_ws s = s.
Proof. destruct s as [|c r]; [easy|]. cbn. now intros ->. Qed.

Lemma starts_numeric_nonws s : starts_numeric s -> starts_nonws s.
Proof.
  destruct s as [|c r]; [easy|].
  destruct c as [[] [] [] [] [] [] [] []]; cbn;
    first [ reflexivity | intros [H|H]; [discriminate H | now elim H] ].
Qed.

Lemma dumps_value_nonws v t : value_ok v = true -> starts_nonws (dumps_value v ++ t).
Proof.
  intros Hok. destruct v as [|[]|z|i f|s]; cbn [dumps_value value_ok] in *; try reflexivity.
  - apply starts_numeric_nonws, string_of_Z_numeric.
  - now apply starts_numeric_nonws, float_repr_numeric.
Qed.

Lemma skip_ws_space s : skip_ws (String " " s) = skip_ws s.
Proof. reflexivity. Qed.

Lemma JSONObject_pairs_body fuel k v d rest :
  length d < fuel -> forallb value_ok (map snd ((k, v) :: d)) = true ->
  JSONObject_pairs fuel (items_body k v d rest) = Some ((k, v) :: d, rest).
Proof.
  revert k v d. induction fuel as [|fuel IH]; intros k v d Hlen Hok; [lia|].
  cbn [map snd forallb] in Hok. apply andb_prop in Hok as [Hv Hd].
  destruct d as [|[k' v'] d]; cbn [items_body JSONObject_pairs];
    rewrite scanstring_escape;
    rewrite (skip_ws_nonws (String ":" _)) by reflexivity; cbv beta iota;
    rewrite skip_ws_space, skip_ws_nonws by (now apply dumps_value_nonws).
  - rewrite scan_once_dumps_value; [reflexivity | assumption | now right].
  - rewrite scan_once_dumps_value; [| assumption | now left].
    rewrite (skip_ws_nonws (String "," _)) by reflexivity; cbv beta iota.
    rewrite skip_ws_space, (skip_ws_nonws (String dquote _)) by reflexivity.
    cbv beta iota. rewrite Ascii.eqb_refl.
    rewrite IH; [reflexivity | cbn [length] in Hlen; lia | assumption].
Qed.

Lemma string_length_app (a b : string) :
  String.length (a ++ b) = String.length a + String.length b.
Proof.
  induction a as [|c a IH]; [reflexivity|].
  rewrite string_app_cons. cbn [String.length]. now rewrite IH.
Qed.

Lemma items_body_length k v d rest :
  length d < String.length (items_body k v d rest).
Proof.
  revert k v. induction d as [|[k' v'] d IH]; intros k v; cbn [items_body];
    rewrite string_length_app; cbn [String.length length].
  - lia.
  - rewrite string_length_app. cbn [String.length]. specialize (IH k' v'). lia.
Qed.

Lemma dict_setitem_fresh k v (acc : pydict) :
  k ∉ map fst acc -> dict_setitem k v acc = (acc ++ [(k, v)])%list.
Proof.
  induction acc as [|[k' v'] acc IH]; cbn [dict_setitem map fst]; intros Hk; [reflexivity|].
  apply not_elem_of_cons in Hk as [Hne Hk].
  destruct (String.eqb_spec k k'); [contradiction|].
  now rewrite IH.
Qed.

Lemma dict_of_pairs_from (l acc : pydict) :
  NoDup (map fst (acc ++ l)%list) ->
  fold_left (fun d kv => dict_setitem (fst kv) (snd kv) d) l acc = (acc ++ l)%list.
Proof.
  revert acc. induction l as [|[k v] l IH]; intros acc Hnd; cbn [fold_left fst snd].
  - now rewrite app_nil_r.
  - rewrite dict_setitem_fresh.
    + rewrite IH; rewrite <- app_assoc; [reflexivity | exact Hnd].
    + rewrite map_app in Hnd. apply NoDup_app in Hnd as (_ & Hdisj & _).
      intros Hin. apply (Hdisj k Hin). cbn. apply elem_of_cons. now left.
Qed.

Lemma dict_of_pairs_nodup (d : pydict) :
  NoDup (map fst d) -> dict_of_pairs d = d.
Proof. intros Hnd. unfold dict_of_pairs. now rewrite dict_of_pairs_from. Qed.

Lemma signal_ok_spec (d : pydict) :
  signal_ok d = true -> NoDup (map fst d) /\ forallb value_ok (map snd d) = true.
Proof.
  unfold signal_ok. intros H. apply andb_prop in H as [H1 H2].
  split; [now apply bool_decide_eq_true in H1 | exact H2].
Qed.

(** Decoding an encoded signal gives the signal back. *)
Lemma loads_dumps (d : pydict) : signal_ok d = true -> loads (dumps d) = Some d.
Proof.
  intros Hok. apply signal_ok_spec in Hok as [Hnd Hok]. unfold dumps.
  change ("{" ++ dumps_items d ++ "}") with (String "{"%char (dumps_items d ++ String "}" "")).
  unfold loads. rewrite (skip_ws_nonws (String "{" _)) by reflexivity. cbv beta iota.
  destruct d as [|[k v] d].
  - reflexivity.
  - rewrite dumps_items_body. unfold JSONObject.
    rewrite (skip_ws_nonws (String dquote _)) by reflexivity. cbv beta iota.
    rewrite Ascii.eqb_refl.
    rewrite JSONObject_pairs_body; [| apply items_body_length | assumption].
    now rewrite dict_of_pairs_nodup.
Qed.

(** The decoder on texts the encoder does not produce. *)
Example loads_blank_object : loads " { } " = Some [].
Proof. reflexivity. Qed.

(** A key given twice keeps the last value, as [dict] does. *)
Example loads_repeated_key :
  loads ("{" ++ encode_basestring_ascii "a" ++ " : 1 , "
             ++ encode_basestring_ascii "a" ++ ": -2}")
    = Some [("a", PyInt (-2))].
Proof. reflexivity. Qed.

(** A number with a superfluous zero, or with a dot and no digit, is refused. *)
Example loads_leading_zero :
  loads ("{" ++ encode_basestring_ascii "a" ++ ": 01}") = None /\
  loads ("{" ++ encode_basestring_ascii "a" ++ ": 1.}") = None.
Proof. split; reflexivity. Qed.

(** Escapes the encoder never writes are read all the same. *)
Example loads_escapes :
  loads ("{" ++ encode_basestring_ascii "a" ++ ": "
             ++ String dquote (String backslash ("u00C8" ++ String backslash ("/" ++ String dquote "}"))))
    = Some [("a", PyStr (String "200" "/"))].
Proof. reflexivity. Qed.

(** What the encoder writes for characters that need an escape. *)
Example dumps_escapes :
  dumps [("k", PyStr (String "010" (String "200" (String dquote "x"))))]
    = "{" ++ encode_basestring_ascii "k" ++ ": "
          ++ String dquote (String backslash ("n" ++ String backslash ("u00c8"
               ++ String backslash (String dquote ("x" ++ String dquote "}"))))).
Proof. reflexivity. Qed.

Example loads_dumps_test_signal :
  loads (dumps run_server.test_signal) = Some run_server.test_signal.
Proof. vm_compute. reflexivity. Qed.

End JsonFacts.

(* ===================================================================== *)
(** * Facts on the loop: what a turn of the tasks does                     *)
(* ===================================================================== *)

(** Unfolds the statements of a handler down to the state they build. *)
Ltac run_handler :=
  unfold quiet, handler_enter, handler_message, handler_exit, mbind, M_bind, mret, M_ret,
    register, unregister, logger, get_clients.

Lemma set_frames_id w : set_frames (frames w) w = w.
Proof. now destruct w. Qed.

(** The send tasks split the recipients by the state of their transport. *)
Lemma run_sends_spec message tasks w :
  run_sends message tasks w =
    (filter (fun c => is_congested w c) tasks,
     map ConnectionClosed (filter (fun c => is_closed w c) tasks),
     after_sends message tasks w).
Proof.
  unfold after_sends. revert w. induction tasks as [|c tasks IH]; intros w.
  - cbn. now rewrite app_nil_r, set_frames_id.
  - cbn [run_sends]. unfold send.
    rewrite !filter_cons. unfold is_open, is_congested, is_closed.
    destruct (links w !! c) as [[]|] eqn:E; rewrite IH; cbn -[filter];
      rewrite ?E; cbn -[filter]; try reflexivity.
    unfold set_frames; cbn -[filter]. now rewrite <- app_assoc.
Qed.

Lemma tick_cons c cs w :
  coros w = c :: cs ->
  tick w = set_coros (fst (run_coro c w) ++ fst (run_coros cs (snd (run_coro c w))))
             (snd (run_coros cs (snd (run_coro c w)))).
Proof.
  intros H. unfold tick. rewrite H. cbn [run_coros].
  destruct (run_coro c w) as [kept w1]. cbn [fst snd].
  now destruct (run_coros cs w1) as [kept' w2].
Qed.

Lemma tick_nil w : coros w = [] -> tick w = w.
Proof. intros H. unfold tick. rewrite H. cbn. destruct w; cbn in *; now subst. Qed.

Lemma run_coro_gather fut message tasks w :
  run_coro (Gather fut message tasks) w =
    broadcast_signal_resume fut message
      (filter (fun c => is_congested w c) tasks)
      (map ConnectionClosed (filter (fun c => is_closed w c) tasks))
      (after_sends message tasks w).
Proof. cbn [run_coro]. now rewrite run_sends_spec. Qed.

(** A turn of the tasks leaves the registry and the transports alone. *)
Lemma run_coro_registry c w : same_registry w (snd (run_coro c w)).
Proof.
  destruct c as [fut signal_data|fut message tasks|message tasks].
  - cbn [run_coro]. unfold broadcast_signal_start. now case_bool_decide.
  - rewrite run_coro_gather. unfold broadcast_signal_resume.
    destruct (map ConnectionClosed _); destruct (filter _ tasks); now split.
  - cbn [run_coro]. rewrite run_sends_spec. now split.
Qed.

Lemma run_coros_registry cs w : same_registry w (snd (run_coros cs w)).
Proof.
  revert w. induction cs as [|c cs IH]; intros w; [now split|].
  cbn [run_coros]. destruct (run_coro_registry c w) as [H1 H2].
  destruct (run_coro c w) as [kept w1]. cbn [snd] in H1, H2.
  destruct (IH w1) as [H3 H4]. destruct (run_coros cs w1) as [kept' w2].
  cbn [snd] in *. split; congruence.
Qed.

Lemma tick_registry w : same_registry w (tick w).
Proof.
  unfold tick. pose proof (run_coros_registry (coros w) w) as H.
  destruct (run_coros (coros w) w) as [kept w1]. exact H.
Qed.

Lemma broadcast_signal_resume_frames fut message pending errors w :
  frames (snd (broadcast_signal_resume fut message pending errors w)) = frames w.
Proof. unfold broadcast_signal_resume. now destruct errors, pending. Qed.

(** The first iteration of a broadcast on an idle loop. *)
Lemma tick_submit signal_data w :
  coros w = [] ->
  tick (snd (submit signal_data w)) =
    let w0 := set_next_fut (S (next_fut w)) w in
    if bool_decide (connected_clients w = ∅) then
      set_result (next_fut w) (Return tt) (set_log (log w ++ [(WARNING, NoClients)]) w0)
    else
      set_coros [Gather (next_fut w) (Json.dumps signal_data) (elements (connected_clients w))]
        (set_log (log w ++ [(INFO, Preparing (Json.dumps signal_data))]) w0).
Proof.
  intros Hidle. unfold submit. cbn [snd]. rewrite Hidle. cbn [app].
  rewrite (tick_cons (Broadcast (next_fut w) signal_data) []) by reflexivity.
  cbn [run_coros fst snd run_coro]. unfold broadcast_signal_start.
  cbn [connected_clients set_next_fut set_coros].
  destruct w as [cs sv ls fs co rs nf lg]; cbn in Hidle; subst co.
  case_bool_decide; reflexivity.
Qed.

(** A broadcast over an empty registry, in closed form. *)
Lemma broadcast_signal_empty signal_data w :
  coros w = [] -> connected_clients w = ∅ ->
  broadcast_signal signal_data w =
    (Some (Return tt),
     set_result (next_fut w) (Return tt)
       (set_log (log w ++ [(WARNING, NoClients)]) (set_next_fut (S (next_fut w)) w))).
Proof.
  intros Hidle Hempty. unfold broadcast_signal.
  change (submit signal_data w) with (next_fut w, snd (submit signal_data w)).
  unfold websocket_server.run_events. cbn [fold_left loop_event].
  rewrite tick_submit by assumption. cbn zeta.
  rewrite bool_decide_eq_true_2 by assumption.
  rewrite tick_nil by (cbn; assumption).
  cbn. now rewrite lookup_insert_eq.
Qed.

(** A broadcast over a registry with members, in closed form. *)
Lemma broadcast_signal_nonempty signal_data w :
  coros w = [] -> connected_clients w ≠ ∅ ->
  broadcast_signal signal_data w =
    let fut := next_fut w in
    let message := Json.dumps signal_data in
    let tasks := elements (connected_clients w) in
    let w1 := set_log (log w ++ [(INFO, Preparing message)]) (set_next_fut (S fut) w) in
    let r := broadcast_signal_resume fut message
               (filter (fun c => is_congested w c) tasks)
               (map ConnectionClosed (filter (fun c => is_closed w c) tasks))
               (after_sends message tasks w1) in
    (results (snd r) !! fut, set_coros (fst r) (snd r)).
Proof.
  intros Hidle Hne. unfold broadcast_signal.
  change (submit signal_data w) with (next_fut w, snd (submit signal_data w)).
  unfold websocket_server.run_events. cbn [fold_left loop_event].
  rewrite tick_submit by assumption. cbn zeta.
  rewrite bool_decide_eq_false_2 by assumption.
  erewrite tick_cons by reflexivity. cbn [run_coros fst snd].
  rewrite run_coro_gather, app_nil_r.
  destruct w as [cs sv ls fs co rs nf lg]; cbn in Hidle; subst co.
  unfold after_sends, broadcast_signal_resume, is_congested, is_closed, is_open.
  cbn -[filter elements Json.dumps].
  destruct (map ConnectionClosed _) as [|e errors];
    destruct (filter _ (elements cs)) as [|p pending]; reflexivity.
Qed.

Lemma filter_all {A} (P : A -> bool) (l : list A) :
  (forall x, x ∈ l -> P x = true) -> filter (fun x => P x) l = l.
Proof.
  induction l as [|x l IH]; intros H; [reflexivity|].
  rewrite filter_cons, (H x) by apply list_elem_of_here. cbn.
  rewrite IH; [reflexivity|]. intros y Hy. apply H. now apply list_elem_of_further.
Qed.

Lemma filter_none {A} (P : A -> bool) (l : list A) :
  (forall x, x ∈ l -> P x = false) -> filter (fun x => P x) l = [].
Proof.
  induction l as [|x l IH]; intros H; [reflexivity|].
  rewrite filter_cons, (H x) by apply list_elem_of_here. cbn.
  apply IH. intros y Hy. apply H. now apply list_elem_of_further.
Qed.

Lemma is_open_not_congested w c : is_open w c = true -> is_congested w c = false.
Proof. unfold is_open, is_congested. now destruct (links w !! c) as [[]|]. Qed.

Lemma is_open_not_closed w c : is_open w c = true -> is_closed w c = false.
Proof. unfold is_open, is_closed. now destruct (links w !! c) as [[]|]. Qed.

Lemma frames_to_recipients message cs : map fst (frames_to message cs) = cs.
Proof.
  unfold frames_to. induction cs as [|c cs IH]; [reflexivity | cbn; now rewrite IH].
Qed.

Lemma elem_of_frames_to c m message cs :
  (c, m) ∈ frames_to message cs <-> c ∈ cs /\ m = message.
Proof.
  unfold frames_to. rewrite list_elem_of_fmap. split.
  - intros (c' & Heq & Hin). inversion Heq; subst. now split.
  - intros [Hin ->]. now exists c.
Qed.

(* ===================================================================== *)
(** * The registry                                                         *)
(* ===================================================================== *)

(** C5.  [register] never fails and makes the connection a member; the
    registry grows by exactly one when the connection was not yet a member,
    and is left as it was when it already was one, so that registering a
    connection twice gives the registry of registering it once. *)
Theorem register_adds_once c w :
  let w1 := snd (register c w) in
  fst (register c w) = Return tt /\
  c ∈ connected_clients w1 /\
  (c ∉ connected_clients w -> size (connected_clients w1) = S (size (connected_clients w))) /\
  (c ∈ connected_clients w -> w1 = w) /\
  snd (register c w1) = w1.
Proof.
  cbn. split; [reflexivity|]. split; [|split; [|split]].
  - apply elem_of_union_l. now apply elem_of_singleton.
  - intros Hc. rewrite size_union by now apply disjoint_singleton_l.
    now rewrite size_singleton.
  - intros Hc. destruct w as [cs sv ls fs co rs nf lg]; cbn in *.
    unfold set_clients; cbn. f_equal.
    apply subseteq_union_1_L. now apply singleton_subseteq_l.
  - unfold set_clients; cbn. f_equal.
    now rewrite (assoc_L (∪)), (idemp_L (∪)).
Qed.

Lemma unregister_member c w :
  c ∈ connected_clients w ->
  unregister c w = (Return tt, set_clients (connected_clients w ∖ {[c]}) w).
Proof. intros Hc. unfold unregister. now rewrite bool_decide_eq_true_2. Qed.

Lemma unregister_missing c w :
  c ∉ connected_clients w -> unregister c w = (Raise (KeyError c), w).
Proof. intros Hc. unfold unregister. now rewrite bool_decide_eq_false_2. Qed.

Lemma not_elem_of_remove c (s : gset conn) : c ∉ s ∖ {[c]}.
Proof.
  intros Hin. apply elem_of_difference in Hin as [_ Hin].
  apply Hin. now apply elem_of_singleton.
Qed.

(** C4, counterexample: on a server where nobody is registered, removing a
    connection is not a silent no-op, it raises. *)
Lemma unregister_absent_raises :
  (1%positive ∉ connected_clients listening) /\
  unregister 1%positive listening = (Raise (KeyError 1%positive), listening).
Proof. split; [apply not_elem_of_empty | reflexivity]. Qed.

(** Removal is not idempotent either: the second one raises. *)
Lemma unregister_twice_raises c w :
  c ∈ connected_clients w ->
  fst (unregister c (snd (unregister c w))) = Raise (KeyError c).
Proof.
  intros Hc. rewrite (unregister_member c w Hc). cbn [snd].
  rewrite unregister_missing; [reflexivity|]. apply not_elem_of_remove.
Qed.

(** After a client connects and disconnects the registry is what it was. *)
Lemma connect_then_disconnect c w error :
  c ∉ connected_clients w ->
  connected_clients (snd (handler_exit c error (snd (handler_enter c w)))) = connected_clients w.
Proof.
  intros Hc.
  run_handler.
  assert (Hin : c ∈ {[c]} ∪ connected_clients w)
    by (apply elem_of_union_l; now apply elem_of_singleton).
  destruct error; cbn; rewrite bool_decide_eq_true_2 by assumption; cbn;
    rewrite difference_union_distr_l_L, difference_diag_L, union_empty_l_L;
    now apply difference_disjoint_L, disjoint_singleton_r.
Qed.

(** Why the handler never meets that [KeyError]: the registry holds exactly
    the connections that have a handler, whatever happens on the loop. *)
Lemma loop_event_tracks_handlers e w :
  registry_tracks_handlers w -> registry_tracks_handlers (loop_event e w).
Proof.
  unfold registry_tracks_handlers. intros Hinv.
  destruct e as [c|c m|c|c b|c|c|]; cbn [loop_event].
  - destruct (links w !! c) eqn:E; [exact Hinv|].
    run_handler. cbn.
    rewrite dom_insert_L. now rewrite Hinv.
  - now destruct (links w !! c) as [[]|].
  - destruct (links w !! c) eqn:E; [|exact Hinv].
    cbn. rewrite dom_insert_L, Hinv. apply subseteq_union_1_L, singleton_subseteq_l.
    rewrite <- Hinv. apply elem_of_dom. eauto.
  - destruct (links w !! c) as [[]|] eqn:E; try exact Hinv.
    assert (Hc : c ∈ connected_clients w) by (rewrite <- Hinv; apply elem_of_dom; eauto).
    run_handler.
    destruct b; rewrite bool_decide_eq_true_2 by assumption; cbn;
      now rewrite dom_delete_L, Hinv.
  - destruct (links w !! c) as [[]|] eqn:E; try exact Hinv.
    cbn. rewrite dom_insert_L, Hinv. apply subseteq_union_1_L, singleton_subseteq_l.
    rewrite <- Hinv. apply elem_of_dom. eauto.
  - destruct (links w !! c) as [[]|] eqn:E; try exact Hinv.
    cbn. rewrite dom_insert_L, Hinv. apply subseteq_union_1_L, singleton_subseteq_l.
    rewrite <- Hinv. apply elem_of_dom. eauto.
  - destruct (tick_registry w) as [H1 H2]. now rewrite H1, H2.
Qed.

Lemma run_events_tracks_handlers es w :
  registry_tracks_handlers w -> registry_tracks_handlers (websocket_server.run_events es w).
Proof.
  revert w. induction es as [|e es IH]; intros w H; [exact H|].
  unfold websocket_server.run_events. cbn [fold_left].
  apply IH. now apply loop_event_tracks_handlers.
Qed.

(** From the fresh server on, the [finally] block of [handler] always finds
    its connection: the removal returns. *)
Lemma handler_exit_returns es c error :
  links (websocket_server.run_events es websocket_server.init) !! c = Some Closed ->
  fst (handler_exit c error (websocket_server.run_events es websocket_server.init)) = Return tt.
Proof.
  generalize (run_events_tracks_handlers es websocket_server.init).
  generalize (websocket_server.run_events es websocket_server.init).
  intros w Hinv Hc.
  assert (Hin : c ∈ connected_clients w).
  { rewrite <- Hinv; [apply elem_of_dom; eauto|].
    unfold registry_tracks_handlers. cbn. apply dom_empty_L. }
  run_handler.
  destruct error; now rewrite bool_decide_eq_true_2.
Qed.

(** C4, as the code has it.  [unregister] removes a member and returns; on
    a connection that is not a member it raises [KeyError] and leaves the
    state as it was.  The cleanup of [handler] does not meet that case:
    whatever has happened on the loop since the server was created, when a
    handler exits its connection is registered and the removal returns. *)
Theorem unregister_removes_or_raises c w :
  (c ∈ connected_clients w ->
     unregister c w = (Return tt, set_clients (connected_clients w ∖ {[c]}) w) /\
     c ∉ connected_clients (snd (unregister c w))) /\
  (c ∉ connected_clients w ->
     unregister c w = (Raise (KeyError c), w)) /\
  (forall es error,
     links (websocket_server.run_events es websocket_server.init) !! c = Some Closed ->
     fst (handler_exit c error (websocket_server.run_events es websocket_server.init))
       = Return tt).
Proof.
  split; [|split].
  - intros Hc. rewrite unregister_member by assumption. split; [reflexivity|].
    apply not_elem_of_remove.
  - intros Hc. now apply unregister_missing.
  - intros es error. apply handler_exit_returns.
Qed.

(* ===================================================================== *)
(** * [broadcast_signal]                                                   *)
(* ===================================================================== *)

(** C2.  On an idle loop, when the transport of every registered connection
    takes its frame, a broadcast returns normally and writes exactly one
    frame per registered connection and no other: as many frames as the
    registry has members (none for an empty registry), all of them the same
    text, which [json.loads] turns back into the signal. *)
Theorem broadcast_all_sends_succeed signal_data w :
  coros w = [] ->
  forallb (is_open w) (elements (connected_clients w)) = true ->
  Json.signal_ok signal_data = true ->
  let delivered := frames_to (Json.dumps signal_data) (elements (connected_clients w)) in
  fst (broadcast_signal signal_data w) = Some (Return tt) /\
  frames (snd (broadcast_signal signal_data w)) = frames w ++ delivered /\
  length delivered = size (connected_clients w) /\
  NoDup (map fst delivered) /\
  (forall c, c ∈ connected_clients w <-> c ∈ map fst delivered) /\
  (forall c m, (c, m) ∈ delivered ->
     m = Json.dumps signal_data /\ Json.loads m = Some signal_data).
Proof.
  intros Hidle Hopen Hsig delivered.
  assert (Hall : forall c, c ∈ elements (connected_clients w) -> is_open w c = true).
  { intros c Hc. rewrite forallb_forall in Hopen. apply Hopen. now apply list_elem_of_In. }
  assert (Hrun : fst (broadcast_signal signal_data w) = Some (Return tt) /\
                 frames (snd (broadcast_signal signal_data w)) = frames w ++ delivered).
  { destruct (decide (connected_clients w = ∅)) as [Hempty|Hne].
    - rewrite broadcast_signal_empty by assumption. cbn.
      unfold delivered. rewrite Hempty, elements_empty. cbn. now rewrite app_nil_r.
    - rewrite broadcast_signal_nonempty by assumption. cbn zeta.
      unfold after_sends.
      rewrite (filter_none (is_congested w)), (filter_none (is_closed w)),
        (filter_all (is_open _)).
      + cbn. rewrite lookup_insert_eq. split; reflexivity.
      + exact Hall.
      + intros c Hc. now apply is_open_not_closed, Hall.
      + intros c Hc. now apply is_open_not_congested, Hall. }
  destruct Hrun as [Hr Hf]. subst delivered. rewrite frames_to_recipients.
  split; [exact Hr|]. split; [exact Hf|]. split; [|split; [|split]].
  - unfold frames_to. now rewrite length_fmap.
  - apply NoDup_elements.
  - intros c. symmetry. apply elem_of_elements.
  - intros c m Hcm. apply elem_of_frames_to in Hcm as [_ ->].
    split; [reflexivity | now apply JsonFacts.loads_dumps].
Qed.

(** C2, at the test signal and three connected clients: three frames. *)
Lemma broadcast_all_sends_succeed_witness :
  fst (broadcast_signal test_signal three_clients) = Some (Return tt) /\
  frames (snd (broadcast_signal test_signal three_clients)) =
    frames three_clients ++ frames_to (Json.dumps test_signal) (elements (connected_clients three_clients)) /\
  length (frames_to (Json.dumps test_signal) (elements (connected_clients three_clients))) = 3.
Proof.
  destruct (broadcast_all_sends_succeed test_signal three_clients) as (H1 & H2 & H3 & _);
    [reflexivity | vm_compute; reflexivity | vm_compute; reflexivity |].
  split; [exact H1|]. split; [exact H2|]. vm_compute. reflexivity.
Defined.

(** The frame of the test signal is the text Python prints for it. *)
Example dumps_test_signal :
  Json.dumps test_signal =
    (String "{" (Json.encode_basestring_ascii "action" ++ ": " ++ Json.encode_basestring_ascii "BUY"
       ++ ", " ++ Json.encode_basestring_ascii "symbol" ++ ": " ++ Json.encode_basestring_ascii "000001.SZ"
       ++ ", " ++ Json.encode_basestring_ascii "price" ++ ": 15.8"
       ++ ", " ++ Json.encode_basestring_ascii "volume" ++ ": 100"
       ++ ", " ++ Json.encode_basestring_ascii "timestamp" ++ ": "
       ++ Json.encode_basestring_ascii "2025-09-08 14:30:00"
       ++ ", " ++ Json.encode_basestring_ascii "strategy_id" ++ ": "
       ++ Json.encode_basestring_ascii "test_strategy_001"
       ++ ", " ++ Json.encode_basestring_ascii "signal_id" ++ ": "
       ++ Json.encode_basestring_ascii "test_signal_001" ++ "}"))%string.
Proof. reflexivity. Qed.

(** C3.  On an idle loop, a broadcast over an empty registry has its result,
    a normal return, after its first turn already; it writes no frame,
    leaves no task behind and only logs the warning of line 63. *)
Theorem broadcast_no_clients_noop signal_data w :
  coros w = [] ->
  connected_clients w = ∅ ->
  let w1 := tick (snd (submit signal_data w)) in
  let w2 := snd (broadcast_signal signal_data w) in
  results w1 !! next_fut w = Some (Return tt) /\
  fst (broadcast_signal signal_data w) = Some (Return tt) /\
  frames w2 = frames w /\
  coros w2 = [] /\
  connected_clients w2 = ∅ /\
  log w2 = log w ++ [(WARNING, NoClients)].
Proof.
  intros Hidle Hempty w1 w2. subst w1 w2.
  rewrite broadcast_signal_empty, tick_submit by assumption. cbn zeta.
  rewrite bool_decide_eq_true_2 by assumption. cbn [fst snd].
  split; [cbn; apply lookup_insert_eq|].
  split; [reflexivity|]. split; [reflexivity|]. split; [exact Hidle|].
  split; [exact Hempty | reflexivity].
Qed.

(** C3, on the server that listens with nobody connected. *)
Lemma broadcast_no_clients_noop_witness :
  fst (broadcast_signal test_signal listening) = Some (Return tt) /\
  frames (snd (broadcast_signal test_signal listening)) = [].
Proof.
  destruct (broadcast_no_clients_noop test_signal listening eq_refl eq_refl)
    as (_ & H1 & H2 & _).
  split; [exact H1 | exact H2].
Defined.

(** C1, as the code has it.  On an idle loop, when the transport of a
    registered connection is closed, the broadcast raises the
    [ConnectionClosed] of a registered connection whose transport is closed:
    the failure is not caught.  Nothing is removed from the registry and
    nothing is logged beyond the announcement of line 68.  Every task was
    created before, so each registered connection with an open transport
    still gets its frame. *)
Theorem broadcast_send_failure_propagates signal_data w c :
  coros w = [] ->
  c ∈ connected_clients w ->
  is_closed w c = true ->
  let message := Json.dumps signal_data in
  let w' := snd (broadcast_signal signal_data w) in
  (exists c', c' ∈ connected_clients w /\ is_closed w c' = true /\
     fst (broadcast_signal signal_data w) = Some (Raise (ConnectionClosed c'))) /\
  connected_clients w' = connected_clients w /\
  frames w' = frames w ++
    frames_to message (filter (fun c => is_open w c) (elements (connected_clients w))) /\
  log w' = log w ++ [(INFO, Preparing message)].
Proof.
  intros Hidle Hin Hclosed message w'. subst w'.
  assert (Hne : connected_clients w ≠ ∅).
  { intros Hempty. rewrite Hempty in Hin. now apply not_elem_of_empty in Hin. }
  rewrite broadcast_signal_nonempty by assumption. cbn zeta.
  destruct (filter (fun c => is_closed w c) (elements (connected_clients w)))
    as [|c' failed] eqn:Hfailed.
  - exfalso. assert (Hc : c ∈ filter (fun c => is_closed w c) (elements (connected_clients w))).
    { apply list_elem_of_filter. split; [now rewrite Hclosed | now apply elem_of_elements]. }
    rewrite Hfailed in Hc. now apply not_elem_of_nil in Hc.
  - assert (Hc' : c' ∈ filter (fun c => is_closed w c) (elements (connected_clients w))).
    { rewrite Hfailed. apply list_elem_of_here. }
    apply list_elem_of_filter in Hc' as [Hc'1 Hc'2].
    cbn [map broadcast_signal_resume fst snd]. unfold after_sends. cbn.
    rewrite lookup_insert_eq. split; [|split; [|split]]; try reflexivity.
    exists c'. split; [now apply elem_of_elements|]. split; [|reflexivity].
    now apply Is_true_true.
Qed.

(** C1, counterexample: three clients, the transport of client 2 closed.
    The broadcast does not report a partial success, it raises; client 2 is
    still registered afterwards; the log has no entry about the failure. *)
Lemma broadcast_one_send_fails_raises :
  fst (broadcast_signal test_signal one_lost) = Some (Raise (ConnectionClosed 2%positive)) /\
  bool_decide (2%positive ∈ connected_clients (snd (broadcast_signal test_signal one_lost))) = true /\
  log (snd (broadcast_signal test_signal one_lost)) =
    log one_lost ++ [(INFO, Preparing (Json.dumps test_signal))] /\
  map fst (frames (snd (broadcast_signal test_signal one_lost))) = [3; 1]%positive.
Proof. vm_compute. repeat split. Qed.

(** C1, in that same state. *)
Lemma broadcast_send_failure_propagates_witness :
  connected_clients (snd (broadcast_signal test_signal one_lost)) = connected_clients one_lost /\
  log (snd (broadcast_signal test_signal one_lost)) =
    log one_lost ++ [(INFO, Preparing (Json.dumps test_signal))].
Proof.
  destruct (broadcast_send_failure_propagates test_signal one_lost 2%positive)
    as (_ & H1 & _ & H2);
    [reflexivity | apply (bool_decide_unpack _); vm_compute; exact I | reflexivity |].
  split; [exact H1 | exact H2].
Defined.

(* ===================================================================== *)
(** * What a broadcast leaves alone                                        *)
(* ===================================================================== *)

Lemma loop_event_clients e w :
  registry_event e = false ->
  connected_clients (loop_event e w) = connected_clients w.
Proof.
  destruct e as [c|c m|c|c b|c|c|]; cbn [registry_event loop_event]; intros He;
    try discriminate He.
  - now destruct (links w !! c) as [[]|].
  - now destruct (links w !! c).
  - now destruct (links w !! c) as [[]|].
  - now destruct (links w !! c) as [[]|].
  - apply tick_registry.
Qed.

Lemma run_events_clients es w :
  forallb (fun e => negb (registry_event e)) es = true ->
  connected_clients (websocket_server.run_events es w) = connected_clients w.
Proof.
  revert w. induction es as [|e es IH]; intros w Hes; [reflexivity|].
  cbn [forallb] in Hes. apply andb_prop in Hes as [He Hes].
  unfold websocket_server.run_events. cbn [fold_left].
  fold (websocket_server.run_events es (loop_event e w)). rewrite IH by assumption.
  apply loop_event_clients. now destruct (registry_event e).
Qed.

(** C10.  A broadcast neither adds a connection to the registry nor removes
    one: the registry after the call is the registry before it, whatever the
    state of the transports and of the loop, and it stays so however long
    the sends take, fail or wait, as long as no handler registers or
    removes a connection in between. *)
Theorem broadcast_leaves_registry_unchanged signal_data w :
  connected_clients (snd (broadcast_signal signal_data w)) = connected_clients w /\
  forall es, forallb (fun e => negb (registry_event e)) es = true ->
    connected_clients (websocket_server.run_events es (snd (submit signal_data w)))
      = connected_clients w.
Proof.
  assert (H : forall es, forallb (fun e => negb (registry_event e)) es = true ->
    connected_clients (websocket_server.run_events es (snd (submit signal_data w)))
      = connected_clients w).
  { intros es Hes. now rewrite run_events_clients. }
  split; [|exact H].
  exact (H [Tick; Tick] eq_refl).
Qed.

(** With a send that fails: the registry still has its three members. *)
Example broadcast_keeps_failed_client :
  size (connected_clients (snd (broadcast_signal test_signal one_lost))) = 3.
Proof.
  change (snd (broadcast_signal test_signal one_lost))
    with (websocket_server.run_events [Tick; Tick] (snd (submit test_signal one_lost))).
  rewrite run_events_clients by reflexivity. reflexivity.
Qed.

(* ===================================================================== *)
(** * The recipients are fixed when the tasks are created                  *)
(* ===================================================================== *)

Lemma handler_exit_tasks c b w : same_tasks w (snd (handler_exit c b w)).
Proof.
  run_handler.
  destruct b; cbn; case_bool_decide; now split.
Qed.

(** What is not a turn of the loop touches neither the tasks nor the frames. *)
Lemma loop_event_tasks e w : is_tick e = false -> same_tasks w (loop_event e w).
Proof.
  destruct e as [c|c m|c|c b|c|c|]; cbn [is_tick loop_event]; intros He; try discriminate He;
    destruct (links w !! c) as [[]|]; try (now split).
  unfold quiet. destruct (handler_exit_tasks c b w) as [H1 H2]. now split.
Qed.

Lemma run_events_tasks es w :
  forallb (fun e => negb (is_tick e)) es = true ->
  same_tasks w (websocket_server.run_events es w).
Proof.
  revert w. induction es as [|e es IH]; intros w Hes; [now split|].
  cbn [forallb] in Hes. apply andb_prop in Hes as [He Hes].
  unfold websocket_server.run_events. cbn [fold_left].
  fold (websocket_server.run_events es (loop_event e w)).
  destruct (IH (loop_event e w) Hes) as [H1 H2].
  destruct (loop_event_tasks e w) as [H3 H4]; [now destruct (is_tick e)|].
  split; congruence.
Qed.

Lemma after_sends_frozen snapshot message old tasks w :
  (forall x, x ∈ tasks -> x ∈ snapshot) ->
  (forall f, f ∈ frames w -> old_or_snapshot snapshot message old f) ->
  forall f, f ∈ frames (after_sends message tasks w) ->
            old_or_snapshot snapshot message old f.
Proof.
  intros Htasks Hold [c m] Hf. unfold after_sends in Hf. cbn [frames set_frames] in Hf.
  apply elem_of_app in Hf as [Hf|Hf]; [now apply Hold|].
  apply elem_of_frames_to in Hf as [Hc ->]. right. split; [|reflexivity].
  apply list_elem_of_filter in Hc as [_ Hc]. now apply Htasks.
Qed.

Lemma detach_addressed snapshot message pending :
  (forall x, x ∈ pending -> x ∈ snapshot) ->
  Forall (addressed_to snapshot message) (detach message pending).
Proof.
  intros H. destruct pending as [|p pending]; cbn [detach]; [constructor|].
  constructor; [|constructor]. now split.
Qed.

Lemma run_coro_frozen snapshot message old c w :
  addressed_to snapshot message c ->
  (forall f, f ∈ frames w -> old_or_snapshot snapshot message old f) ->
  Forall (addressed_to snapshot message) (fst (run_coro c w)) /\
  (forall f, f ∈ frames (snd (run_coro c w)) -> old_or_snapshot snapshot message old f).
Proof.
  intros Hc Hold. destruct c as [fut s|fut m tasks|m tasks]; [destruct Hc| |];
    destruct Hc as [-> Htasks].
  - assert (Hpending : forall x, x ∈ filter (fun c => is_congested w c) tasks -> x ∈ snapshot).
    { intros x Hx. apply list_elem_of_filter in Hx as [_ Hx]. now apply Htasks. }
    rewrite run_coro_gather. split.
    + unfold broadcast_signal_resume.
      destruct (map ConnectionClosed _) as [|e errors].
      * destruct (filter _ tasks) as [|p pending] eqn:E; cbn [fst]; [constructor|].
        constructor; [|constructor]. now split.
      * cbn [fst]. now apply detach_addressed.
    + rewrite broadcast_signal_resume_frames. now apply after_sends_frozen.
  - cbn [run_coro]. rewrite run_sends_spec. cbn [fst snd]. split.
    + apply detach_addressed. intros x Hx.
      apply list_elem_of_filter in Hx as [_ Hx]. now apply Htasks.
    + now apply after_sends_frozen.
Qed.

Lemma run_coros_frozen snapshot message old cs w :
  Forall (addressed_to snapshot message) cs ->
  (forall f, f ∈ frames w -> old_or_snapshot snapshot message old f) ->
  Forall (addressed_to snapshot message) (fst (run_coros cs w)) /\
  (forall f, f ∈ frames (snd (run_coros cs w)) -> old_or_snapshot snapshot message old f).
Proof.
  revert w. induction cs as [|c cs IH]; intros w Hcs Hold; [now split|].
  inversion Hcs as [|? ? Hc Hcs']; subst. cbn [run_coros].
  destruct (run_coro_frozen snapshot message old c w Hc Hold) as [H1 H2].
  destruct (run_coro c w) as [kept w1]. cbn [fst snd] in H1, H2.
  destruct (IH w1 Hcs' H2) as [H3 H4].
  destruct (run_coros cs w1) as [kept' w2]. cbn [fst snd] in *.
  split; [now apply Forall_app | exact H4].
Qed.

Lemma loop_event_frozen snapshot message old e w :
  frozen snapshot message old w -> frozen snapshot message old (loop_event e w).
Proof.
  intros [Hcs Hold]. destruct (is_tick e) eqn:He.
  - destruct e; try discriminate He. cbn [loop_event]. unfold tick.
    destruct (run_coros_frozen snapshot message old (coros w) w Hcs Hold) as [H1 H2].
    destruct (run_coros (coros w) w) as [kept w1]. now split.
  - destruct (loop_event_tasks e w He) as [H1 H2]. unfold frozen. now rewrite H1, H2.
Qed.

Lemma run_events_frozen snapshot message old es w :
  frozen snapshot message old w ->
  frozen snapshot message old (websocket_server.run_events es w).
Proof.
  revert w. induction es as [|e es IH]; intros w H; [exact H|].
  unfold websocket_server.run_events. cbn [fold_left]. apply IH.
  now apply loop_event_frozen.
Qed.

(** C9.  On an idle loop, let the broadcast create its tasks (its first
    turn).  Whatever then happens before the tasks run (connections
    accepted and registered, transports lost, handlers removing their
    connection), the frames the next turn writes go to the members the
    registry had at the start whose transport is open at that moment, in
    the order of the start; and however the loop goes on from there, every
    later frame is this message for a member the registry had at the
    start.  A connection registered in between receives nothing from this
    broadcast. *)
Theorem broadcast_recipients_frozen signal_data w es :
  coros w = [] ->
  forallb (fun e => negb (is_tick e)) es = true ->
  let w1 := tick (snd (submit signal_data w)) in
  let w2 := websocket_server.run_events es w1 in
  frames (tick w2) =
    frames w ++ frames_to (Json.dumps signal_data)
                  (filter (fun c => is_open w2 c) (elements (connected_clients w))) /\
  forall es' f, f ∈ frames (websocket_server.run_events es' w1) ->
    f ∈ frames w \/ (fst f ∈ connected_clients w /\ snd f = Json.dumps signal_data).
Proof.
  intros Hidle Hes w1 w2.
  assert (Hw1 : frames w1 = frames w /\
                coros w1 = if bool_decide (connected_clients w = ∅) then []
                           else [Gather (next_fut w) (Json.dumps signal_data)
                                   (elements (connected_clients w))]).
  { subst w1. rewrite tick_submit by assumption. cbn zeta.
    case_bool_decide; cbn; now split. }
  destruct Hw1 as [Hf1 Hc1]. split.
  - destruct (run_events_tasks es w1 Hes) as [Hcoros Hframes].
    fold w2 in Hcoros, Hframes. rewrite Hc1 in Hcoros. rewrite Hf1 in Hframes.
    case_bool_decide as Hempty.
    + rewrite tick_nil by assumption. rewrite Hframes, Hempty, elements_empty.
      cbn. now rewrite app_nil_r.
    + rewrite (tick_cons _ _ _ Hcoros). cbn [run_coros fst snd frames set_coros].
      rewrite run_coro_gather, broadcast_signal_resume_frames.
      unfold after_sends. cbn [frames set_frames]. now rewrite Hframes.
  - intros es'. apply run_events_frozen. split.
    + rewrite Hc1. case_bool_decide; [constructor|].
      constructor; [|constructor]. split; [reflexivity|].
      intros x Hx. now apply elem_of_elements.
    + intros f Hf. left. now rewrite <- Hf1.
Qed.

(** C9, with three clients: after the tasks are created a fourth client
    connects and client 2 disconnects.  Clients 3 and 1 get the frame, the
    fourth, registered by then, gets none. *)
Lemma broadcast_recipients_frozen_witness :
  map fst (frames (tick (websocket_server.run_events
                           [Accept 4%positive; Lost 2%positive; HandlerExit 2%positive true]
                           (tick (snd (submit test_signal three_clients))))))
    = [3; 1]%positive.
Proof.
  rewrite (proj1 (broadcast_recipients_frozen test_signal three_clients
             [Accept 4%positive; Lost 2%positive; HandlerExit 2%positive true] eq_refl eq_refl)).
  vm_compute. reflexivity.
Defined.

(* ===================================================================== *)
(** * The engine: [stop]                                                   *)
(* ===================================================================== *)

(** C8, as the code has it.  On a started engine [stop] logs twice and
    clears [active]; it does nothing else: the loop, the thread that drives
    it and the server with its scheduled tasks are what they were. *)
Theorem stop_only_clears_active self :
  main_engine.active self = true ->
  main_engine.stop self =
    main_engine.elogger INFO main_engine.EngineStopped
      (main_engine.set_active false
         (main_engine.elogger INFO main_engine.EngineStopping self)) /\
  main_engine.active (main_engine.stop self) = false /\
  main_engine.async_loop (main_engine.stop self) = main_engine.async_loop self /\
  main_engine.async_thread (main_engine.stop self) = main_engine.async_thread self /\
  main_engine.ws_server (main_engine.stop self) = main_engine.ws_server self.
Proof.
  intros Hact. unfold main_engine.stop. rewrite Hact. cbn.
  split; [reflexivity|]. split; [reflexivity|]. split; [reflexivity|].
  split; reflexivity.
Qed.

Lemma stop_only_clears_active_witness :
  main_engine.active (main_engine.stop serving) = false /\
  main_engine.async_loop (main_engine.stop serving) = main_engine.async_loop serving.
Proof.
  destruct (stop_only_clears_active serving eq_refl) as (_ & H1 & H2 & _).
  split; [exact H1 | exact H2].
Defined.

(** C8, counterexample: a broadcast waits on a congested client when the
    engine is stopped.  After [stop] the loop still runs, the thread is
    alive (and a daemon), and the task is still scheduled: nothing was
    cancelled, drained or joined. *)
Lemma stop_leaves_loop_running :
  let stopped :=
    main_engine.stop (snd (main_engine.broadcast_signal_sync test_signal [Tick; Tick] congested)) in
  main_engine.async_loop stopped = Some main_engine.LoopRunning /\
  main_engine.async_thread stopped = Some (main_engine.mkThread true true) /\
  (coros <$> main_engine.ws_server stopped) =
    Some [Gather 0 (Json.dumps test_signal) [1%positive]].
Proof. vm_compute. repeat split. Qed.

(* ===================================================================== *)
(** * The engine: [broadcast_signal_sync] without a loop                   *)
(* ===================================================================== *)

(** [broadcast_signal_sync] does not look at [active]: on a stopped engine
    it gives the result, and leaves the server, as on the running one. *)
Lemma broadcast_signal_sync_ignores_stop signal_data window self :
  fst (main_engine.broadcast_signal_sync signal_data window (main_engine.stop self))
    = fst (main_engine.broadcast_signal_sync signal_data window self) /\
  main_engine.ws_server
    (snd (main_engine.broadcast_signal_sync signal_data window (main_engine.stop self)))
    = main_engine.ws_server (snd (main_engine.broadcast_signal_sync signal_data window self)).
Proof.
  unfold main_engine.stop, main_engine.broadcast_signal_sync, main_engine.broadcast_signal,
    main_engine.future_result.
  destruct self as [act [ws|] [[]|] th lg]; destruct act; cbn; try (now split).
  - destruct (wait_result _ _ _) as [[[[]|e]|] ws1]; now split.
  - destruct (wait_result _ _ _) as [[[[]|e]|] ws1]; now split.
Qed.

(** C7, as the code has it.  While [async_loop] is [None] (the thread has
    not created the loop yet) [broadcast_signal_sync] returns at once,
    whatever the loop would do in the meantime; it returns normally
    ([None] in Python), its only effect being the error logged at line
    113: nothing is scheduled and no frame is written.  [stop] leaves
    [async_loop] as it is, and a call after [stop] has the result and the
    effect on the server of the same call before it. *)
Theorem broadcast_signal_sync_loop_not_ready signal_data window self :
  main_engine.async_loop self = None ->
  main_engine.broadcast_signal_sync signal_data window self =
    (Return tt, main_engine.elogger ERROR main_engine.LoopNotReady self) /\
  main_engine.ws_server (snd (main_engine.broadcast_signal_sync signal_data window self))
    = main_engine.ws_server self /\
  (forall self' : main_engine.ServerEngine,
     main_engine.async_loop (main_engine.stop self') = main_engine.async_loop self' /\
     fst (main_engine.broadcast_signal_sync signal_data window (main_engine.stop self'))
       = fst (main_engine.broadcast_signal_sync signal_data window self') /\
     main_engine.ws_server
       (snd (main_engine.broadcast_signal_sync signal_data window (main_engine.stop self')))
       = main_engine.ws_server (snd (main_engine.broadcast_signal_sync signal_data window self'))).
Proof.
  intros Hloop. split; [|split].
  - unfold main_engine.broadcast_signal_sync. now rewrite Hloop.
  - unfold main_engine.broadcast_signal_sync. now rewrite Hloop.
  - intros self'. split; [|apply broadcast_signal_sync_ignores_stop].
    unfold main_engine.stop. now destruct (main_engine.active self').
Qed.

(** C7, on an engine that was started while its thread has not run yet. *)
Lemma broadcast_signal_sync_loop_not_ready_witness :
  main_engine.broadcast_signal_sync test_signal [Tick; Tick]
    (main_engine.start main_engine.init) =
    (Return tt,
     main_engine.elogger ERROR main_engine.LoopNotReady (main_engine.start main_engine.init)).
Proof.
  exact (proj1 (broadcast_signal_sync_loop_not_ready test_signal [Tick; Tick]
                  (main_engine.start main_engine.init) eq_refl)).
Defined.

(** C7, counterexample: after [stop] on a serving engine the call is not
    refused: the frame is written to the client, and the engine log has no
    entry beyond those of [stop]. *)
Lemma broadcast_after_stop_still_sends :
  let r := main_engine.broadcast_signal_sync test_signal [Tick; Tick] (main_engine.stop serving) in
  fst r = Return tt /\
  (frames <$> main_engine.ws_server (snd r)) = Some [(1%positive, Json.dumps test_signal)] /\
  main_engine.elog (snd r) = main_engine.elog (main_engine.stop serving).
Proof. vm_compute. repeat split. Qed.

(** On a loop that was closed because the server could not start, the call
    raises at once. *)
Example broadcast_on_closed_loop :
  fst (main_engine.broadcast_signal_sync test_signal [Tick; Tick]
         (main_engine.run_async_in_thread false (main_engine.start main_engine.init)))
    = Raise RuntimeError.
Proof. reflexivity. Qed.

(* ===================================================================== *)
(** * The engine: [broadcast_signal_sync] running out of time              *)
(* ===================================================================== *)

(** A wait that times out has seen the whole window go by. *)
Lemma wait_result_timeout fut window w :
  fst (wait_result fut window w) = None ->
  snd (wait_result fut window w) = websocket_server.run_events window w /\
  results (websocket_server.run_events window w) !! fut = None.
Proof.
  revert w. induction window as [|e window IH]; intros w; cbn [wait_result].
  - destruct (results w !! fut) eqn:E; [discriminate|]. now split.
  - destruct (results w !! fut) eqn:E; [discriminate|]. intros H.
    unfold websocket_server.run_events. cbn [fold_left]. now apply IH.
Qed.

Lemma set_result_keeps fut fut' r w :
  is_Some (results w !! fut) -> is_Some (results (set_result fut' r w) !! fut).
Proof.
  intros H. cbn. destruct (decide (fut' = fut)) as [->|Hne].
  - rewrite lookup_insert_eq. eauto.
  - now rewrite lookup_insert_ne.
Qed.

Lemma run_coro_results c w fut :
  is_Some (results w !! fut) -> is_Some (results (snd (run_coro c w)) !! fut).
Proof.
  intros H. destruct c as [f s|f m t|m t].
  - cbn [run_coro]. unfold broadcast_signal_start. case_bool_decide; cbn [snd]; [|exact H].
    now apply set_result_keeps.
  - rewrite run_coro_gather. unfold broadcast_signal_resume.
    destruct (map ConnectionClosed _); destruct (filter _ t); cbn [snd];
      try (now apply set_result_keeps); exact H.
  - cbn [run_coro]. rewrite run_sends_spec. exact H.
Qed.

(** A turn of a coroutine either leaves it on the loop or gives its future a
    result: no turn drops it. *)
Lemma run_coro_alive c w fut :
  coro_fut c = Some fut ->
  scheduled fut (fst (run_coro c w)) \/ is_Some (results (snd (run_coro c w)) !! fut).
Proof.
  intros Hc. destruct c as [f s|f m t|m t]; cbn in Hc; try discriminate Hc;
    injection Hc as ->.
  - cbn [run_coro]. unfold broadcast_signal_start. case_bool_decide; cbn [fst snd].
    + right. cbn. rewrite lookup_insert_eq. eauto.
    + left. eexists. split; [apply list_elem_of_here | reflexivity].
  - rewrite run_coro_gather. unfold broadcast_signal_resume.
    destruct (map ConnectionClosed _); destruct (filter _ t); cbn [fst snd].
    + right. cbn. rewrite lookup_insert_eq. eauto.
    + left. eexists. split; [apply list_elem_of_here | reflexivity].
    + right. cbn. rewrite lookup_insert_eq. eauto.
    + right. cbn. rewrite lookup_insert_eq. eauto.
Qed.

Lemma run_coros_results cs w fut :
  is_Some (results w !! fut) -> is_Some (results (snd (run_coros cs w)) !! fut).
Proof.
  revert w. induction cs as [|c cs IH]; intros w H; [exact H|].
  cbn [run_coros]. pose proof (run_coro_results c w fut H) as Hc.
  destruct (run_coro c w) as [kept w1]. cbn [snd] in Hc.
  specialize (IH w1 Hc). now destruct (run_coros cs w1).
Qed.

Lemma run_coros_alive cs w fut :
  scheduled fut cs \/ is_Some (results w !! fut) ->
  scheduled fut (fst (run_coros cs w)) \/ is_Some (results (snd (run_coros cs w)) !! fut).
Proof.
  revert w. induction cs as [|c cs IH]; intros w [Hs|Hr].
  - destruct Hs as (c & Hc & _). now apply not_elem_of_nil in Hc.
  - now right.
  - cbn [run_coros]. destruct Hs as (c0 & Hin & Hfut).
    apply elem_of_cons in Hin as [->|Hin].
    + pose proof (run_coro_alive c w fut Hfut) as Hc.
      destruct (run_coro c w) as [kept w1]. cbn [fst snd] in Hc.
      pose proof (run_coros_results cs w1 fut) as Hmono.
      destruct (run_coros cs w1) as [kept' w2]. cbn [fst snd] in *.
      destruct Hc as [(c' & Hc' & Hf')|Hc]; [left|right; now apply Hmono].
      exists c'. split; [|exact Hf']. apply elem_of_app. now left.
    + destruct (run_coro c w) as [kept w1].
      specialize (IH w1 (or_introl (ex_intro _ c0 (conj Hin Hfut)))).
      destruct (run_coros cs w1) as [kept' w2]. cbn [fst snd] in *.
      destruct IH as [(c' & Hc' & Hf')|IH]; [left|now right].
      exists c'. split; [|exact Hf']. apply elem_of_app. now right.
  - right. now apply run_coros_results.
Qed.

Lemma tick_alive fut w : alive fut w -> alive fut (tick w).
Proof.
  unfold alive, tick. intros H. apply (run_coros_alive (coros w) w fut) in H.
  now destruct (run_coros (coros w) w) as [kept w1].
Qed.

Lemma loop_event_same_results e w : is_tick e = false -> same_results w (loop_event e w).
Proof.
  destruct e as [c|c m|c|c b|c|c|]; cbn [is_tick loop_event]; intros He; try discriminate He;
    destruct (links w !! c) as [[]|]; try (now split).
  run_handler.
  destruct b; cbn; case_bool_decide; now split.
Qed.

Lemma loop_event_alive fut e w : alive fut w -> alive fut (loop_event e w).
Proof.
  destruct (is_tick e) eqn:He.
  - destruct e; try discriminate He. apply tick_alive.
  - destruct (loop_event_same_results e w He) as [H1 H2]. unfold alive.
    now rewrite H1, H2.
Qed.

Lemma run_events_alive fut es w :
  alive fut w -> alive fut (websocket_server.run_events es w).
Proof.
  revert w. induction es as [|e es IH]; intros w H; [exact H|].
  unfold websocket_server.run_events. cbn [fold_left]. apply IH.
  now apply loop_event_alive.
Qed.

Lemma submit_alive signal_data w : alive (next_fut w) (snd (submit signal_data w)).
Proof.
  left. exists (Broadcast (next_fut w) signal_data). split; [|reflexivity].
  cbn. apply elem_of_app. right. apply list_elem_of_here.
Qed.

(** Frames are only ever added. *)
Lemma run_coro_frames c w : exists sent, frames (snd (run_coro c w)) = frames w ++ sent.
Proof.
  destruct c as [fut s|fut m t|m t].
  - exists []. rewrite app_nil_r. cbn [run_coro]. unfold broadcast_signal_start.
    now case_bool_decide.
  - rewrite run_coro_gather, broadcast_signal_resume_frames. unfold after_sends. eauto.
  - cbn [run_coro]. rewrite run_sends_spec. unfold after_sends. eauto.
Qed.

Lemma run_coros_frames cs w : exists sent, frames (snd (run_coros cs w)) = frames w ++ sent.
Proof.
  revert w. induction cs as [|c cs IH]; intros w.
  - exists []. now rewrite app_nil_r.
  - cbn [run_coros]. destruct (run_coro_frames c w) as [s1 H1].
    destruct (run_coro c w) as [kept w1]. cbn [snd] in H1.
    destruct (IH w1) as [s2 H2]. destruct (run_coros cs w1) as [kept' w2]. cbn [snd] in *.
    exists (s1 ++ s2). now rewrite H2, H1, app_assoc.
Qed.

Lemma loop_event_frames e w : exists sent, frames (loop_event e w) = frames w ++ sent.
Proof.
  destruct (is_tick e) eqn:He.
  - destruct e; try discriminate He. cbn [loop_event]. unfold tick.
    destruct (run_coros_frames (coros w) w) as [sent H].
    destruct (run_coros (coros w) w) as [kept w1]. now exists sent.
  - destruct (loop_event_tasks e w He) as [_ H]. exists []. now rewrite app_nil_r.
Qed.

Lemma run_events_frames es w :
  exists sent, frames (websocket_server.run_events es w) = frames w ++ sent.
Proof.
  revert w. induction es as [|e es IH]; intros w.
  - exists []. now rewrite app_nil_r.
  - unfold websocket_server.run_events. cbn [fold_left].
    destruct (loop_event_frames e w) as [s1 H1].
    destruct (IH (loop_event e w)) as [s2 H2]. unfold websocket_server.run_events in H2.
    exists (s1 ++ s2). now rewrite H2, H1, app_assoc.
Qed.

(** After a turn of the loop every coroutine has started. *)
Lemma detach_started message pending : Forall started (detach message pending).
Proof. destruct pending; cbn; repeat constructor. Qed.

Lemma run_coro_started c w : Forall started (fst (run_coro c w)).
Proof.
  destruct c as [fut s|fut m t|m t].
  - cbn [run_coro]. unfold broadcast_signal_start.
    case_bool_decide; cbn; repeat constructor.
  - rewrite run_coro_gather. unfold broadcast_signal_resume.
    destruct (map ConnectionClosed _); [destruct (filter _ t)|]; cbn [fst];
      try apply detach_started; repeat constructor.
  - cbn [run_coro]. rewrite run_sends_spec. apply detach_started.
Qed.

Lemma run_coros_started cs w : Forall started (fst (run_coros cs w)).
Proof.
  revert w. induction cs as [|c cs IH]; intros w; [constructor|].
  cbn [run_coros]. pose proof (run_coro_started c w) as H1.
  destruct (run_coro c w) as [kept w1]. specialize (IH w1).
  destruct (run_coros cs w1) as [kept' w2]. cbn [fst] in *. now apply Forall_app.
Qed.

Lemma tick_started w : Forall started (coros (tick w)).
Proof.
  unfold tick. pose proof (run_coros_started (coros w) w) as H.
  now destruct (run_coros (coros w) w) as [kept w1].
Qed.

(** Without congestion a turn finishes every started coroutine. *)
Lemma run_coro_finishes c w :
  no_congestion w -> started c -> fst (run_coro c w) = [].
Proof.
  intros Hw Hc. destruct c as [fut s|fut m t|m t]; [destruct Hc| |].
  - rewrite run_coro_gather, (filter_none (is_congested w)) by (intros; apply Hw).
    unfold broadcast_signal_resume. now destruct (map ConnectionClosed _).
  - cbn [run_coro]. rewrite run_sends_spec.
    now rewrite (filter_none (is_congested w)) by (intros; apply Hw).
Qed.

Lemma run_coros_finish cs w :
  no_congestion w -> Forall started cs -> fst (run_coros cs w) = [].
Proof.
  revert w. induction cs as [|c cs IH]; intros w Hw Hcs; [reflexivity|].
  inversion Hcs as [|? ? Hc Hcs']; subst. cbn [run_coros].
  pose proof (run_coro_finishes c w Hw Hc) as H1.
  destruct (run_coro_registry c w) as [_ Hl].
  destruct (run_coro c w) as [kept w1]. cbn [fst snd] in *. subst kept.
  assert (Hw1 : no_congestion w1).
  { intros x. unfold is_congested. rewrite Hl. apply Hw. }
  specialize (IH w1 Hw1 Hcs'). destruct (run_coros cs w1) as [kept' w2].
  cbn [fst] in *. now subst kept'.
Qed.

Lemma tick_finishes w : no_congestion w -> Forall started (coros w) -> coros (tick w) = [].
Proof.
  intros Hw Hcs. unfold tick. pose proof (run_coros_finish (coros w) w Hw Hcs) as H.
  destruct (run_coros (coros w) w) as [kept w1]. exact H.
Qed.

(** Draining: a congested transport opens, nothing else changes. *)
Lemma drain_congestion c x w :
  is_congested (loop_event (Drain c) w) x = true -> is_congested w x = true /\ x <> c.
Proof.
  cbn [loop_event]. unfold is_congested.
  destruct (links w !! c) as [[]|] eqn:E; cbn [links set_links].
  - intros H. split; [exact H|]. intros ->. now rewrite E in H.
  - destruct (decide (x = c)) as [->|Hne].
    + now rewrite lookup_insert_eq.
    + rewrite lookup_insert_ne by congruence. now split.
  - intros H. split; [exact H|]. intros ->. now rewrite E in H.
  - intros H. split; [exact H|]. intros ->. now rewrite E in H.
Qed.

Lemma drains_congestion cs x w :
  is_congested (websocket_server.run_events (Drain <$> cs) w) x = true ->
  is_congested w x = true /\ x ∉ cs.
Proof.
  revert w. induction cs as [|c cs IH]; intros w H.
  - split; [exact H | apply not_elem_of_nil].
  - unfold websocket_server.run_events in H. cbn [fmap list_fmap fold_left] in H.
    apply IH in H as [H Hcs]. apply drain_congestion in H as [H Hne].
    split; [exact H|]. apply not_elem_of_cons. now split.
Qed.

Lemma drains_same_results cs w :
  same_results w (websocket_server.run_events (Drain <$> cs) w).
Proof.
  revert w. induction cs as [|c cs IH]; intros w; [now split|].
  unfold websocket_server.run_events. cbn [fmap list_fmap fold_left].
  destruct (IH (loop_event (Drain c) w)) as [H1 H2].
  destruct (loop_event_same_results (Drain c) w eq_refl) as [H3 H4].
  unfold websocket_server.run_events in *. split; congruence.
Qed.

(** A scheduled broadcast can always be brought to its end: after
    [drain_all] its future has a result. *)
Lemma drain_all_completes fut w :
  alive fut w ->
  is_Some (results (websocket_server.run_events (drain_all w) w) !! fut).
Proof.
  intros Halive.
  assert (Hsplit : websocket_server.run_events (drain_all w) w =
            tick (websocket_server.run_events (Drain <$> elements (dom (links w))) (tick w))).
  { unfold drain_all, websocket_server.run_events. cbn [fold_left loop_event].
    now rewrite fold_left_app. }
  rewrite Hsplit. clear Hsplit.
  set (w1 := tick w).
  set (w2 := websocket_server.run_events (Drain <$> elements (dom (links w))) w1).
  assert (Hw2 : alive fut w2) by (apply run_events_alive; now apply tick_alive).
  destruct (drains_same_results (elements (dom (links w))) w1) as [Hcoros _].
  fold w2 in Hcoros.
  assert (Hquiet : no_congestion w2).
  { intros x. destruct (is_congested w2 x) eqn:E; [|reflexivity]. exfalso.
    apply drains_congestion in E as [E Hx]. apply Hx, elem_of_elements, elem_of_dom.
    destruct (tick_registry w) as [_ Hl]. fold w1 in Hl. unfold is_congested in E.
    rewrite Hl in E. destruct (links w !! x); [eauto | discriminate E]. }
  assert (Hstarted : Forall started (coros w2)) by (rewrite Hcoros; apply tick_started).
  pose proof (tick_finishes w2 Hquiet Hstarted) as Hnil.
  destruct (tick_alive fut w2 Hw2) as [(c & Hc & _)|H]; [|exact H].
  rewrite Hnil in Hc. now apply not_elem_of_nil in Hc.
Qed.

(** Whatever happens, a call on a loop that is not closed returns normally:
    success, failure of the broadcast and timeout are told apart by the log
    only. *)
Lemma broadcast_signal_sync_returns signal_data window self :
  main_engine.async_loop self <> Some main_engine.LoopClosed ->
  fst (main_engine.broadcast_signal_sync signal_data window self) = Return tt.
Proof.
  intros Hloop. unfold main_engine.broadcast_signal_sync.
  destruct (main_engine.async_loop self) as [[]|]; try reflexivity; [|congruence].
  destruct (main_engine.broadcast_signal signal_data self) as [[fut|] self1];
    [|reflexivity].
  destruct (main_engine.future_result fut window self1) as [[[[]|e]|] self2]; reflexivity.
Qed.

(** C6, as the code has it.  When the timeout runs out before the broadcast
    has a result, [broadcast_signal_sync] catches the timeout: it logs an
    error (line 122) and returns normally, [None] in Python, which is what
    it returns whatever the loop does in the meantime.  Nothing is
    cancelled or undone: the server is left exactly as the loop brought it
    by then, with every frame written so far; the coroutine of the
    broadcast is still scheduled on the loop, and the loop can bring it to
    its end afterwards. *)
Theorem broadcast_signal_sync_timeout signal_data window self ws :
  main_engine.async_loop self = Some main_engine.LoopRunning ->
  main_engine.ws_server self = Some ws ->
  fst (wait_result (next_fut ws) window (snd (submit signal_data ws))) = None ->
  let ws' := websocket_server.run_events window (snd (submit signal_data ws)) in
  main_engine.broadcast_signal_sync signal_data window self =
    (Return tt,
     main_engine.elogger ERROR main_engine.BroadcastTimeout
       (main_engine.set_ws_server (Some ws') self)) /\
  (forall window', fst (main_engine.broadcast_signal_sync signal_data window' self) = Return tt) /\
  scheduled (next_fut ws) (coros ws') /\
  (exists sent, frames ws' = frames ws ++ sent) /\
  (exists es, is_Some (results (websocket_server.run_events es ws') !! next_fut ws)).
Proof.
  intros Hloop Hws Hwait ws'.
  destruct (wait_result_timeout _ _ _ Hwait) as [Hsnd Hnone]. fold ws' in Hsnd, Hnone.
  pose proof (run_events_alive (next_fut ws) window _ (submit_alive signal_data ws))
    as Halive. fold ws' in Halive.
  split; [|split; [|split; [|split]]].
  - unfold main_engine.broadcast_signal_sync, main_engine.broadcast_signal,
      main_engine.future_result.
    rewrite Hloop, Hws. unfold submit in *. cbn [snd main_engine.ws_server
      main_engine.set_ws_server] in *.
    destruct (wait_result _ _ _) as [r ws1]. cbn [fst snd] in *. subst r ws1.
    reflexivity.
  - intros window'. apply broadcast_signal_sync_returns. now rewrite Hloop.
  - destruct Halive as [H|H]; [exact H|]. rewrite Hnone in H. now destruct H.
  - exact (run_events_frames window (snd (submit signal_data ws))).
  - exists (drain_all ws'). now apply drain_all_completes.
Qed.

(** C6, with the only client congested: the call times out. *)
Lemma broadcast_signal_sync_timeout_witness :
  fst (main_engine.broadcast_signal_sync test_signal [Tick; Tick] congested) = Return tt /\
  main_engine.elog (snd (main_engine.broadcast_signal_sync test_signal [Tick; Tick] congested))
    = main_engine.elog congested ++ [(ERROR, main_engine.BroadcastTimeout)].
Proof.
  destruct (main_engine.ws_server congested) as [ws|] eqn:Hws; [|discriminate Hws].
  destruct (broadcast_signal_sync_timeout test_signal [Tick; Tick] congested ws)
    as [H _]; [reflexivity | exact Hws | |].
  - injection Hws as <-. vm_compute. reflexivity.
  - rewrite H. split; reflexivity.
Defined.

(** C6, counterexample: the caller of the timed-out call does not get a
    timeout error: the call returns [None], exactly what the same call
    returns when the broadcast succeeds. *)
Lemma broadcast_timeout_returns_none :
  fst (main_engine.broadcast_signal_sync test_signal [Tick; Tick] congested) = Return tt /\
  fst (main_engine.broadcast_signal_sync test_signal [Tick; Tick] congested) <> Raise TimeoutError /\
  fst (main_engine.broadcast_signal_sync test_signal [Tick; Tick] serving) = Return tt.
Proof. vm_compute. repeat split. discriminate. Qed.

(** After the timeout the broadcast goes on in the background: once the
    client's buffer drains, the loop delivers the frame and logs success. *)
Example broadcast_completes_after_timeout :
  let timed_out := snd (main_engine.broadcast_signal_sync test_signal [Tick; Tick] congested) in
  let later := main_engine.run_events [Drain 1%positive; Tick] timed_out in
  (frames <$> main_engine.ws_server timed_out) = Some [] /\
  (frames <$> main_engine.ws_server later) = Some [(1%positive, Json.dumps test_signal)] /\
  (coros <$> main_engine.ws_server later) = Some [] /\
  (last <$> (log <$> main_engine.ws_server later)) = Some (Some (INFO, Broadcasted 1)).
Proof. vm_compute. repeat split. Qed.

(** The console does the same with a timeout: it is caught and told apart
    on the screen only, and the console goes on. *)
Lemma console_test_signal_timeout window st ws :
  run_server.stop_event st = false ->
  main_engine.async_loop (run_server.engine st) = Some main_engine.LoopRunning ->
  main_engine.ws_server (run_server.engine st) = Some ws ->
  fst (wait_result (next_fut ws) window (snd (submit test_signal ws))) = None ->
  let r := run_server.console_listener_step (Some "test_signal"%string) window st in
  fst r = Return tt /\
  run_server.stop_event (snd r) = false /\
  run_server.stdout (snd r) =
    run_server.stdout st ++ [run_server.Announce test_signal; run_server.BroadcastTimedOut].
Proof.
  intros Hstop Hloop Hws Hwait.
  unfold run_server.console_listener_step. rewrite Hstop.
  cbn [String.eqb Ascii.eqb Bool.eqb orb andb].
  unfold run_server.broadcast_test_signal. cbn [run_server.engine run_server.print].
  rewrite Hloop. unfold main_engine.broadcast_signal, main_engine.future_result.
  rewrite Hws. unfold test_signal in Hwait. unfold submit in *.
  cbn [snd main_engine.ws_server main_engine.set_ws_server] in *.
  destruct (wait_result _ _ _) as [r ws1]. cbn [fst] in Hwait. subst r.
  cbn. rewrite <- app_assoc. now split.
Qed.

(* ===================================================================== *)
(** * The handler: the registry over a connection's life                   *)
(* ===================================================================== *)

(** X1.  From the server as constructed, whatever happens on the loop
    (connections accepted, messages, transports closing, handlers
    leaving, broadcasts), a connection is in [connected_clients] exactly
    while its handler is between its registration (line 38) and its
    removal (line 53). *)
Theorem registry_is_live_handlers es c :
  let w := websocket_server.run_events es websocket_server.init in
  c ∈ connected_clients w <-> is_Some (links w !! c).
Proof.
  intros w.
  assert (H : registry_tracks_handlers w).
  { apply run_events_tracks_handlers. unfold registry_tracks_handlers. cbn. set_solver. }
  unfold registry_tracks_handlers in H. rewrite <- H. apply elem_of_dom.
Qed.

Lemma loop_event_link_kept e w c :
  registry_event e = false ->
  is_Some (links w !! c) -> is_Some (links (loop_event e w) !! c).
Proof.
  intros He Hc. destruct e as [x|x m|x|x b|x|x|]; try discriminate He; cbn [loop_event].
  - destruct (links w !! x) as [[]|]; try exact Hc; run_handler; exact Hc.
  - destruct (links w !! x) as [l|] eqn:E; [|exact Hc].
    cbn. destruct (decide (c = x)) as [->|Hne].
    + rewrite lookup_insert_eq. eauto.
    + rewrite lookup_insert_ne by congruence. exact Hc.
  - destruct (links w !! x) as [[]|] eqn:E; try exact Hc.
    cbn. destruct (decide (c = x)) as [->|Hne].
    + rewrite lookup_insert_eq. eauto.
    + rewrite lookup_insert_ne by congruence. exact Hc.
  - destruct (links w !! x) as [[]|] eqn:E; try exact Hc.
    cbn. destruct (decide (c = x)) as [->|Hne].
    + rewrite lookup_insert_eq. eauto.
    + rewrite lookup_insert_ne by congruence. exact Hc.
  - destruct (tick_registry w) as [_ Hl]. rewrite Hl. exact Hc.
Qed.

Lemma add_then_remove c (s : gset conn) : c ∉ s -> ({[c]} ∪ s) ∖ {[c]} = s.
Proof.
  intros H. rewrite difference_union_distr_l_L, difference_diag_L, union_empty_l_L.
  now apply difference_disjoint_L, disjoint_singleton_r.
Qed.

Lemma elem_of_add c (s : gset conn) : c ∈ {[c]} ∪ s.
Proof. set_solver. Qed.

Lemma run_events_link_kept es w c :
  forallb (fun e => negb (registry_event e)) es = true ->
  is_Some (links w !! c) -> is_Some (links (websocket_server.run_events es w) !! c).
Proof.
  revert w. induction es as [|e es IH]; intros w Hes Hc; [exact Hc|].
  cbn in Hes. apply andb_prop in Hes as [He Hes].
  apply (IH (loop_event e w) Hes). apply loop_event_link_kept; [|exact Hc].
  now destruct (registry_event e).
Qed.

(** X2.  A connection that is accepted and later lost leaves the registry
    as it found it: while its handler runs the connection is registered and
    the registry is one larger; once the handler has left ([finally], lines
    51 to 54) the registry is the set it was before, whatever messages,
    congestion or broadcasts went on in between and however the iteration
    ended. *)
Theorem visit_restores_registry c between error w :
  registry_tracks_handlers w ->
  links w !! c = None ->
  forallb (fun e => negb (registry_event e)) between = true ->
  let inside := websocket_server.run_events (Accept c :: between) w in
  let after := websocket_server.run_events (visit c between error) w in
  c ∈ connected_clients inside /\
  size (connected_clients inside) = S (size (connected_clients w)) /\
  connected_clients after = connected_clients w /\
  links after !! c = None.
Proof.
  intros Hinv Hc Hbetween inside after.
  assert (Hnot : c ∉ connected_clients w).
  { unfold registry_tracks_handlers in Hinv. rewrite <- Hinv.
    now apply not_elem_of_dom. }
  set (w1 := loop_event (Accept c) w).
  assert (Hw1 : connected_clients w1 = {[c]} ∪ connected_clients w).
  { unfold w1. cbn [loop_event]. rewrite Hc. run_handler. reflexivity. }
  assert (Hl1 : is_Some (links w1 !! c)).
  { unfold w1. cbn [loop_event]. rewrite Hc. run_handler. cbn.
    rewrite lookup_insert_eq. eauto. }
  assert (Hin : connected_clients inside = {[c]} ∪ connected_clients w).
  { unfold inside. change (websocket_server.run_events (Accept c :: between) w)
      with (websocket_server.run_events between w1).
    rewrite run_events_clients by exact Hbetween. exact Hw1. }
  assert (Hlin : is_Some (links inside !! c)).
  { unfold inside. change (websocket_server.run_events (Accept c :: between) w)
      with (websocket_server.run_events between w1).
    now apply run_events_link_kept. }
  assert (Hafter : after = websocket_server.run_events [Lost c; HandlerExit c error] inside).
  { unfold after, inside, visit, websocket_server.run_events.
    change (Accept c :: between ++ [Lost c; HandlerExit c error])
      with ((Accept c :: between) ++ [Lost c; HandlerExit c error]).
    now rewrite fold_left_app. }
  clearbody inside after. subst after. clear w1 Hw1 Hl1.
  split; [rewrite Hin; apply elem_of_add|].
  split.
  { rewrite Hin, size_union by now apply disjoint_singleton_l.
    now rewrite size_singleton. }
  destruct Hlin as [l Hl].
  unfold websocket_server.run_events. cbn [fold_left loop_event]. rewrite Hl.
  cbn [links set_links]. rewrite lookup_insert_eq.
  unfold quiet, handler_exit, mbind, M_bind, mret, M_ret, logger, get_clients.
  assert (Hm : c ∈ connected_clients
                 (set_links (<[c:=Closed]> (links inside)) inside)).
  { cbn. rewrite Hin. apply elem_of_add. }
  destruct error.
  - cbn [set_log]. rewrite unregister_member by exact Hm. cbn.
    split; [rewrite Hin; now apply add_then_remove|]. apply lookup_delete_eq.
  - rewrite unregister_member by exact Hm. cbn.
    split; [rewrite Hin; now apply add_then_remove|]. apply lookup_delete_eq.
Qed.

(** A client connects to the listening server, says something, and goes. *)
Lemma visit_restores_registry_witness :
  connected_clients
    (websocket_server.run_events
       (visit 1%positive [Recv 1%positive "hello"%string; Tick] true) listening)
    = connected_clients listening.
Proof.
  apply (visit_restores_registry 1%positive [Recv 1%positive "hello"%string; Tick] true listening).
  - reflexivity.
  - reflexivity.
  - reflexivity.
Defined.

(* ===================================================================== *)
(** * Slow clients: what a congested transport does to a broadcast         *)
(* ===================================================================== *)

Lemma set_links_id w : set_links (links w) w = w.
Proof. now destruct w. Qed.

Lemma loop_event_drain c w :
  loop_event (Drain c) w = set_links (links (loop_event (Drain c) w)) w.
Proof.
  cbn [loop_event]. destruct (links w !! c) as [[]|]; cbn [links set_links];
    now rewrite ?set_links_id.
Qed.

Lemma drains_only_links cs w :
  websocket_server.run_events (Drain <$> cs) w =
    set_links (links (websocket_server.run_events (Drain <$> cs) w)) w.
Proof.
  revert w. induction cs as [|c cs IH]; intros w.
  - cbn. now rewrite set_links_id.
  - unfold websocket_server.run_events in *. cbn [fmap list_fmap fold_left].
    rewrite IH. rewrite (loop_event_drain c w) at 2. now destruct w.
Qed.

Lemma drain_keeps_open c x w :
  is_open w x = true -> is_open (loop_event (Drain c) w) x = true.
Proof.
  unfold is_open. cbn [loop_event]. intros H.
  destruct (links w !! c) as [[]|] eqn:E; try exact H. cbn.
  destruct (decide (x = c)) as [->|Hne].
  - now rewrite lookup_insert_eq.
  - now rewrite lookup_insert_ne by congruence.
Qed.

Lemma drain_opens c w :
  is_congested w c = true -> is_open (loop_event (Drain c) w) c = true.
Proof.
  unfold is_congested, is_open. cbn [loop_event]. intros H.
  destruct (links w !! c) as [[]|] eqn:E; try discriminate H. cbn.
  now rewrite lookup_insert_eq.
Qed.

Lemma drain_keeps_congested c x w :
  x <> c -> is_congested w x = true -> is_congested (loop_event (Drain c) w) x = true.
Proof.
  unfold is_congested. cbn [loop_event]. intros Hne H.
  destruct (links w !! c) as [[]|] eqn:E; try exact H. cbn.
  now rewrite lookup_insert_ne by congruence.
Qed.

Lemma drains_open cs x w :
  (x ∈ cs /\ is_congested w x = true) \/ is_open w x = true ->
  is_open (websocket_server.run_events (Drain <$> cs) w) x = true.
Proof.
  revert w. induction cs as [|c cs IH]; intros w H.
  - destruct H as [[H _]|H]; [now apply not_elem_of_nil in H | exact H].
  - unfold websocket_server.run_events in *. cbn [fmap list_fmap fold_left].
    apply IH. destruct H as [[Hx Hc]|H].
    + destruct (decide (x = c)) as [->|Hne].
      * right. now apply drain_opens.
      * left. split; [|now apply drain_keeps_congested].
        apply elem_of_cons in Hx as [Hx|Hx]; [contradiction | exact Hx].
    + right. now apply drain_keeps_open.
Qed.

(** The state of a link is one of the three. *)
Lemma link_cases w x :
  is_closed w x = false -> is_open w x = negb (is_congested w x).
Proof. unfold is_closed, is_open, is_congested. now destruct (links w !! x) as [[]|]. Qed.

Lemma open_congested_split w (l : list conn) :
  (forall x, x ∈ l -> is_closed w x = false) ->
  filter (fun x => is_open w x) l ++ filter (fun x => is_congested w x) l ≡ₚ l.
Proof.
  induction l as [|a l IH]; intros H; [reflexivity|].
  rewrite !filter_cons.
  assert (Ha : is_open w a = negb (is_congested w a)).
  { apply link_cases, H, list_elem_of_here. }
  assert (IH' := IH (fun x Hx => H x (list_elem_of_further _ _ _ Hx))).
  destruct (is_congested w a) eqn:E; cbn [negb] in Ha; rewrite Ha.
  - rewrite decide_False by (cbn; tauto). rewrite decide_True by exact I.
    rewrite <- Permutation_middle. now constructor.
  - rewrite decide_True by exact I. rewrite decide_False by (cbn; tauto).
    cbn. now constructor.
Qed.

(** The sends [tasks] run on the state in which the write buffers of
    [slow] have drained. *)
Lemma run_sends_drained message tasks w :
  (forall x, x ∈ tasks -> is_congested w x = true) ->
  let w1 := websocket_server.run_events (Drain <$> tasks) w in
  run_sends message tasks w1 = ([], [], set_frames (frames w ++ frames_to message tasks) w1).
Proof.
  intros Htasks w1. rewrite run_sends_spec.
  assert (Hopen : forall x, x ∈ tasks -> is_open w1 x = true).
  { intros x Hx. apply drains_open. left. split; [exact Hx | now apply Htasks]. }
  rewrite (filter_none (is_congested w1)), (filter_none (is_closed w1)).
  - unfold after_sends. rewrite (filter_all (is_open w1)) by exact Hopen.
    cbn [map]. unfold w1 at 1. rewrite drains_only_links. reflexivity.
  - intros x Hx. now apply is_open_not_closed, Hopen.
  - intros x Hx. now apply is_open_not_congested, Hopen.
Qed.

Lemma elem_of_filter_congested w x (l : list conn) :
  x ∈ filter (fun c => is_congested w c) l -> is_congested w x = true.
Proof. intros H. apply list_elem_of_filter in H as [H _]. now apply Is_true_true. Qed.

(** X3.  One slow client holds a broadcast back, not the other clients:
    with no registered transport closed and the write buffer of one full,
    the two turns of the loop deliver the frame to every client whose
    transport is open, the coroutine stays suspended in [asyncio.gather]
    (line 79) on the sends to the congested ones, nothing is returned and
    the success message of line 80 is not logged. *)
Theorem broadcast_waits_for_congested signal_data w c :
  coros w = [] ->
  next_fut_fresh w ->
  c ∈ connected_clients w ->
  is_congested w c = true ->
  (forall x, x ∈ connected_clients w -> is_closed w x = false) ->
  let message := Json.dumps signal_data in
  let tasks := elements (connected_clients w) in
  let w' := snd (broadcast_signal signal_data w) in
  fst (broadcast_signal signal_data w) = None /\
  frames w' = frames w ++ frames_to message (filter (fun x => is_open w x) tasks) /\
  coros w' = [Gather (next_fut w) message (filter (fun x => is_congested w x) tasks)] /\
  log w' = log w ++ [(INFO, Preparing message)].
Proof.
  intros Hidle Hfresh Hin Hslow Hnone message tasks w'. subst w'.
  assert (Hne : connected_clients w ≠ ∅).
  { intros Hempty. rewrite Hempty in Hin. now apply not_elem_of_empty in Hin. }
  rewrite broadcast_signal_nonempty by assumption. cbn zeta. fold tasks. fold message.
  rewrite (filter_none (is_closed w)).
  2:{ intros x Hx. apply Hnone. now apply elem_of_elements. }
  destruct (filter (fun x => is_congested w x) tasks) as [|s slow] eqn:Hs.
  - exfalso. assert (Hc : c ∈ filter (fun x => is_congested w x) tasks).
    { apply list_elem_of_filter. split; [now rewrite Hslow | now apply elem_of_elements]. }
    rewrite Hs in Hc. now apply not_elem_of_nil in Hc.
  - cbn [map broadcast_signal_resume fst snd]. unfold after_sends. cbn.
    split; [exact Hfresh|]. repeat split.
Qed.

(** One client of three is slow. *)
Lemma broadcast_waits_for_congested_witness :
  fst (broadcast_signal test_signal one_slow) = None /\
  map fst (frames (snd (broadcast_signal test_signal one_slow))) = [3; 1]%positive.
Proof.
  destruct (broadcast_waits_for_congested test_signal one_slow 2%positive) as (H1 & H2 & _).
  - reflexivity.
  - reflexivity.
  - apply (bool_decide_unpack _). vm_compute. exact I.
  - reflexivity.
  - intros x Hx.
    assert (E : elements (connected_clients one_slow) = [3; 2; 1]%positive)
      by (vm_compute; reflexivity).
    assert (Hx' : x ∈ [3; 2; 1]%positive) by (rewrite <- E; now apply elem_of_elements).
    clear Hx E. rename Hx' into Hx.
    repeat (apply elem_of_cons in Hx as [->|Hx]; [reflexivity|]).
    now apply not_elem_of_nil in Hx.
  - split; [exact H1|]. rewrite H2. reflexivity.
Defined.

Lemma tick_after_drain_gather fut message slow w :
  coros w = [Gather fut message slow] ->
  (forall x, x ∈ slow -> is_congested w x = true) ->
  let wd := websocket_server.run_events (Drain <$> slow) w in
  tick wd =
    set_coros []
      (set_result fut (Return tt)
         (set_log (log w ++ [(INFO, Broadcasted (size (connected_clients w)))])
            (set_frames (frames w ++ frames_to message slow) wd))).
Proof.
  intros Hc Hslow wd.
  assert (Hcd : coros wd = [Gather fut message slow]).
  { unfold wd. rewrite drains_only_links. exact Hc. }
  rewrite (tick_cons _ _ _ Hcd). cbn [run_coro].
  pose proof (run_sends_drained message slow w Hslow) as Hrun. cbn zeta in Hrun.
  fold wd in Hrun. rewrite Hrun. cbn [broadcast_signal_resume run_coros fst snd app].
  unfold wd. rewrite drains_only_links. reflexivity.
Qed.

Lemma tick_after_drain_detached message slow w :
  coros w = [Detached message slow] ->
  (forall x, x ∈ slow -> is_congested w x = true) ->
  let wd := websocket_server.run_events (Drain <$> slow) w in
  tick wd = set_coros [] (set_frames (frames w ++ frames_to message slow) wd).
Proof.
  intros Hc Hslow wd.
  assert (Hcd : coros wd = [Detached message slow]).
  { unfold wd. rewrite drains_only_links. exact Hc. }
  rewrite (tick_cons _ _ _ Hcd). cbn [run_coro].
  pose proof (run_sends_drained message slow w Hslow) as Hrun. cbn zeta in Hrun.
  fold wd in Hrun. rewrite Hrun. cbn [detach run_coros fst snd app]. reflexivity.
Qed.

Lemma run_events_app es es' w :
  websocket_server.run_events (es ++ es') w =
    websocket_server.run_events es' (websocket_server.run_events es w).
Proof. unfold websocket_server.run_events. apply fold_left_app. Qed.

(** X4.  A broadcast held back by slow clients completes once their write
    buffers drain: with no registered transport closed, after the drains
    and one more turn of the loop the coroutine has returned [None], no
    task is left, the success message of line 80 is logged, and every
    connection that was registered when the broadcast started has got the
    message exactly once. *)
Theorem broadcast_completes_when_drained signal_data w c :
  coros w = [] ->
  c ∈ connected_clients w ->
  (forall x, x ∈ connected_clients w -> is_closed w x = false) ->
  let message := Json.dumps signal_data in
  let tasks := elements (connected_clients w) in
  let slow := filter (fun x => is_congested w x) tasks in
  let w1 := snd (broadcast_signal signal_data w) in
  let w2 := websocket_server.run_events ((Drain <$> slow) ++ [Tick]) w1 in
  results w2 !! next_fut w = Some (Return tt) /\
  coros w2 = [] /\
  frames w2 = frames w1 ++ frames_to message slow /\
  (exists delivered,
     frames w2 = frames w ++ delivered /\
     map fst delivered ≡ₚ tasks /\
     forall f, f ∈ delivered -> snd f = message) /\
  last (log w2) = Some (INFO, Broadcasted (size (connected_clients w))).
Proof.
  intros Hidle Hin Hnone message tasks slow w1 w2.
  assert (Hne : connected_clients w ≠ ∅).
  { intros Hempty. rewrite Hempty in Hin. now apply not_elem_of_empty in Hin. }
  assert (Hperm : map fst (frames_to message (filter (fun x => is_open w x) tasks)
                           ++ frames_to message slow) ≡ₚ tasks).
  { rewrite map_app, !frames_to_recipients. apply open_congested_split.
    intros x Hx. apply Hnone. now apply elem_of_elements. }
  assert (Hmsg : forall f, f ∈ frames_to message (filter (fun x => is_open w x) tasks)
                               ++ frames_to message slow -> snd f = message).
  { intros [x m] Hf. apply elem_of_app in Hf as [Hf|Hf];
      apply elem_of_frames_to in Hf as [_ ->]; reflexivity. }
  assert (Hw1 : w1 = snd (broadcast_signal signal_data w)) by reflexivity.
  rewrite broadcast_signal_nonempty in Hw1 by assumption. cbn zeta in Hw1.
  fold message in Hw1. fold tasks in Hw1. fold slow in Hw1.
  rewrite (filter_none (is_closed w)) in Hw1.
  2:{ intros x Hx. apply Hnone. now apply elem_of_elements. }
  unfold w2. rewrite run_events_app. clear w2. clearbody w1.
  assert (Hcong : forall x, x ∈ slow -> is_congested w x = true).
  { intros x Hx. now apply elem_of_filter_congested in Hx. }
  clearbody slow.
  destruct slow as [|s slow'] eqn:Hs.
  - cbn [map broadcast_signal_resume fst snd] in Hw1.
    change (websocket_server.run_events (Drain <$> []) w1) with w1.
    change (websocket_server.run_events [Tick] w1) with (tick w1).
    rewrite tick_nil by (rewrite Hw1; reflexivity).
    rewrite Hw1. unfold after_sends. cbn. rewrite lookup_insert_eq, !app_nil_r.
    split; [reflexivity|]. split; [reflexivity|]. split; [reflexivity|].
    split; [|now rewrite last_snoc].
    eexists. split; [reflexivity|]. split.
    + rewrite app_nil_r in Hperm. exact Hperm.
    + intros f Hf. apply Hmsg. rewrite app_nil_r. exact Hf.
  - rewrite <- Hs in *. cbn [map] in Hw1.
    assert (Hw1' : w1 = set_coros [Gather (next_fut w) message slow]
                          (after_sends message tasks
                             (set_log (log w ++ [(INFO, Preparing message)])
                                (set_next_fut (S (next_fut w)) w)))).
    { rewrite Hw1, Hs. reflexivity. }
    clear Hw1.
    assert (Hslow : forall x, x ∈ slow -> is_congested w1 x = true).
    { intros x Hx. rewrite Hw1'. now apply Hcong. }
    assert (Hc1 : coros w1 = [Gather (next_fut w) message slow]) by now rewrite Hw1'.
    change (websocket_server.run_events [Tick] ?x) with (tick x).
    rewrite (tick_after_drain_gather _ _ _ _ Hc1 Hslow).
    cbn. rewrite lookup_insert_eq. split; [reflexivity|]. split; [reflexivity|].
    split; [reflexivity|]. split.
    + exists (frames_to message (filter (fun x => is_open w x) tasks)
              ++ frames_to message slow).
      split; [|split; [exact Hperm | exact Hmsg]].
      rewrite Hw1'. unfold after_sends. cbn. now rewrite app_assoc.
    + rewrite Hw1'. cbn. now rewrite last_snoc.
Qed.

(** The slow client of three drains. *)
Lemma broadcast_completes_when_drained_witness :
  let w2 := websocket_server.run_events [Drain 2%positive; Tick]
              (snd (broadcast_signal test_signal one_slow)) in
  results w2 !! 0 = Some (Return tt) /\ coros w2 = [].
Proof.
  destruct (broadcast_completes_when_drained test_signal one_slow 2%positive)
    as (H1 & H2 & _).
  - reflexivity.
  - apply (bool_decide_unpack _). vm_compute. exact I.
  - intros x Hx.
    assert (E : elements (connected_clients one_slow) = [3; 2; 1]%positive)
      by (vm_compute; reflexivity).
    assert (Hx' : x ∈ [3; 2; 1]%positive) by (rewrite <- E; now apply elem_of_elements).
    clear Hx E. rename Hx' into Hx.
    repeat (apply elem_of_cons in Hx as [->|Hx]; [reflexivity|]).
    now apply not_elem_of_nil in Hx.
  - split; [exact H1 | exact H2].
Defined.

(** X5.  [asyncio.gather] (line 79, without [return_exceptions]) does not
    cancel the other sends when one fails: a broadcast that raised
    [ConnectionClosed] because of a closed transport still delivers the
    frame to the slow clients once their write buffers drain, after the
    failure was reported; the result stays the exception and the success
    message of line 80 is never logged. *)
Theorem failed_broadcast_still_reaches_slow_clients signal_data w c :
  coros w = [] ->
  c ∈ connected_clients w ->
  is_closed w c = true ->
  let message := Json.dumps signal_data in
  let tasks := elements (connected_clients w) in
  let slow := filter (fun x => is_congested w x) tasks in
  let w1 := snd (broadcast_signal signal_data w) in
  let w2 := websocket_server.run_events ((Drain <$> slow) ++ [Tick]) w1 in
  (exists c', fst (broadcast_signal signal_data w) = Some (Raise (ConnectionClosed c')) /\
              results w2 !! next_fut w = Some (Raise (ConnectionClosed c'))) /\
  coros w1 = detach message slow /\
  frames w2 = frames w1 ++ frames_to message slow /\
  coros w2 = [] /\
  log w2 = log w ++ [(INFO, Preparing message)].
Proof.
  intros Hidle Hin Hclosed message tasks slow w1 w2.
  assert (Hne : connected_clients w ≠ ∅).
  { intros Hempty. rewrite Hempty in Hin. now apply not_elem_of_empty in Hin. }
  destruct (filter (fun x => is_closed w x) tasks) as [|c' failed] eqn:Hfailed.
  { exfalso. assert (Hc : c ∈ filter (fun x => is_closed w x) tasks).
    { apply list_elem_of_filter. split; [now rewrite Hclosed | now apply elem_of_elements]. }
    rewrite Hfailed in Hc. now apply not_elem_of_nil in Hc. }
  assert (Hres : fst (broadcast_signal signal_data w) = Some (Raise (ConnectionClosed c'))).
  { rewrite broadcast_signal_nonempty by assumption. cbn zeta.
    fold message. fold tasks. rewrite Hfailed.
    cbn [map broadcast_signal_resume fst snd]. cbn. now rewrite lookup_insert_eq. }
  assert (Hw1 : w1 = snd (broadcast_signal signal_data w)) by reflexivity.
  rewrite broadcast_signal_nonempty in Hw1 by assumption. cbn zeta in Hw1.
  fold message in Hw1. fold tasks in Hw1. fold slow in Hw1. rewrite Hfailed in Hw1.
  cbn [map broadcast_signal_resume fst snd] in Hw1.
  unfold w2. rewrite run_events_app. clear w2. clearbody w1.
  assert (Hcong : forall x, x ∈ slow -> is_congested w x = true).
  { intros x Hx. now apply elem_of_filter_congested in Hx. }
  clearbody slow.
  change (websocket_server.run_events [Tick] ?x) with (tick x).
  destruct slow as [|s slow'] eqn:Hs.
  - change (websocket_server.run_events (Drain <$> []) w1) with w1.
    rewrite tick_nil by (rewrite Hw1; reflexivity).
    split.
    { exists c'. split; [exact Hres|]. rewrite Hw1. cbn. now rewrite lookup_insert_eq. }
    rewrite Hw1. cbn. now rewrite app_nil_r.
  - rewrite <- Hs in *.
    assert (Hc1 : coros w1 = [Detached message slow]) by (rewrite Hw1, Hs; reflexivity).
    assert (Hslow : forall x, x ∈ slow -> is_congested w1 x = true).
    { intros x Hx. rewrite Hw1. now apply Hcong. }
    rewrite (tick_after_drain_detached _ _ _ Hc1 Hslow).
    split.
    { exists c'. split; [exact Hres|]. cbn. rewrite drains_only_links, Hw1. cbn.
      now rewrite lookup_insert_eq. }
    split; [rewrite Hc1, Hs; reflexivity|].
    cbn. split; [reflexivity|]. split; [reflexivity|].
    rewrite drains_only_links, Hw1. reflexivity.
Qed.

(** One client of three is gone, another is slow. *)
Lemma failed_broadcast_still_reaches_slow_clients_witness :
  let w1 := snd (broadcast_signal test_signal lost_and_slow) in
  let w2 := websocket_server.run_events [Drain 3%positive; Tick] w1 in
  map fst (frames w1) = [1%positive] /\
  map fst (frames w2) = [1; 3]%positive.
Proof.
  destruct (failed_broadcast_still_reaches_slow_clients test_signal lost_and_slow 2%positive)
    as (_ & _ & H & _).
  - reflexivity.
  - apply (bool_decide_unpack _). vm_compute. exact I.
  - reflexivity.
  - split; [reflexivity|]. cbn zeta in H.
    change (filter (λ x, is_congested lost_and_slow x) (elements (connected_clients lost_and_slow)))
      with [3%positive] in H.
    cbn [fmap list_fmap app] in H. rewrite H. reflexivity.
Defined.

(* ===================================================================== *)
(** * Two broadcasts in a row                                              *)
(* ===================================================================== *)

Lemma run_coro_gather_all_open fut message tasks w :
  (forall x, x ∈ tasks -> is_open w x = true) ->
  run_coro (Gather fut message tasks) w =
    ([], set_result fut (Return tt)
           (set_log (log w ++ [(INFO, Broadcasted (size (connected_clients w)))])
              (set_frames (frames w ++ frames_to message tasks) w))).
Proof.
  intros Hall. rewrite run_coro_gather.
  rewrite (filter_none (is_congested w)), (filter_none (is_closed w)).
  - unfold after_sends. rewrite (filter_all (is_open w)) by exact Hall. reflexivity.
  - intros x Hx. now apply is_open_not_closed, Hall.
  - intros x Hx. now apply is_open_not_congested, Hall.
Qed.

Lemma filter_frames_to_other c message (cs : list conn) :
  c ∉ cs -> filter (fun f => fst f = c) (frames_to message cs) = [].
Proof.
  induction cs as [|a cs IH]; intros Hc; [reflexivity|].
  apply not_elem_of_cons in Hc as [Hne Hc]. cbn [frames_to fmap list_fmap].
  rewrite filter_cons. rewrite decide_False by (cbn; congruence). now apply IH.
Qed.

Lemma filter_frames_to_member c message (cs : list conn) :
  NoDup cs -> c ∈ cs -> filter (fun f => fst f = c) (frames_to message cs) = [(c, message)].
Proof.
  induction cs as [|a cs IH]; intros Hnd Hc; [now apply not_elem_of_nil in Hc|].
  apply NoDup_cons in Hnd as [Ha Hnd]. cbn [frames_to fmap list_fmap].
  rewrite filter_cons. destruct (decide (a = c)) as [->|Hne].
  - rewrite decide_True by reflexivity. f_equal. now apply filter_frames_to_other.
  - rewrite decide_False by (cbn; congruence). apply IH; [exact Hnd|].
    apply elem_of_cons in Hc as [Hc|Hc]; [congruence | exact Hc].
Qed.

(** X6.  Two broadcasts scheduled one after the other, all transports
    open: the loop creates the send tasks of the first before those of the
    second, so every registered client gets the first message and then the
    second, each once, and both coroutines return [None]. *)
Theorem broadcasts_delivered_in_order first second w :
  coros w = [] ->
  forallb (is_open w) (elements (connected_clients w)) = true ->
  let tasks := elements (connected_clients w) in
  let w' := websocket_server.run_events [Tick; Tick]
              (snd (submit second (snd (submit first w)))) in
  frames w' = frames w ++ frames_to (Json.dumps first) tasks
                       ++ frames_to (Json.dumps second) tasks /\
  (forall c, c ∈ connected_clients w ->
     filter (fun f => fst f = c) (drop (length (frames w)) (frames w'))
       = [(c, Json.dumps first); (c, Json.dumps second)]) /\
  results w' !! next_fut w = Some (Return tt) /\
  results w' !! S (next_fut w) = Some (Return tt) /\
  coros w' = [].
Proof.
  intros Hidle Hopen tasks w'.
  assert (Hall : forall c, c ∈ tasks -> is_open w c = true).
  { intros c Hc. rewrite forallb_forall in Hopen. apply Hopen. now apply list_elem_of_In. }
  assert (Hw' : frames w' = frames w ++ frames_to (Json.dumps first) tasks
                                  ++ frames_to (Json.dumps second) tasks /\
                results w' !! next_fut w = Some (Return tt) /\
                results w' !! S (next_fut w) = Some (Return tt) /\
                coros w' = []).
  { unfold w'. clear w'.
    set (w2 := snd (submit second (snd (submit first w)))).
    assert (Hc2 : coros w2 = [Broadcast (next_fut w) first;
                              Broadcast (S (next_fut w)) second]).
    { unfold w2, submit. cbn. now rewrite Hidle. }
    change (websocket_server.run_events [Tick; Tick] w2) with (tick (tick w2)).
    rewrite (tick_cons _ _ w2 Hc2).
    cbn [run_coro run_coros]. unfold broadcast_signal_start. subst w2. unfold submit.
    cbn [snd connected_clients set_next_fut set_coros set_log set_result set_results].
    destruct (decide (connected_clients w = ∅)) as [Hempty|Hne].
    - rewrite !bool_decide_eq_true_2 by exact Hempty. cbn.
      rewrite ?bool_decide_eq_true_2 by exact Hempty. cbn.
      unfold tick. cbn. unfold tasks. rewrite Hempty, elements_empty. cbn.
      rewrite app_nil_r, lookup_insert_eq.
      rewrite lookup_insert_ne by lia. rewrite lookup_insert_eq. repeat split.
    - rewrite !bool_decide_eq_false_2 by exact Hne. cbn.
      rewrite ?bool_decide_eq_false_2 by exact Hne. cbn.
      fold tasks.
      match goal with |- context [tick ?x] => set (w3 := x) end.
      assert (Hc3 : coros w3 = [Gather (next_fut w) (Json.dumps first) tasks;
                                Gather (S (next_fut w)) (Json.dumps second) tasks])
        by reflexivity.
      rewrite (tick_cons _ _ w3 Hc3).
      rewrite run_coro_gather_all_open by exact Hall.
      cbn [run_coros fst snd].
      rewrite run_coro_gather_all_open by exact Hall.
      cbn. rewrite lookup_insert_eq.
      rewrite lookup_insert_ne by lia. rewrite lookup_insert_eq.
      rewrite <- app_assoc. repeat split. }
  destruct Hw' as (Hf & H1 & H2 & Hc).
  split; [exact Hf|]. split; [|now repeat split].
  intros c Hin. rewrite Hf, drop_app_length, filter_app.
  assert (Hc' : c ∈ tasks) by now apply elem_of_elements.
  rewrite !filter_frames_to_member; try exact Hc'; try apply NoDup_elements.
  reflexivity.
Qed.

(** A second signal after the test signal, three clients. *)
Lemma broadcasts_delivered_in_order_witness :
  map fst (frames (websocket_server.run_events [Tick; Tick]
                     (snd (submit [] (snd (submit test_signal three_clients))))))
    = [3; 2; 1; 3; 2; 1]%positive.
Proof.
  destruct (broadcasts_delivered_in_order test_signal [] three_clients) as (H & _).
  - reflexivity.
  - reflexivity.
  - cbn zeta in H. rewrite H. reflexivity.
Defined.

(* ===================================================================== *)
(** * The engine: what [broadcast_signal_sync] tells its caller            *)
(* ===================================================================== *)

Lemma wait_result_ready fut window w r :
  results w !! fut = Some r -> wait_result fut window w = (Some r, w).
Proof. intros H. destruct window; cbn [wait_result]; now rewrite H. Qed.

Lemma broadcast_signal_ticks signal_data w :
  broadcast_signal signal_data w =
    (results (tick (tick (snd (submit signal_data w)))) !! next_fut w,
     tick (tick (snd (submit signal_data w)))).
Proof. reflexivity. Qed.

(** With the loop to itself, the two turns of a broadcast are the first two
    events of the window, and the waiting thread takes the result then. *)
Lemma wait_result_two_ticks signal_data w rest r :
  coros w = [] ->
  next_fut_fresh w ->
  fst (broadcast_signal signal_data w) = Some r ->
  wait_result (next_fut w) (Tick :: Tick :: rest) (snd (submit signal_data w))
    = (Some r, snd (broadcast_signal signal_data w)).
Proof.
  intros Hidle Hfresh Hr. rewrite broadcast_signal_ticks in *. cbn [fst snd] in *.
  set (s1 := snd (submit signal_data w)) in *.
  assert (H1 : results s1 !! next_fut w = None) by exact Hfresh.
  cbn [wait_result]. rewrite H1. cbn [loop_event].
  destruct (results (tick s1) !! next_fut w) as [r1|] eqn:E1.
  - assert (Hc : coros (tick s1) = []).
    { unfold s1. rewrite tick_submit by exact Hidle. cbn zeta.
      unfold s1 in E1. rewrite tick_submit in E1 by exact Hidle. cbn zeta in E1.
      case_bool_decide; [exact Hidle|]. cbn in E1. unfold next_fut_fresh in Hfresh.
      congruence. }
    rewrite (tick_nil _ Hc) in Hr |- *. congruence.
  - now apply wait_result_ready.
Qed.

Lemma broadcast_signal_sync_two_ticks signal_data window self ws r :
  main_engine.async_loop self = Some main_engine.LoopRunning ->
  main_engine.ws_server self = Some ws ->
  coros ws = [] ->
  next_fut_fresh ws ->
  fst (broadcast_signal signal_data ws) = Some r ->
  main_engine.broadcast_signal_sync signal_data (Tick :: Tick :: window) self =
    (Return tt,
     let self' := main_engine.set_ws_server (Some (snd (broadcast_signal signal_data ws))) self in
     match r with
     | Return _ => self'
     | Raise e => main_engine.elogger ERROR (main_engine.BroadcastError e) self'
     end).
Proof.
  intros Hloop Hws Hidle Hfresh Hr.
  unfold main_engine.broadcast_signal_sync. rewrite Hloop.
  unfold main_engine.broadcast_signal. rewrite Hws.
  change (submit signal_data ws) with (next_fut ws, snd (submit signal_data ws)).
  cbn iota beta. unfold main_engine.future_result.
  cbn [main_engine.ws_server main_engine.set_ws_server].
  rewrite (wait_result_two_ticks _ _ _ _ Hidle Hfresh Hr).
  destruct r as [[]|e]; reflexivity.
Qed.

(** X7.  [broadcast_signal_sync] on a serving engine whose clients all have
    open transports: the calling thread gets [None] back as soon as the two
    turns of the loop are over, without waiting for the rest of the five
    seconds; every registered client has got the frame, which decodes to
    the signal; nothing is written to the engine's log. *)
Theorem broadcast_signal_sync_delivers signal_data window self ws :
  main_engine.async_loop self = Some main_engine.LoopRunning ->
  main_engine.ws_server self = Some ws ->
  coros ws = [] ->
  next_fut_fresh ws ->
  forallb (is_open ws) (elements (connected_clients ws)) = true ->
  Json.signal_ok signal_data = true ->
  let r := main_engine.broadcast_signal_sync signal_data (Tick :: Tick :: window) self in
  fst r = Return tt /\
  main_engine.elog (snd r) = main_engine.elog self /\
  main_engine.active (snd r) = main_engine.active self /\
  exists ws',
    main_engine.ws_server (snd r) = Some ws' /\
    frames ws' = frames ws ++ frames_to (Json.dumps signal_data) (elements (connected_clients ws)) /\
    Json.loads (Json.dumps signal_data) = Some signal_data /\
    websocket_server.log ws' =
      websocket_server.log ws ++
        if bool_decide (connected_clients ws = ∅) then [(WARNING, NoClients)]
        else [(INFO, Preparing (Json.dumps signal_data));
              (INFO, Broadcasted (size (connected_clients ws)))].
Proof.
  intros Hloop Hws Hidle Hfresh Hopen Hok r.
  assert (Hall : forall c, c ∈ elements (connected_clients ws) -> is_open ws c = true).
  { intros c Hc. rewrite forallb_forall in Hopen. apply Hopen. now apply list_elem_of_In. }
  assert (Hb : fst (broadcast_signal signal_data ws) = Some (Return tt) /\
               frames (snd (broadcast_signal signal_data ws)) =
                 frames ws ++ frames_to (Json.dumps signal_data)
                                (elements (connected_clients ws)) /\
               websocket_server.log (snd (broadcast_signal signal_data ws)) =
                 websocket_server.log ws ++
                 if bool_decide (connected_clients ws = ∅) then [(WARNING, NoClients)]
                 else [(INFO, Preparing (Json.dumps signal_data));
                       (INFO, Broadcasted (size (connected_clients ws)))]).
  { destruct (decide (connected_clients ws = ∅)) as [Hempty|Hne].
    - rewrite broadcast_signal_empty by assumption. cbn.
      rewrite bool_decide_eq_true_2 by exact Hempty.
      rewrite Hempty, elements_empty. cbn. now rewrite app_nil_r.
    - rewrite broadcast_signal_nonempty by assumption. cbn zeta.
      rewrite bool_decide_eq_false_2 by exact Hne.
      unfold after_sends.
      rewrite (filter_none (is_congested ws)), (filter_none (is_closed ws)),
        (filter_all (is_open _)).
      + cbn. rewrite lookup_insert_eq, <- app_assoc. repeat split.
      + exact Hall.
      + intros c Hc. now apply is_open_not_closed, Hall.
      + intros c Hc. now apply is_open_not_congested, Hall. }
  destruct Hb as (Hr & Hf & Hl). unfold r.
  rewrite (broadcast_signal_sync_two_ticks _ _ _ _ _ Hloop Hws Hidle Hfresh Hr).
  cbn. repeat split. eexists. split; [reflexivity|]. split; [exact Hf|].
  split; [now apply JsonFacts.loads_dumps | exact Hl].
Qed.

(** The serving engine, with the rest of the five seconds left over. *)
Lemma broadcast_signal_sync_delivers_witness :
  fst (main_engine.broadcast_signal_sync test_signal
         [Tick; Tick; Accept 2%positive; Tick] serving) = Return tt /\
  main_engine.elog
    (snd (main_engine.broadcast_signal_sync test_signal
            [Tick; Tick; Accept 2%positive; Tick] serving))
    = main_engine.elog serving.
Proof.
  destruct (broadcast_signal_sync_delivers test_signal [Accept 2%positive; Tick] serving
              (websocket_server.loop_event (Accept 1%positive) listening))
    as (H1 & H2 & _).
  - reflexivity.
  - reflexivity.
  - reflexivity.
  - reflexivity.
  - reflexivity.
  - reflexivity.
  - split; [exact H1 | exact H2].
Defined.

(** X8.  When the transport of a registered client is closed, the
    [ConnectionClosed] that [broadcast_signal] raises reaches the second
    [except] clause of [broadcast_signal_sync] (line 123): the caller gets
    [None] as on success, the only trace is the ERROR entry of line 124 in
    the engine's log, the open clients have their frame and the closed
    client stays registered. *)
Theorem broadcast_signal_sync_logs_send_failure signal_data window self ws c :
  main_engine.async_loop self = Some main_engine.LoopRunning ->
  main_engine.ws_server self = Some ws ->
  coros ws = [] ->
  next_fut_fresh ws ->
  c ∈ connected_clients ws ->
  is_closed ws c = true ->
  let r := main_engine.broadcast_signal_sync signal_data (Tick :: Tick :: window) self in
  fst r = Return tt /\
  exists c' ws',
    c' ∈ connected_clients ws /\ is_closed ws c' = true /\
    main_engine.elog (snd r) =
      main_engine.elog self ++ [(ERROR, main_engine.BroadcastError (ConnectionClosed c'))] /\
    main_engine.ws_server (snd r) = Some ws' /\
    connected_clients ws' = connected_clients ws /\
    frames ws' = frames ws ++
      frames_to (Json.dumps signal_data)
        (filter (fun x => is_open ws x) (elements (connected_clients ws))).
Proof.
  intros Hloop Hws Hidle Hfresh Hin Hclosed r.
  assert (Hne : connected_clients ws ≠ ∅).
  { intros Hempty. rewrite Hempty in Hin. now apply not_elem_of_empty in Hin. }
  destruct (filter (fun x => is_closed ws x) (elements (connected_clients ws)))
    as [|c' failed] eqn:Hfailed.
  { exfalso.
    assert (Hc : c ∈ filter (fun x => is_closed ws x) (elements (connected_clients ws))).
    { apply list_elem_of_filter. split; [now rewrite Hclosed | now apply elem_of_elements]. }
    rewrite Hfailed in Hc. now apply not_elem_of_nil in Hc. }
  assert (Hc' : c' ∈ filter (fun x => is_closed ws x) (elements (connected_clients ws))).
  { rewrite Hfailed. apply list_elem_of_here. }
  apply list_elem_of_filter in Hc' as [Hc'1 Hc'2].
  assert (Hb : fst (broadcast_signal signal_data ws) = Some (Raise (ConnectionClosed c')) /\
               connected_clients (snd (broadcast_signal signal_data ws)) = connected_clients ws /\
               frames (snd (broadcast_signal signal_data ws)) =
                 frames ws ++ frames_to (Json.dumps signal_data)
                   (filter (fun x => is_open ws x) (elements (connected_clients ws)))).
  { rewrite broadcast_signal_nonempty by assumption. cbn zeta. rewrite Hfailed.
    cbn [map broadcast_signal_resume fst snd]. unfold after_sends. cbn.
    rewrite lookup_insert_eq. repeat split. }
  destruct Hb as (Hr & Hreg & Hf). unfold r.
  rewrite (broadcast_signal_sync_two_ticks _ _ _ _ _ Hloop Hws Hidle Hfresh Hr).
  cbn. split; [reflexivity|]. exists c'. eexists.
  split; [now apply elem_of_elements|]. split; [now apply Is_true_true|].
  split; [reflexivity|]. split; [reflexivity|]. split; [exact Hreg | exact Hf].
Qed.

(** The serving engine after its one client is gone. *)
Lemma broadcast_signal_sync_logs_send_failure_witness :
  let gone := main_engine.loop_event (Lost 1%positive) serving in
  fst (main_engine.broadcast_signal_sync test_signal [Tick; Tick] gone) = Return tt.
Proof.
  destruct (broadcast_signal_sync_logs_send_failure test_signal []
              (main_engine.loop_event (Lost 1%positive) serving)
              (websocket_server.run_events [Accept 1%positive; Lost 1%positive] listening)
              1%positive) as (H & _).
  - reflexivity.
  - reflexivity.
  - reflexivity.
  - reflexivity.
  - apply (bool_decide_unpack _). vm_compute. exact I.
  - reflexivity.
  - exact H.
Defined.

(* ===================================================================== *)
(** * The engine: a server that could not start                            *)
(* ===================================================================== *)

(** X9.  When [websockets.serve] fails in the server thread, [start] has
    returned normally all the same: the engine is marked active and logs
    that it started, while the thread has logged the error (line 67),
    cancelled the tasks, closed the loop and ended.  [self.async_loop]
    still refers to the closed loop, so every later
    [broadcast_signal_sync] raises [RuntimeError] to its caller (line 117
    stands before the [try]) and changes nothing. *)
Theorem failed_startup_closes_loop self ws :
  main_engine.active self = false ->
  main_engine.ws_server self = Some ws ->
  let e := main_engine.run_async_in_thread false (main_engine.start self) in
  main_engine.active e = true /\
  main_engine.async_loop e = Some main_engine.LoopClosed /\
  main_engine.async_thread e = Some (main_engine.mkThread true false) /\
  main_engine.ws_server e =
    Some (set_coros [] (set_log (websocket_server.log ws ++ [(INFO, Starting)]) ws)) /\
  main_engine.elog e =
    main_engine.elog self ++
      [(INFO, main_engine.EngineStarting); (INFO, main_engine.ThreadStarted);
       (INFO, main_engine.EngineStarted); (ERROR, main_engine.AsyncError OSError);
       (INFO, main_engine.LoopClosedMsg)] /\
  forall signal_data window,
    main_engine.broadcast_signal_sync signal_data window e = (Raise RuntimeError, e).
Proof.
  intros Hactive Hws e. unfold e, main_engine.start. rewrite Hactive.
  unfold main_engine.run_async_in_thread, main_engine._start_async_components.
  cbn [main_engine.async_thread main_engine.ws_server main_engine.elogger
       main_engine.set_active main_engine.set_async_thread].
  rewrite Hws. unfold start_server, mbind, M_bind, logger, raise. cbn.
  rewrite <- !app_assoc. repeat split.
Qed.

Lemma failed_startup_closes_loop_witness :
  main_engine.active failed_startup = true /\
  main_engine.async_loop failed_startup = Some main_engine.LoopClosed.
Proof.
  destruct (failed_startup_closes_loop main_engine.init websocket_server.init)
    as (H1 & H2 & _).
  - reflexivity.
  - reflexivity.
  - split; [exact H1 | exact H2].
Defined.

(* ===================================================================== *)
(** * The console                                                          *)
(* ===================================================================== *)

Lemma console_listener_step_other command window st :
  is_test_signal command = false ->
  run_server.console_listener_step command window st =
    (Return tt,
     if run_server.stop_event st then st
     else match command with
          | None => run_server.set_stop_event st
          | Some c =>
              if ends_console command
              then run_server.set_stop_event (run_server.print run_server.ShuttingDown st)
              else if String.eqb c "help" then run_server.print run_server.HelpText st
              else run_server.print (run_server.UnknownCommand c) st
          end).
Proof.
  intros Hc. unfold run_server.console_listener_step.
  destruct (run_server.stop_event st); [reflexivity|].
  destruct command as [c|]; [|reflexivity]. cbn [is_test_signal ends_console] in *.
  destruct (String.eqb c "exit" || String.eqb c "quit")%bool; [reflexivity|].
  destruct (String.eqb c "help"); [reflexivity|]. now rewrite Hc.
Qed.

(** X10.  Whatever is typed, as long as it is not [test_signal]: the
    console thread never ends with an exception and never touches the
    engine; it leaves its loop exactly when the stop flag was set or one of
    [exit], [quit] or the end of input was read, and then the flag is
    set; otherwise it is back in [input()] with the flag unset. *)
Theorem console_commands_leave_engine inputs st :
  forallb (fun i => negb (is_test_signal (fst i))) inputs = true ->
  let stops := (run_server.stop_event st || existsb (fun i => ends_console (fst i)) inputs)%bool in
  let r := run_server.console_listener inputs st in
  fst r = (if stops then run_server.Finished else run_server.Reading) /\
  run_server.stop_event (snd r) = stops /\
  run_server.engine (snd r) = run_server.engine st.
Proof.
  revert st. induction inputs as [|[command window] inputs IH]; intros st Hin.
  - cbn. destruct (run_server.stop_event st) eqn:E; cbn; rewrite ?E; repeat split.
    all: now rewrite ?E.
  - cbn [forallb fst] in Hin. apply andb_prop in Hin as [Hc Hin].
    apply negb_true_iff in Hc. cbn [run_server.console_listener existsb fst].
    destruct (run_server.stop_event st) eqn:E; [cbn; rewrite E; repeat split|].
    rewrite (console_listener_step_other _ _ _ Hc). rewrite E.
    cbn [orb].
    destruct command as [c|].
    + destruct (ends_console (Some c)) eqn:Hend.
      * specialize (IH (run_server.set_stop_event
                          (run_server.print run_server.ShuttingDown st)) Hin).
        cbn [orb run_server.stop_event run_server.set_stop_event] in IH. exact IH.
      * cbn [orb]. destruct (String.eqb c "help").
        -- specialize (IH (run_server.print run_server.HelpText st) Hin).
           cbn [run_server.stop_event run_server.print run_server.engine] in IH.
           rewrite E in IH. exact IH.
        -- specialize (IH (run_server.print (run_server.UnknownCommand c) st) Hin).
           cbn [run_server.stop_event run_server.print run_server.engine] in IH.
           rewrite E in IH. exact IH.
    + specialize (IH (run_server.set_stop_event st) Hin).
      cbn [orb ends_console run_server.stop_event run_server.set_stop_event] in IH. exact IH.
Qed.

(** Typing on after [exit]. *)
Lemma console_commands_leave_engine_witness :
  let st := run_server.mkConsole false [] serving in
  let r := run_server.console_listener
             [(Some "help", []); (Some "stop", []); (Some "exit", []); (Some "help", [])]%string
             st in
  fst r = run_server.Finished /\ run_server.engine (snd r) = serving.
Proof.
  destruct (console_commands_leave_engine
              [(Some "help", []); (Some "stop", []); (Some "exit", []); (Some "help", [])]%string
              (run_server.mkConsole false [] serving)) as (H1 & _ & H3).
  - reflexivity.
  - split; [exact H1 | exact H3].
Defined.

(** X11.  After a failed startup the [test_signal] command ends the console
    thread: [run_coroutine_threadsafe] (line 52) raises [RuntimeError] on
    the closed loop, outside the inner [try], and the outer [except] (line
    68) catches [EOFError] and [KeyboardInterrupt] only.  The stop flag
    stays unset and whatever is typed afterwards, [exit] included, is
    never read. *)
Theorem console_dies_on_closed_loop self ws window rest st :
  main_engine.active self = false ->
  main_engine.ws_server self = Some ws ->
  run_server.engine st = main_engine.run_async_in_thread false (main_engine.start self) ->
  run_server.stop_event st = false ->
  let r := run_server.console_listener ((Some "test_signal"%string, window) :: rest) st in
  fst r = run_server.Died RuntimeError /\
  run_server.stop_event (snd r) = false /\
  run_server.stdout (snd r) = run_server.stdout st ++ [run_server.Announce test_signal] /\
  run_server.engine (snd r) = run_server.engine st.
Proof.
  intros Hactive Hws He Hstop r. unfold r.
  assert (Hloop : main_engine.async_loop (run_server.engine st)
                  = Some main_engine.LoopClosed).
  { rewrite He. unfold main_engine.start. rewrite Hactive.
    unfold main_engine.run_async_in_thread, main_engine._start_async_components.
    cbn [main_engine.async_thread main_engine.ws_server main_engine.elogger
         main_engine.set_active main_engine.set_async_thread].
    rewrite Hws. reflexivity. }
  cbn [run_server.console_listener]. rewrite Hstop.
  unfold run_server.console_listener_step. rewrite Hstop.
  cbn [String.eqb Ascii.eqb Bool.eqb orb andb].
  unfold run_server.broadcast_test_signal. cbn [run_server.engine run_server.print].
  rewrite Hloop. cbn. repeat split. exact Hstop.
Qed.

Lemma console_dies_on_closed_loop_witness :
  fst (run_server.console_listener
         [(Some "test_signal", []); (Some "exit", [])]%string
         (run_server.mkConsole false [] failed_startup))
    = run_server.Died RuntimeError.
Proof.
  destruct (console_dies_on_closed_loop main_engine.init websocket_server.init []
              [(Some "exit"%string, [])] (run_server.mkConsole false [] failed_startup))
    as (H & _).
  - reflexivity.
  - reflexivity.
  - reflexivity.
  - reflexivity.
  - exact H.
Defined.

(* ===================================================================== *)
(** * The frames on the wire                                               *)
(* ===================================================================== *)

Lemma all_printable_app (a b : string) :
  all_printable (a ++ b) = (all_printable a && all_printable b)%bool.
Proof.
  induction a as [|c a IH]; [reflexivity|].
  rewrite JsonFacts.string_app_cons. cbn [all_printable]. rewrite IH.
  now rewrite andb_assoc.
Qed.

Lemma escape_char_printable c : all_printable (Json.escape_char c) = true.
Proof. destruct c as [[] [] [] [] [] [] [] []]; vm_compute; reflexivity. Qed.

Lemma escape_printable s : all_printable (Json.escape s) = true.
Proof.
  induction s as [|c s IH]; [reflexivity|].
  cbn [Json.escape]. now rewrite all_printable_app, escape_char_printable, IH.
Qed.

Lemma encode_basestring_ascii_printable s :
  all_printable (Json.encode_basestring_ascii s) = true.
Proof.
  unfold Json.encode_basestring_ascii. cbn [all_printable].
  now rewrite all_printable_app, escape_printable.
Qed.

Lemma string_of_uint_printable u : all_printable (NilEmpty.string_of_uint u) = true.
Proof. induction u; cbn [NilEmpty.string_of_uint all_printable]; try rewrite IHu; reflexivity. Qed.

Lemma string_of_int_printable i : all_printable (NilEmpty.string_of_int i) = true.
Proof.
  destruct i as [u|u]; cbn [NilEmpty.string_of_int all_printable];
    now rewrite string_of_uint_printable.
Qed.

Lemma string_of_Z_printable i : all_printable (NilZero.string_of_int i) = true.
Proof.
  destruct i as [u|u]; cbn [NilZero.string_of_int all_printable];
    unfold NilZero.string_of_uint; destruct u; try reflexivity;
    now rewrite string_of_uint_printable.
Qed.

Lemma dumps_value_printable v : all_printable (Json.dumps_value v) = true.
Proof.
  destruct v as [|[]|z|i f|s]; cbn [Json.dumps_value]; try reflexivity.
  - apply string_of_Z_printable.
  - unfold Json.float_repr.
    now rewrite !all_printable_app, string_of_int_printable, string_of_uint_printable.
  - apply encode_basestring_ascii_printable.
Qed.

Lemma dumps_item_printable kv : all_printable (Json.dumps_item kv) = true.
Proof.
  unfold Json.dumps_item.
  now rewrite !all_printable_app, encode_basestring_ascii_printable, dumps_value_printable.
Qed.

Lemma dumps_items_printable d : all_printable (Json.dumps_items d) = true.
Proof.
  induction d as [|kv d IH]; [reflexivity|].
  destruct d as [|kv' d]; [apply dumps_item_printable|].
  change (Json.dumps_items (kv :: kv' :: d))
    with (Json.dumps_item kv ++ ", " ++ Json.dumps_items (kv' :: d))%string.
  now rewrite !all_printable_app, dumps_item_printable, IH.
Qed.

(** X12.  Whatever a signal holds, the frame [json.dumps] makes of it
    (line 67 of the server) is printable ASCII: with [ensure_ascii] left at
    its default, control characters, quotes, backslashes and the code
    points from 127 on in keys and string values go out escaped, so a
    frame never holds a line break or a byte above 126. *)
Theorem frames_are_printable_ascii signal_data :
  all_printable (Json.dumps signal_data) = true.
Proof.
  unfold Json.dumps. now rewrite !all_printable_app, dumps_items_printable.
Qed.

(* ===================================================================== *)
(** * The client: from a frame to the signal handler                       *)
(* ===================================================================== *)

Lemma loads_no_json_value message :
  execution_engine.no_json_value message = true -> Json.loads message = None.
Proof.
  unfold execution_engine.no_json_value, Json.loads.
  destruct (Json.skip_ws message) as [|c r]; [reflexivity|].
  destruct c as [[] [] [] [] [] [] [] []]; try reflexivity; discriminate.
Qed.

Lemma json_loads_dumps signal_data :
  Json.signal_ok signal_data = true ->
  execution_engine.json_loads (Json.dumps signal_data) = execution_engine.Object signal_data.
Proof.
  intros H. unfold execution_engine.json_loads. now rewrite JsonFacts.loads_dumps.
Qed.

Lemma json_loads_junk text :
  execution_engine.no_json_value text = true ->
  execution_engine.json_loads text = execution_engine.Malformed.
Proof.
  intros H. unfold execution_engine.json_loads.
  now rewrite loads_no_json_value, H.
Qed.

Lemma received_app l l' : received (l ++ l') = received l ++ received l'.
Proof.
  induction l as [|[lv m] l IH]; [reflexivity|].
  cbn [app received]. destruct m; cbn; now rewrite IH.
Qed.

Lemma settle_output message r self :
  execution_engine.output (execution_engine.settle message r self)
    = execution_engine.output self.
Proof. destruct r as [|[]]; reflexivity. Qed.

Lemma settle_received message r self :
  received (execution_engine.log (execution_engine.settle message r self))
    = received (execution_engine.log self).
Proof.
  destruct r as [|[]]; cbn; try reflexivity; rewrite received_app; cbn;
    now rewrite app_nil_r.
Qed.

Lemma settle_fields message r self :
  execution_engine.signal_handler (execution_engine.settle message r self)
    = execution_engine.signal_handler self /\
  execution_engine.websocket (execution_engine.settle message r self)
    = execution_engine.websocket self /\
  execution_engine.sent (execution_engine.settle message r self)
    = execution_engine.sent self.
Proof. destruct r as [|[]]; repeat split. Qed.

Lemma settle_log_grows message r self x :
  x ∈ execution_engine.log self ->
  x ∈ execution_engine.log (execution_engine.settle message r self).
Proof.
  intros H. destruct r as [|[]]; cbn; try exact H; apply elem_of_app; now left.
Qed.

(** What [_process_message] makes of the frame of a signal, a handler set. *)
Lemma process_message_signal h message signal_data self :
  execution_engine.json_loads message = execution_engine.Object signal_data ->
  execution_engine.signal_handler self = Some h ->
  execution_engine._process_message message self =
    Some (execution_engine.settle message (snd (h signal_data))
            (execution_engine.emit (fst (h signal_data))
               (execution_engine.logger INFO
                  (execution_engine.SignalReceived signal_data) self))).
Proof.
  intros Hd Hh. unfold execution_engine._process_message. rewrite Hd.
  cbn [execution_engine.signal_handler execution_engine.logger]. rewrite Hh.
  now destruct (h signal_data).
Qed.

(** X13.  From [broadcast_signal] to the handler of a client: when the
    server broadcasts a well-formed signal to open transports, every
    registered client is sent a frame, and [_process_message] on such a
    frame decodes it, logs the signal received (line 91) and calls the
    handler set with [set_signal_handler] on exactly the signal the server
    was given, once; what the handler writes is all that is written. *)
Theorem broadcast_frame_reaches_handler signal_data w h self :
  coros w = [] ->
  forallb (is_open w) (elements (connected_clients w)) = true ->
  Json.signal_ok signal_data = true ->
  execution_engine.signal_handler self = Some h ->
  let sent := drop (length (frames w)) (frames (snd (broadcast_signal signal_data w))) in
  (forall c, c ∈ connected_clients w -> exists message, (c, message) ∈ sent) /\
  forall c message, (c, message) ∈ sent ->
    exists self',
      execution_engine._process_message message self = Some self' /\
      execution_engine.output self' =
        execution_engine.output self ++ fst (h signal_data) /\
      received (execution_engine.log self') =
        received (execution_engine.log self) ++ [signal_data] /\
      (snd (h signal_data) = execution_engine.Returned ->
       execution_engine.log self' =
         execution_engine.log self ++ [(INFO, execution_engine.SignalReceived signal_data)]).
Proof.
  intros Hidle Hopen Hok Hh sent.
  assert (Hall : forall c, c ∈ elements (connected_clients w) -> is_open w c = true).
  { intros c Hc. rewrite forallb_forall in Hopen. apply Hopen. now apply list_elem_of_In. }
  assert (Hsent : sent = frames_to (Json.dumps signal_data) (elements (connected_clients w))).
  { unfold sent. destruct (decide (connected_clients w = ∅)) as [Hempty|Hne].
    - rewrite broadcast_signal_empty by assumption. cbn.
      rewrite Hempty, elements_empty. cbn. now rewrite drop_all.
    - rewrite broadcast_signal_nonempty by assumption. cbn zeta. unfold after_sends.
      rewrite (filter_none (is_congested w)), (filter_none (is_closed w)),
        (filter_all (is_open _)).
      + cbn. now rewrite drop_app_length.
      + exact Hall.
      + intros c Hc. now apply is_open_not_closed, Hall.
      + intros c Hc. now apply is_open_not_congested, Hall. }
  rewrite Hsent. clear sent Hsent. split.
  - intros c Hc. exists (Json.dumps signal_data). apply elem_of_frames_to.
    split; [now apply elem_of_elements | reflexivity].
  - intros c message Hf. apply elem_of_frames_to in Hf as [_ ->].
    eexists. split.
    { apply process_message_signal; [now apply json_loads_dumps | exact Hh]. }
    split; [now rewrite settle_output|]. split.
    + rewrite settle_received. cbn. now rewrite received_app.
    + intros Hr. rewrite Hr. reflexivity.
Qed.

(** The trading client gets the test signal from a server with three
    clients. *)
Lemma broadcast_frame_reaches_handler_witness :
  exists self',
    execution_engine._process_message (Json.dumps test_signal) client_run.trader
      = Some self' /\
    execution_engine.output self' = fst (client_run.handle_signal test_signal).
Proof.
  destruct (broadcast_frame_reaches_handler test_signal three_clients
              client_run.handle_signal client_run.trader) as [_ H].
  - reflexivity.
  - reflexivity.
  - reflexivity.
  - reflexivity.
  - destruct (H 3%positive (Json.dumps test_signal)) as (self' & H1 & H2 & _).
    + apply (bool_decide_unpack _). vm_compute. exact I.
    + exists self'. split; [exact H1 | exact H2].
Defined.

Lemma process_all_items h items self :
  execution_engine.signal_handler self = Some h ->
  forallb item_ok items = true ->
  exists self',
    execution_engine.process_all (wire <$> items) self = Some self' /\
    execution_engine.signal_handler self' = Some h /\
    execution_engine.websocket self' = execution_engine.websocket self /\
    execution_engine.sent self' = execution_engine.sent self /\
    execution_engine.output self' =
      execution_engine.output self ++ concat ((fun d => fst (h d)) <$> signals items) /\
    received (execution_engine.log self') =
      received (execution_engine.log self) ++ signals items /\
    (forall x, x ∈ execution_engine.log self -> x ∈ execution_engine.log self') /\
    (forall text, text ∈ junk items ->
       (ERROR, execution_engine.NotJson text) ∈ execution_engine.log self').
Proof.
  revert self. induction items as [|i items IH]; intros self Hh Hitems.
  - exists self. cbn. rewrite !app_nil_r. repeat split; try tauto.
    intros text H. now apply not_elem_of_nil in H.
  - cbn [forallb] in Hitems. apply andb_prop in Hitems as [Hi Hitems].
    cbn [fmap list_fmap execution_engine.process_all].
    destruct i as [d|text]; cbn [item_ok wire] in *.
    + rewrite (process_message_signal h _ d self (json_loads_dumps d Hi) Hh).
      set (self1 := execution_engine.settle _ _ _).
      destruct (settle_fields (Json.dumps d) (snd (h d))
                  (execution_engine.emit (fst (h d))
                     (execution_engine.logger INFO (execution_engine.SignalReceived d) self)))
        as (Hs1 & Hs2 & Hs3). fold self1 in Hs1, Hs2, Hs3.
      destruct (IH self1) as (self' & Hp & Hh' & Hw & Hsn & Ho & Hr & Hl & Hj);
        [rewrite Hs1; exact Hh | exact Hitems |].
      exists self'. split; [exact Hp|]. split; [exact Hh'|].
      split; [now rewrite Hw, Hs2|]. split; [now rewrite Hsn, Hs3|].
      split; [|split; [|split]].
      * rewrite Ho. unfold self1. rewrite settle_output. cbn.
        now rewrite <- app_assoc.
      * rewrite Hr. unfold self1. rewrite settle_received. cbn.
        rewrite received_app. cbn. now rewrite <- app_assoc.
      * intros x Hx. apply Hl. unfold self1. apply settle_log_grows. cbn.
        apply elem_of_app. now left.
      * exact Hj.
    + unfold execution_engine._process_message. rewrite (json_loads_junk text Hi).
      set (self1 := execution_engine.settle _ _ _).
      destruct (IH self1) as (self' & Hp & Hh' & Hw & Hsn & Ho & Hr & Hl & Hj);
        [exact Hh | exact Hitems |].
      exists self'. split; [exact Hp|]. split; [exact Hh'|].
      split; [exact Hw|]. split; [exact Hsn|]. split; [exact Ho|].
      split; [|split].
      * rewrite Hr. unfold self1. cbn. rewrite received_app. cbn.
        now rewrite app_nil_r.
      * intros x Hx. apply Hl. unfold self1. cbn. apply elem_of_app. now left.
      * intros t Ht. cbn [junk] in Ht. apply elem_of_cons in Ht as [->|Ht].
        -- apply Hl. unfold self1. cbn. apply elem_of_app. right. apply list_elem_of_here.
        -- now apply Hj.
Qed.

(** X14.  [listen] goes through every frame: on a stream of frames of
    well-formed signals and of texts that are no JSON, in any order and
    with any handler, even one that raises, the handler is called once for
    each signal, in the order received, and for nothing else; each text
    that is no JSON is logged (line 102) and skipped; no exception leaves
    [listen], and when the connection closes [running] is cleared. *)
Theorem listen_handles_every_signal h items how self :
  execution_engine.websocket self = true ->
  execution_engine.signal_handler self = Some h ->
  forallb item_ok items = true ->
  exists self',
    execution_engine.listen (wire <$> items) how self = Some self' /\
    execution_engine.running self' = false /\
    execution_engine.output self' =
      execution_engine.output self ++ concat ((fun d => fst (h d)) <$> signals items) /\
    received (execution_engine.log self') =
      received (execution_engine.log self) ++ signals items /\
    (forall text, text ∈ junk items ->
       (ERROR, execution_engine.NotJson text) ∈ execution_engine.log self').
Proof.
  intros Hws Hh Hitems. unfold execution_engine.listen. rewrite Hws. cbn [negb].
  destruct (process_all_items h items
              (execution_engine.logger INFO execution_engine.Listening self))
    as (self1 & Hp & _ & _ & _ & Ho & Hr & _ & Hj); [exact Hh | exact Hitems |].
  rewrite Hp. eexists. split; [reflexivity|]. split; [reflexivity|].
  destruct how; cbn.
  - split; [exact Ho|]. split; [|exact Hj].
    rewrite Hr. cbn. rewrite received_app. cbn. now rewrite app_nil_r.
  - split; [exact Ho|]. split.
    + rewrite received_app, Hr. cbn. rewrite received_app. cbn. now rewrite !app_nil_r.
    + intros t Ht. apply elem_of_app. left. now apply Hj.
Qed.

(** Two signals with junk in between, and a handler that raises on the
    first signal. *)
Lemma listen_handles_every_signal_witness :
  exists self',
    execution_engine.listen
      [Json.dumps [("action", Json.PyInt 1)]; "hello"; Json.dumps test_signal]%string
      execution_engine.ClosedError
      (execution_engine.set_websocket true client_run.trader) = Some self' /\
    received (execution_engine.log self') = [[("action", Json.PyInt 1)]%string; test_signal].
Proof.
  destruct (listen_handles_every_signal client_run.handle_signal
              [Signal [("action", Json.PyInt 1)]; Junk "hello"; Signal test_signal]%string
              execution_engine.ClosedError
              (execution_engine.set_websocket true client_run.trader))
    as (self' & H1 & _ & _ & H2 & _).
  - reflexivity.
  - reflexivity.
  - reflexivity.
  - exists self'. split; [exact H1 | exact H2].
Defined.

Lemma printed_lines_app es es' :
  printed_lines (es ++ es') = printed_lines es ++ printed_lines es'.
Proof.
  induction es as [|e es IH]; [reflexivity|].
  destruct e; cbn [app printed_lines]; now rewrite IH.
Qed.

(** X15.  The handler of the trading client calls [.upper()] on the
    [action] of the signal (run.py, line 56).  When the signal has no
    [action] or a string there, the eight lines are printed, absent fields
    with their defaults, and nothing is logged as an error.  When [action]
    is anything else (a number, a boolean, [null]) the handler raises
    [AttributeError] before it prints; [_process_message] catches it (line
    103), logs it (line 104) and returns, so the signal is dropped and the
    client goes on listening. *)
Theorem handle_signal_needs_text_action message signal_data self :
  execution_engine.json_loads message = execution_engine.Object signal_data ->
  execution_engine.signal_handler self = Some client_run.handle_signal ->
  exists self',
    execution_engine._process_message message self = Some self' /\
    match execution_engine.dict_get "action" (Json.PyStr "") signal_data with
    | Json.PyStr s =>
        execution_engine.log self' =
          execution_engine.log self ++ [(INFO, execution_engine.SignalReceived signal_data)] /\
        printed_lines (execution_engine.output self') =
          printed_lines (execution_engine.output self) ++
          [execution_engine.ExecuteBanner;
           execution_engine.Field execution_engine.Strategy
             (execution_engine.Value
                (execution_engine.dict_get "strategy_id" (Json.PyStr "unknown") signal_data));
           execution_engine.Field execution_engine.SignalId
             (execution_engine.Value
                (execution_engine.dict_get "signal_id" (Json.PyStr "unknown") signal_data));
           execution_engine.Field execution_engine.Action
             (execution_engine.Text (client_run.str_upper s));
           execution_engine.Field execution_engine.Symbol
             (execution_engine.Value
                (execution_engine.dict_get "symbol" (Json.PyStr "") signal_data));
           execution_engine.Field execution_engine.Price
             (execution_engine.Value
                (execution_engine.dict_get "price" (Json.PyInt 0) signal_data));
           execution_engine.Field execution_engine.Volume
             (execution_engine.Value
                (execution_engine.dict_get "volume" (Json.PyInt 0) signal_data));
           execution_engine.Rule]
    | _ =>
        execution_engine.log self' =
          execution_engine.log self ++
            [(INFO, execution_engine.SignalReceived signal_data);
             (ERROR, execution_engine.ProcessError execution_engine.AttributeError)] /\
        printed_lines (execution_engine.output self') =
          printed_lines (execution_engine.output self)
    end.
Proof.
  intros Hd Hh. eexists. split; [exact (process_message_signal _ _ _ _ Hd Hh)|].
  unfold client_run.handle_signal.
  destruct (execution_engine.dict_get "action" (Json.PyStr "") signal_data);
    cbn; rewrite ?printed_lines_app, <- ?app_assoc; cbn; rewrite ?app_nil_r; now split.
Qed.

(** A signal whose action is the number 1. *)
Lemma handle_signal_needs_text_action_witness :
  exists self',
    execution_engine._process_message
      (Json.dumps [("action", Json.PyInt 1)]%string) client_run.trader = Some self' /\
    last (execution_engine.log self') =
      Some (ERROR, execution_engine.ProcessError execution_engine.AttributeError) /\
    printed_lines (execution_engine.output self') = [].
Proof.
  destruct (handle_signal_needs_text_action
              (Json.dumps [("action", Json.PyInt 1)]%string)
              [("action", Json.PyInt 1)]%string client_run.trader)
    as (self' & H1 & H2).
  - reflexivity.
  - reflexivity.
  - exists self'. split; [exact H1|]. cbn in H2. destruct H2 as [H2 H3].
    rewrite H2, H3. split; reflexivity.
Defined.

(** X16.  [run] never lets an exception out and always ends with
    [running] cleared.  When the connection is refused, or lost before the
    identification is sent, the error is logged (line 134) and no frame is
    processed; when it is made, the identification is the one frame the
    client sends, and the signals received are handled as [listen] does.
    [close] finds a connection to close in every case but the refusal. *)
Theorem run_always_ends_stopped how h items ending self :
  execution_engine.websocket self = false ->
  execution_engine.signal_handler self = Some h ->
  forallb item_ok items = true ->
  exists self',
    execution_engine.run how (wire <$> items) ending self = Some self' /\
    execution_engine.running self' = false /\
    execution_engine.websocket self' =
      match how with execution_engine.Refused => false | _ => true end /\
    execution_engine.sent self' =
      execution_engine.sent self ++
        match how with
        | execution_engine.Established => [Json.dumps execution_engine.client_info]
        | _ => []
        end /\
    received (execution_engine.log self') =
      received (execution_engine.log self) ++
        match how with execution_engine.Established => signals items | _ => [] end /\
    execution_engine.output self' =
      execution_engine.output self ++
        match how with
        | execution_engine.Established => concat ((fun d => fst (h d)) <$> signals items)
        | _ => []
        end.
Proof.
  intros Hws Hh Hitems. unfold execution_engine.run.
  destruct how; cbn [execution_engine.connect].
  - eexists. split; [reflexivity|]. cbn. rewrite Hws. cbn.
    rewrite !received_app. cbn. rewrite !app_nil_r. repeat split. exact Hws.
  - eexists. split; [reflexivity|]. cbn.
    rewrite !received_app. cbn. rewrite !app_nil_r. repeat split.
  - set (self1 := execution_engine.send _ _).
    unfold execution_engine.listen.
    assert (Hw1 : execution_engine.websocket self1 = true) by reflexivity.
    rewrite Hw1. cbn [negb].
    destruct (process_all_items h items
                (execution_engine.logger INFO execution_engine.Listening self1))
      as (self2 & Hp & _ & Hw2 & Hs2 & Ho & Hr & _ & _); [exact Hh | exact Hitems |].
    rewrite Hp. eexists. split; [reflexivity|].
    cbn in Hw2, Hs2, Ho, Hr. rewrite !received_app in Hr. cbn in Hr.
    rewrite !app_nil_r in Hr.
    destruct ending; cbn; rewrite Hw2; cbn; rewrite ?received_app; cbn;
      rewrite ?app_nil_r, ?Hs2, ?Hr, ?Ho; repeat split; exact Hw2.
Qed.

(** The server is not there. *)
Lemma run_always_ends_stopped_witness :
  exists self',
    execution_engine.run execution_engine.Refused [] execution_engine.ClosedOK
      client_run.trader = Some self' /\
    execution_engine.running self' = false.
Proof.
  destruct (run_always_ends_stopped execution_engine.Refused client_run.handle_signal []
              execution_engine.ClosedOK client_run.trader) as (self' & H1 & H2 & _).
  - reflexivity.
  - reflexivity.
  - reflexivity.
  - exists self'. split; [exact H1 | exact H2].
Defined.
